(** * ConsensusDecisionSystem: a shallow embedding of [index.js]

    The proposal lifecycle and consensus-evaluation engine of the
    repository, translated method by method, and
    [AIConsensusStrategy.getVoteSuggestion], the one method of the
    advisory layer that changes the state of the system.

    Modelling conventions.
    - A weight, a threshold, and every number computed from them (the
      weighted sums, the ratio that is compared with the threshold) is an
      IEEE 754 binary64 number ([double]): the sums round, and they are
      added up in voting order, as the loops of the source do.  The format
      and its operations are those of [SpecFloat].
    - A count is a natural number and a timestamp an integer.  A number
      submitted as a vote is a finite number, the rational it denotes
      ([JNum]); a ratio of two counts is kept as their exact quotient,
      which the number the source holds is the rounding of.
    - A vote is a primitive value or an array ([jsval]).
    - A JavaScript [Map] is an insertion-ordered association list
      ([JMap]): iteration order is insertion order, and [set] on a present
      key keeps its position.
    - A plain object used as a map ([counts], [weightedCounts]) is the
      association list of its own properties; reading [o[k]] falls back
      on [Object.prototype] when [o] has no property [k] of its own
      ([lookup]).
    - A call that throws after it has changed the system ([formatProposal]
      prints the two dates of a proposal, and [toISOString] throws a
      [RangeError] on a date out of range) yields the outcome [Thrown]
      beside the system it leaves behind.
    - Proposal and agent objects live in the maps of the system.  A
      variable that holds such an object is a reference, the key of the
      object; a method that mutates the object updates the entry under the
      key.  The methods that take a proposal object are modelled on stored
      proposals.
    - [Date.now()] reads a clock that the environment owns; every reading
      consumes one tick of the [World].
    - How a number prints (in a template literal or as a property key) is
      a parameter, [Number_toString].
    - Messages built for display ([message], [suggestion]) are left out of
      the returned values. *)

From Stdlib Require Import List String Ascii Bool Arith ZArith QArith Qround Lia Lqa.
From Stdlib Require Import DecimalString.
From Stdlib Require Import Sorted Permutation.
From Stdlib Require Import SpecFloat.
From Stdlib Require DecimalZ.
Import ListNotations.

Set Implicit Arguments.
Set Warnings "-register-all".

(** ** JavaScript values that can be submitted as a vote *)

Inductive jsval : Type :=
| JUndefined
| JNull
| JBool (b : bool)
| JNum (n : Q)
| JStr (s : string)
| JArr (elems : list jsval).

(** [v === s] for a string literal [s]. *)
Definition strict_eq_str (v : jsval) (s : string) : bool :=
  match v with JStr t => String.eqb t s | _ => false end.

(** [v === b] for a boolean literal [b]. *)
Definition strict_eq_bool (v : jsval) (b : bool) : bool :=
  match v with JBool c => Bool.eqb c b | _ => false end.

(** [v === n] for a number literal [n]. *)
Definition strict_eq_num (v : jsval) (n : Q) : bool :=
  match v with JNum m => Qeq_bool m n | _ => false end.

(** [Array.isArray(v)]. *)
Definition Array_isArray (v : jsval) : bool :=
  match v with JArr _ => true | _ => false end.

(** [v.includes(n)] on an array [v], for a number literal [n]. *)
Definition includes (v : jsval) (n : Q) : bool :=
  match v with
  | JArr l => existsb (fun e => strict_eq_num e n) l
  | _ => false
  end.

(** [v[0]]: the first element of an array, [undefined] when it is empty. *)
Definition index0 (v : jsval) : jsval :=
  match v with
  | JArr (e :: _) => e
  | _ => JUndefined
  end.

(** [a < b], [a > b] on the numbers kept as rationals. *)
Definition Qltb (a b : Q) : bool := negb (Qle_bool b a).

(** ** Binary64 numbers *)

Definition double : Type := spec_float.

Module Num.
Definition prec : Z := 53.
Definition emax : Z := 1024.

(** [0] *)
Definition zero : double := S754_zero false.

(** The number an integer literal or a count denotes. *)
Definition of_Z (z : Z) : double := binary_normalize prec emax z 0 false.
Definition of_nat (n : nat) : double := of_Z (Z.of_nat n).

(** [1.0] *)
Definition one : double := of_Z 1.

(** [x + y], [x - y], [x * y], [x / y] *)
Definition add : double -> double -> double := SFadd prec emax.
Definition sub : double -> double -> double := SFsub prec emax.
Definition mul : double -> double -> double := SFmul prec emax.
Definition div : double -> double -> double := SFdiv prec emax.

(** [x < y], [x <= y]; [x > y] is [ltb y x] and [x >= y] is [leb y x].
    Every comparison with NaN is false. *)
Definition ltb : double -> double -> bool := SFltb.
Definition leb : double -> double -> bool := SFleb.

(** The number a decimal literal [m / 10^k] denotes: the binary64 number
    nearest to it, which is what dividing the two integers gives. *)
Definition decimal (m : Z) (k : nat) : double :=
  div (of_Z m) (of_Z (10 ^ Z.of_nat k)).

(** The numbers that count as false: [0], [-0] and NaN. *)
Definition falsy (x : double) : bool :=
  match x with
  | S754_zero _ | S754_nan => true
  | _ => false
  end.

(** A member of the format: the mantissa and the exponent of a finite
    number are in range. *)
Definition valid (x : double) : bool := valid_binary prec emax x.

(** The rational a finite number is. *)
Definition value (x : double) : Q :=
  match x with
  | S754_finite s m e =>
      inject_Z (if s then Z.neg m else Z.pos m) * Qpower 2 e
  | _ => 0
  end.

(** [Math.ceil(x)] *)
Definition ceil (x : double) : double :=
  match x with
  | S754_finite s m (Z.neg k) =>
      let q := (Z.pos m / 2 ^ Z.pos k)%Z in
      let r := (Z.pos m mod 2 ^ Z.pos k)%Z in
      if s then
        if (q =? 0)%Z then S754_zero true else of_Z (- q)
      else of_Z (if (r =? 0)%Z then q else q + 1)
  | _ => x
  end.
End Num.

(** [x || d] on numbers. *)
Definition num_or (x d : double) : double := if Num.falsy x then d else x.

(** [s || d] on strings: the empty string is falsy. *)
Definition str_or (s d : string) : string :=
  match s with EmptyString => d | _ => s end.

(** ** Insertion-ordered maps with string keys *)

Module JMap.
Section Defs.
Variable V : Type.

Definition t : Type := list (string * V).

Definition empty : t := [].

Fixpoint get (k : string) (m : t) : option V :=
    match m with
    | [] => None
    | (k', v) :: m' => if String.eqb k' k then Some v else get k m'
    end.

Definition has (k : string) (m : t) : bool :=
    match get k m with Some _ => true | None => false end.

Fixpoint set (k : string) (v : V) (m : t) : t :=
    match m with
    | [] => [(k, v)]
    | (k', v') :: m' =>
        if String.eqb k' k then (k', v) :: m' else (k', v') :: set k v m'
    end.

  (** In-place mutation of the object stored under [k], if there is one. *)
Fixpoint update (k : string) (f : V -> V) (m : t) : t :=
    match m with
    | [] => []
    | (k', v') :: m' =>
        if String.eqb k' k then (k', f v') :: m' else (k', v') :: update k f m'
    end.

Definition size (m : t) : nat := List.length m.
Definition keys (m : t) : list string := map fst m.
Definition values (m : t) : list V := map snd m.
End Defs.
Arguments empty {V}.
End JMap.

(** ** Records of the data model *)

Module Agent.
Record t : Type := mk {
    id : string;
    name : string;
    role : string;
    weight : double;
    reputation : Z;
    participatedDecisions : nat;
    agreedDecisions : nat;
    disagreedDecisions : nat;
    joinedAt : Z
  }.

  (** [agent.participatedDecisions++] *)
Definition incr_participated (a : t) : t :=
    mk (id a) (name a) (role a) (weight a) (reputation a)
       (S (participatedDecisions a)) (agreedDecisions a)
       (disagreedDecisions a) (joinedAt a).

  (** [agent.agreedDecisions++] *)
Definition incr_agreed (a : t) : t :=
    mk (id a) (name a) (role a) (weight a) (reputation a)
       (participatedDecisions a) (S (agreedDecisions a))
       (disagreedDecisions a) (joinedAt a).

  (** [agent.disagreedDecisions++] *)
Definition incr_disagreed (a : t) : t :=
    mk (id a) (name a) (role a) (weight a) (reputation a)
       (participatedDecisions a) (agreedDecisions a)
       (S (disagreedDecisions a)) (joinedAt a).
End Agent.

Module VoteData.
Record t : Type := mk {
    vote : jsval;
    comment : string;
    timestamp : Z
  }.
End VoteData.

Module Comment.
Record t : Type := mk {
    agentId : string;
    agentName : string;
    comment : string;
    timestamp : Z
  }.
End Comment.

Inductive Status : Type := voting | accepted | rejected | expired.

Definition Status_eqb (a b : Status) : bool :=
  match a, b with
  | voting, voting | accepted, accepted
  | rejected, rejected | expired, expired => true
  | _, _ => false
  end.

Module Proposal.
Record t : Type := mk {
    id : string;
    title : string;
    description : string;
    options : list string;
    type : string;
    creator : string;
    status : Status;
    createdAt : Z;
    deadline : Z;
    votes : JMap.t VoteData.t;
    comments : list Comment.t;
    requiredConsensus : double
  }.

  (** [proposal.status = s] *)
Definition set_status (s : Status) (p : t) : t :=
    mk (id p) (title p) (description p) (options p) (type p) (creator p)
       s (createdAt p) (deadline p) (votes p) (comments p)
       (requiredConsensus p).

  (** [proposal.votes.set(agentId, vd)] *)
Definition votes_set (agentId : string) (vd : VoteData.t) (p : t) : t :=
    mk (id p) (title p) (description p) (options p) (type p) (creator p)
       (status p) (createdAt p) (deadline p)
       (JMap.set agentId vd (votes p)) (comments p) (requiredConsensus p).

  (** [proposal.comments.push(c)] *)
Definition comments_push (c : Comment.t) (p : t) : t :=
    mk (id p) (title p) (description p) (options p) (type p) (creator p)
       (status p) (createdAt p) (deadline p) (votes p)
       (comments p ++ [c]) (requiredConsensus p).
End Proposal.

Module BreakdownEntry.
Record t : Type := mk {
    agentId : string;
    agentName : string;
    vote : jsval;
    weight : double
  }.
End BreakdownEntry.

(** What a property of [counts] or [weightedCounts] holds: a number, or
    the string that adding a number to a value that is not a number
    leaves behind. *)
Inductive Count (A : Type) : Type :=
| Counted (n : A)
| Text (s : string).
Arguments Text {A} s.

(** The value [countVotes] returns.  [counts] and [weightedCounts] are
    plain objects used as maps from property keys. *)
Module Results.
Record t : Type := mk {
    counts : JMap.t (Count nat);
    weightedCounts : JMap.t (Count double);
    breakdown : list BreakdownEntry.t
  }.
End Results.

Module Decision.
Record t : Type := mk {
    id : string;
    proposalId : string;
    title : string;
    description : string;
    result : Status;
    results : Results.t;
    participants : list string;
    decidedAt : Z;
    consensusRatio : Q
  }.
End Decision.

Module Config.
Record t : Type := mk {
    minAgents : Z;
    voteDeadline : Z;
    consensusThreshold : double;
    requireVeto : bool
  }.

  (** The object handed to the constructor; every field may be missing. *)
Record arg : Type := mk_arg {
    arg_name : option string;
    arg_minAgents : option Z;
    arg_voteDeadline : option Z;
    arg_consensusThreshold : option double;
    arg_requireVeto : option bool
  }.

Definition no_arg : arg := mk_arg None None None None None.
End Config.

Module System.
Record t : Type := mk {
    name : string;
    agents : JMap.t Agent.t;
    proposals : JMap.t Proposal.t;
    decisions : JMap.t Decision.t;
    votes : JMap.t VoteData.t;
    consensusHistory : list Decision.t;
    config : Config.t;
    proposalIdCounter : nat;
    decisionIdCounter : nat
  }.

Definition set_agents (x : JMap.t Agent.t) (s : t) : t :=
    mk (name s) x (proposals s) (decisions s) (votes s)
       (consensusHistory s) (config s) (proposalIdCounter s)
       (decisionIdCounter s).

Definition set_proposals (x : JMap.t Proposal.t) (s : t) : t :=
    mk (name s) (agents s) x (decisions s) (votes s)
       (consensusHistory s) (config s) (proposalIdCounter s)
       (decisionIdCounter s).

Definition set_decisions (x : JMap.t Decision.t) (s : t) : t :=
    mk (name s) (agents s) (proposals s) x (votes s)
       (consensusHistory s) (config s) (proposalIdCounter s)
       (decisionIdCounter s).

Definition set_votes (x : JMap.t VoteData.t) (s : t) : t :=
    mk (name s) (agents s) (proposals s) (decisions s) x
       (consensusHistory s) (config s) (proposalIdCounter s)
       (decisionIdCounter s).

Definition set_consensusHistory (x : list Decision.t) (s : t) : t :=
    mk (name s) (agents s) (proposals s) (decisions s) (votes s)
       x (config s) (proposalIdCounter s) (decisionIdCounter s).

Definition set_proposalIdCounter (x : nat) (s : t) : t :=
    mk (name s) (agents s) (proposals s) (decisions s) (votes s)
       (consensusHistory s) (config s) x (decisionIdCounter s).

Definition set_decisionIdCounter (x : nat) (s : t) : t :=
    mk (name s) (agents s) (proposals s) (decisions s) (votes s)
       (consensusHistory s) (config s) (proposalIdCounter s) x.
End System.

(** ** The environment: the system object and the clock *)

Record World : Type := mkWorld {
  system : System.t;
  clock : nat -> Z;
  reads : nat
}.

(** A method body: it may read the clock and mutate the system.  [None] is
    a [TypeError], raised when a property is read through a reference that
    denotes no stored object. *)
Definition M (A : Type) : Type := World -> option (A * World).

Definition ret {A : Type} (a : A) : M A := fun w => Some (a, w).

Definition bind {A B : Type} (m : M A) (k : A -> M B) : M B :=
  fun w => match m w with
           | Some (a, w') => k a w'
           | None => None
           end.

Declare Scope js_scope.
Delimit Scope js_scope with js.
Notation "x <- c ;; k" := (bind c (fun x => k))
  (at level 61, c at next level, right associativity) : js_scope.
Notation "c ;; k" := (bind c (fun _ => k))
  (at level 61, right associativity) : js_scope.

(** [Date.now()] *)
Definition Date_now : M Z :=
  fun w => Some (clock w (reads w), mkWorld (system w) (clock w) (S (reads w))).

(** [this] *)
Definition this_ : M System.t := fun w => Some (system w, w).

Definition modify (f : System.t -> System.t) : M unit :=
  fun w => Some (tt, mkWorld (f (system w)) (clock w) (reads w)).

(** Reading through a reference to a stored proposal. *)
Definition deref (ref : string) : M Proposal.t :=
  fun w => match JMap.get ref (System.proposals (system w)) with
           | Some p => Some (p, w)
           | None => None
           end.

(** Mutating the stored proposal a reference denotes. *)
Definition mutate (ref : string) (f : Proposal.t -> Proposal.t) : M unit :=
  modify (fun this =>
    System.set_proposals (JMap.update ref f (System.proposals this)) this).

(** ** Results and error messages *)

(** The exceptions the methods can throw. *)
Inductive Exn : Type :=
| TypeError
| RangeError.

(** How the evaluation of an expression completes: with a value, or
    abruptly, with a thrown exception. *)
Inductive Completion (A : Type) : Type :=
| Normal (a : A)
| Throw (e : Exn).
Arguments Throw {A} e.

(** The outcome of a call of a public method: the object it returns, with
    [success: true] or with [success: false] and an error message, or the
    exception it throws.  The world beside the outcome is the one the call
    leaves behind, also when it throws. *)
Inductive Result (A : Type) : Type :=
| Success (a : A)
| Failure (error : string)
| Thrown (e : Exn).
Arguments Failure {A} error.
Arguments Thrown {A} e.

(** The messages of the source, under the names of the error taxonomy. *)
Definition AgentNotFound : string := "Agent未注册".
Definition ProposalNotFound : string := "提案不存在".
Definition ProposalNotVoting : string := "提案不在投票中".
Definition ExpiredProposal : string := "投票已截止".
Definition InvalidOptionIndex : string := "无效的选项索引".
Definition MultiNeedsArray : string := "多选投票需要数组".
Definition RankedNeedsArray : string := "排序投票需要数组".
Definition YesNoNeeded : string := "是/否投票需要 yes/no 或 true/false".
Definition InsufficientVotes : string := "投票人数不足".

Inductive Validation : Type :=
| Valid
| Invalid (error : string).

(** The object [checkConsensus] builds when the votes are tallied.
    [yesRatio] is the ratio the source prints as a percentage, [threshold]
    the number it puts before the percent sign. *)
Module Tallied.
Record t : Type := mk {
  totalVotes : nat;
  totalAgents : nat;
  yesVotes : nat;
  noVotes : nat;
  abstainVotes : nat;
  yesWeight : double;
  noWeight : double;
  yesRatio : double;
  reached : bool;
  threshold : double
}.
End Tallied.

Inductive ConsensusStatus : Type :=
| NotReached (reason : string)
| Tally (s : Tallied.t).

(** [status.reached] *)
Definition reached (c : ConsensusStatus) : bool :=
  match c with
  | NotReached _ => false
  | Tally s => Tallied.reached s
  end.

(** The loop variables of [checkConsensus]. *)
Module Acc.
Record t : Type := mk {
  yesVotes : nat;
  noVotes : nat;
  abstainVotes : nat;
  yesWeight : double;
  noWeight : double;
  abstainWeight : double
}.
Definition zero : t := mk 0 0 0 Num.zero Num.zero Num.zero.
End Acc.

(** The value [formatProposal] returns; a printed date is kept as the
    time value it prints, and [requiredConsensus] is the number put before
    the percent sign. *)
Module Formatted.
Record t : Type := mk {
  id : string;
  title : string;
  description : string;
  options : list string;
  type : string;
  creator : string;
  status : Status;
  createdAt : Z;
  deadline : Z;
  voteCount : nat;
  comments : nat;
  requiredConsensus : double
}.
End Formatted.

Module VoteOk.
Record t : Type := mk {
  proposal : Formatted.t;
  consensusStatus : ConsensusStatus
}.
End VoteOk.

(** ** Plain objects *)

Local Open Scope string_scope.
Local Open Scope js_scope.

(** The methods every plain object inherits from [Object.prototype]. *)
Definition Object_prototype_methods : list string :=
  [ "constructor"; "__defineGetter__"; "__defineSetter__"; "hasOwnProperty";
    "__lookupGetter__"; "__lookupSetter__"; "isPrototypeOf";
    "propertyIsEnumerable"; "toString"; "valueOf"; "toLocaleString" ].

(** The text of the built-in function found under the key [k] of
    [Object.prototype], as Node.js prints it: the function is named after
    its key, except [constructor], which is the function [Object]. *)
Definition native_function (k : string) : string :=
  "function " ++ (if k =? "constructor" then "Object" else k)
  ++ "() { [native code] }".

(** What reading [o[k]] finds: a property of [o] itself; else a member of
    [Object.prototype], given by the text it turns into when a number is
    added to it (the text of a method; for the accessor [__proto__] the
    text of the prototype object it returns); else nothing. *)
Inductive Found (A : Type) : Type :=
| Own (a : A)
| Inherited (text : string)
| Undefined.
Arguments Inherited {A} text.
Arguments Undefined {A}.

Definition inherited (k : string) : bool :=
  (k =? "__proto__") || existsb (String.eqb k) Object_prototype_methods.

(** [o[k]] *)
Definition lookup (A : Type) (k : string) (o : JMap.t A) : Found A :=
  match JMap.get k o with
  | Some a => Own a
  | None =>
      if k =? "__proto__" then Inherited "[object Object]"
      else if existsb (String.eqb k) Object_prototype_methods
      then Inherited (native_function k)
      else Undefined
  end.

(** [o[k] = v], for a value [v] that is a number or a string: the setter
    that [__proto__] names ignores such a value; every other key becomes,
    or stays, a property of [o]. *)
Definition assign (A : Type) (k : string) (v : A) (o : JMap.t A) : JMap.t A :=
  match JMap.get k o with
  | Some _ => JMap.set k v o
  | None => if k =? "__proto__" then o else JMap.set k v o
  end.

(** ** The methods of [ConsensusDecisionSystem] *)

(** [x || d] for an optional configuration number. *)
Definition optZ_or (x : option Z) (d : Z) : Z :=
  match x with
  | Some z => if (z =? 0)%Z then d else z
  | None => d
  end.

Definition optnum_or (x : option double) (d : double) : double :=
  match x with
  | Some q => num_or q d
  | None => d
  end.

Definition optstr_or (x : option string) (d : string) : string :=
  match x with
  | Some s => str_or s d
  | None => d
  end.

Definition optbool_or (x : option bool) (d : bool) : bool :=
  match x with
  | Some b => b || d
  | None => d
  end.

(** A parameter with a default value: the default replaces [undefined]. *)
Definition param {A : Type} (x : option A) (d : A) : A :=
  match x with
  | Some a => a
  | None => d
  end.

(** [new ConsensusDecisionSystem(config)] *)
Definition constructor (config : Config.arg) : System.t :=
  System.mk
    (optstr_or (Config.arg_name config) "🎯 共识决策系统")
    JMap.empty JMap.empty JMap.empty JMap.empty []
    (Config.mk
       (optZ_or (Config.arg_minAgents config) 2)
       (optZ_or (Config.arg_voteDeadline config) 300000)
       (optnum_or (Config.arg_consensusThreshold config) (Num.decimal 6 1))
       (optbool_or (Config.arg_requireVeto config) false))
    1 1.

(** [registerAgent(agentId, agentName, role = 'member', weight = 1.0)] *)
Definition registerAgent (agentId agentName : string)
    (role : option string) (weight : option double)
  : M (Result (option Agent.t)) :=
  joinedAt <- Date_now ;;
  modify (fun this =>
    System.set_agents
      (JMap.set agentId
         (Agent.mk agentId agentName (param role "member")
                   (param weight Num.one) 100 0 0 0 joinedAt)
         (System.agents this))
      this) ;;
  this <- this_ ;;
  ret (Success (JMap.get agentId (System.agents this))).

(** [getAgentName(agentId)] *)
Definition getAgentName (this : System.t) (agentId : string) : string :=
  match JMap.get agentId (System.agents this) with
  | Some agent => str_or (Agent.name agent) "Unknown"
  | None => "Unknown"
  end.

(** The largest time value of a [Date], in milliseconds either side of
    the epoch. *)
Definition Date_range : Z := 8640000000000000.

(** [new Date(t).toISOString()] for an integer [t]: a time value out of
    range makes an invalid date, which [toISOString] refuses with a
    [RangeError]. *)
Definition toISOString (t : Z) : Completion Z :=
  if (Z.abs t <=? Date_range)%Z then Normal t else Throw RangeError.

(** [formatProposal(proposal)] *)
Definition formatProposal (this : System.t) (proposal : Proposal.t)
  : Completion Formatted.t :=
  let creator := getAgentName this (Proposal.creator proposal) in
  match toISOString (Proposal.createdAt proposal) with
  | Throw e => Throw e
  | Normal createdAt =>
      match toISOString (Proposal.deadline proposal) with
      | Throw e => Throw e
      | Normal deadline =>
          Normal
            (Formatted.mk
               (Proposal.id proposal) (Proposal.title proposal)
               (Proposal.description proposal) (Proposal.options proposal)
               (Proposal.type proposal) creator
               (Proposal.status proposal) createdAt deadline
               (JMap.size (Proposal.votes proposal))
               (List.length (Proposal.comments proposal))
               (Num.mul (Proposal.requiredConsensus proposal)
                        (Num.of_Z 100)))
      end
  end.

(** [validateVote(proposal, vote)] *)
Definition validateVote (proposal : Proposal.t) (vote : jsval) : Validation :=
  let type := Proposal.type proposal in
  if type =? "single" then
    match vote with
    | JNum n =>
        if Qltb n 0
           || Qle_bool (inject_Z (Z.of_nat (List.length (Proposal.options proposal)))) n
        then Invalid InvalidOptionIndex
        else Valid
    | _ => Valid
    end
  else if type =? "multi" then
    if negb (Array_isArray vote) then Invalid MultiNeedsArray else Valid
  else if type =? "ranked" then
    if negb (Array_isArray vote) then Invalid RankedNeedsArray else Valid
  else if type =? "yesno" then
    if negb (strict_eq_str vote "yes") && negb (strict_eq_str vote "no")
       && negb (strict_eq_bool vote true) && negb (strict_eq_bool vote false)
    then Invalid YesNoNeeded
    else Valid
  else Valid.

(** [agent?.weight || 1.0] *)
Definition weight_of (this : System.t) (agentId : string) : double :=
  match JMap.get agentId (System.agents this) with
  | Some agent => num_or (Agent.weight agent) Num.one
  | None => Num.one
  end.

(** [vote === 'yes' || vote === true || vote === 0] *)
Definition says_yes (vote : jsval) : bool :=
  strict_eq_str vote "yes" || strict_eq_bool vote true || strict_eq_num vote 0.

(** [vote === 'no' || vote === false || vote === 1] *)
Definition says_no (vote : jsval) : bool :=
  strict_eq_str vote "no" || strict_eq_bool vote false || strict_eq_num vote 1.

(** One iteration of the tally loop of [checkConsensus]. *)
Definition tally_step (this : System.t) (proposal : Proposal.t)
    (acc : Acc.t) (entry : string * VoteData.t) : Acc.t :=
  let (agentId, voteData) := entry in
  let weight := weight_of this agentId in
  let vote := VoteData.vote voteData in
  let type := Proposal.type proposal in
  if (type =? "yesno") || (type =? "single") then
    if says_yes vote then
      Acc.mk (S (Acc.yesVotes acc)) (Acc.noVotes acc) (Acc.abstainVotes acc)
             (Num.add (Acc.yesWeight acc) weight) (Acc.noWeight acc)
             (Acc.abstainWeight acc)
    else if says_no vote then
      Acc.mk (Acc.yesVotes acc) (S (Acc.noVotes acc)) (Acc.abstainVotes acc)
             (Acc.yesWeight acc) (Num.add (Acc.noWeight acc) weight)
             (Acc.abstainWeight acc)
    else
      Acc.mk (Acc.yesVotes acc) (Acc.noVotes acc) (S (Acc.abstainVotes acc))
             (Acc.yesWeight acc) (Acc.noWeight acc)
             (Num.add (Acc.abstainWeight acc) weight)
  else if type =? "multi" then
    if Array_isArray vote && includes vote 0 then
      Acc.mk (S (Acc.yesVotes acc)) (Acc.noVotes acc) (Acc.abstainVotes acc)
             (Num.add (Acc.yesWeight acc) weight) (Acc.noWeight acc)
             (Acc.abstainWeight acc)
    else
      Acc.mk (Acc.yesVotes acc) (S (Acc.noVotes acc)) (Acc.abstainVotes acc)
             (Acc.yesWeight acc) (Num.add (Acc.noWeight acc) weight)
             (Acc.abstainWeight acc)
  else acc.

(** [calculateConsensusRatio(proposal)] *)
Definition calculateConsensusRatio (proposal : Proposal.t) : Q :=
  let yesVotes :=
    fold_left
      (fun (yesVotes : nat) (entry : string * VoteData.t) =>
         let vote := VoteData.vote (snd entry) in
         let type := Proposal.type proposal in
         if (type =? "yesno") || (type =? "single") then
           if says_yes vote then S yesVotes else yesVotes
         else yesVotes)
      (Proposal.votes proposal) 0%nat in
  let totalVotes := JMap.size (Proposal.votes proposal) in
  if (0 <? totalVotes)%nat
  then inject_Z (Z.of_nat yesVotes) / inject_Z (Z.of_nat totalVotes)
  else 0.

(** The [status] object [checkConsensus] builds once enough votes are in:
    the tally loop, the ratio and the comparison with the threshold.
    ([totalAgents * 1.0] is the number [totalAgents].) *)
Definition status_object (this : System.t) (p : Proposal.t) : Tallied.t :=
  let totalVotes := JMap.size (Proposal.votes p) in
  let totalAgents := JMap.size (System.agents this) in
  let acc := fold_left (tally_step this p) (Proposal.votes p) Acc.zero in
  let totalWeight :=
    Num.add (Num.add (Acc.yesWeight acc) (Acc.noWeight acc))
            (Acc.abstainWeight acc) in
  let yesRatio :=
    if Num.ltb Num.zero totalWeight
    then Num.div (Acc.yesWeight acc) (Num.of_nat totalAgents)
    else Num.zero in
  Tallied.mk totalVotes totalAgents
    (Acc.yesVotes acc) (Acc.noVotes acc) (Acc.abstainVotes acc)
    (Acc.yesWeight acc) (Acc.noWeight acc) yesRatio
    (Num.leb (Proposal.requiredConsensus p) yesRatio)
    (Num.mul (Proposal.requiredConsensus p) (Num.of_Z 100)).

Section Engine.

(** How JavaScript prints a number (in a template literal, or as a property
    key). *)
Variable Number_toString : Q -> string.

(** [`${n}`] for a counter [n]. *)
Definition print_nat (n : nat) : string :=
  Number_toString (inject_Z (Z.of_nat n)).

(** [String(v)], the property key [v] denotes. *)
Fixpoint ToString (v : jsval) : string :=
  match v with
  | JUndefined => "undefined"
  | JNull => "null"
  | JBool true => "true"
  | JBool false => "false"
  | JNum n => Number_toString (Qred n)
  | JStr s => s
  | JArr elems =>
      (fix join (l : list jsval) : string :=
         match l with
         | [] => ""
         | e :: l' =>
             let piece :=
               match e with
               | JUndefined | JNull => ""
               | _ => ToString e
               end in
             match l' with
             | [] => piece
             | _ :: _ => piece ++ "," ++ join l'
             end
         end) elems
  end.

(** [String(x)] for a weight. *)
Definition print_double (x : double) : string :=
  match x with
  | S754_nan => "NaN"
  | S754_infinity false => "Infinity"
  | S754_infinity true => "-Infinity"
  | S754_zero _ => "0"
  | S754_finite _ _ _ => Number_toString (Qred (Num.value x))
  end.

(** A plain object whose properties hold counts of type [A]; [show]
    prints the number that is added. *)
Section PlainObject.
Variable A : Type.
Variable zero : A.
Variable truthy : A -> bool.
Variable plus : A -> A -> A.
Variable show : A -> string.

(** [o[k] || 0], then [+ x]: what [(o[k] || 0) + x] evaluates to.  A
    function or an object found on [Object.prototype] is truthy, and
    adding a number to it concatenates its text and the number. *)
Definition or_zero_plus (k : string) (x : A) (o : JMap.t (Count A))
  : Count A :=
  match lookup k o with
  | Own (Counted n) => Counted (plus (if truthy n then n else zero) x)
  | Own (Text "") => Counted (plus zero x)
  | Own (Text s) => Text (s ++ show x)
  | Inherited text => Text (text ++ show x)
  | Undefined => Counted (plus zero x)
  end.

(** [o[k] = (o[k] || 0) + x] *)
Definition add_to (k : string) (x : A) (o : JMap.t (Count A))
  : JMap.t (Count A) :=
  assign k (or_zero_plus k x o) o.

(** [o.k++] and [o.k += x], on a property that [o] has and that holds a
    number (the three properties of a [yesno] tally, set to [0] before
    the loop). *)
Definition bump (k : string) (x : A) (o : JMap.t (Count A))
  : JMap.t (Count A) :=
  JMap.update k
    (fun c => match c with
              | Counted n => Counted (plus n x)
              | Text s => Text (s ++ show x)
              end) o.

(** The counters [countVotes] starts from. *)
Definition init_counts (proposal : Proposal.t) : JMap.t (Count A) :=
  if Proposal.type proposal =? "yesno" then
    [("yes", Counted zero); ("no", Counted zero); ("abstain", Counted zero)]
  else if (0 <? List.length (Proposal.options proposal))%nat then
    fold_left (fun o i => assign (print_nat i) (Counted zero) o)
              (seq 0 (List.length (Proposal.options proposal))) JMap.empty
  else JMap.empty.

End PlainObject.

(** The two objects of [countVotes]: [counts] adds [1] to natural
    numbers, [weightedCounts] adds weights. *)
Definition incr (k : string) : JMap.t (Count nat) -> JMap.t (Count nat) :=
  add_to 0%nat (fun n => negb (n =? 0)%nat) Nat.add print_nat k 1%nat.

Definition add_weight (k : string) (w : double)
  : JMap.t (Count double) -> JMap.t (Count double) :=
  add_to Num.zero (fun x => negb (Num.falsy x)) Num.add print_double k w.

Definition bump_count (k : string)
  : JMap.t (Count nat) -> JMap.t (Count nat) :=
  bump Nat.add print_nat k 1%nat.

Definition bump_weight (k : string) (w : double)
  : JMap.t (Count double) -> JMap.t (Count double) :=
  bump Num.add print_double k w.

(** One iteration of the loop of [countVotes]. *)
Definition count_step (this : System.t) (proposal : Proposal.t)
    (results : Results.t) (entry : string * VoteData.t) : Results.t :=
  let (agentId, voteData) := entry in
  let weight := weight_of this agentId in
  let vote := VoteData.vote voteData in
  let breakdownEntry :=
    BreakdownEntry.mk agentId (getAgentName this agentId) vote weight in
  let counts := Results.counts results in
  let weightedCounts := Results.weightedCounts results in
  let type := Proposal.type proposal in
  let (counts', weightedCounts') :=
    if type =? "yesno" then
      if strict_eq_str vote "yes" || strict_eq_bool vote true then
        (bump_count "yes" counts, bump_weight "yes" weight weightedCounts)
      else if strict_eq_str vote "no" || strict_eq_bool vote false then
        (bump_count "no" counts, bump_weight "no" weight weightedCounts)
      else
        (bump_count "abstain" counts,
         bump_weight "abstain" weight weightedCounts)
    else if (type =? "single") || (type =? "multi") then
      let voteIndex := if Array_isArray vote then index0 vote else vote in
      (incr (ToString voteIndex) counts,
       add_weight (ToString voteIndex) weight weightedCounts)
    else (counts, weightedCounts) in
  Results.mk counts' weightedCounts'
             (Results.breakdown results ++ [breakdownEntry]).

(** [countVotes(proposal)] *)
Definition countVotes (this : System.t) (proposal : Proposal.t) : Results.t :=
  fold_left (count_step this proposal) (Proposal.votes proposal)
    (Results.mk (init_counts 0%nat proposal) (init_counts Num.zero proposal)
                []).

(** What the statistics loop of [finalizeDecision] does to one voter. *)
Definition credit (proposal : Proposal.t) (vote : jsval) (agent : Agent.t)
  : Agent.t :=
  let agent := Agent.incr_participated agent in
  let type := Proposal.type proposal in
  if (type =? "yesno") || (type =? "single") then
    if says_yes vote then Agent.incr_agreed agent
    else Agent.incr_disagreed agent
  else agent.

(** [finalizeDecision(proposal)] *)
Definition finalizeDecision (proposal : string) : M Decision.t :=
  this <- this_ ;;
  let decisionId := "decision_" ++ print_nat (System.decisionIdCounter this) in
  modify (fun this =>
    System.set_decisionIdCounter (S (System.decisionIdCounter this)) this) ;;
  p <- deref proposal ;;
  this <- this_ ;;
  let results := countVotes this p in
  decidedAt <- Date_now ;;
  let decision :=
    Decision.mk decisionId (Proposal.id p) (Proposal.title p)
      (Proposal.description p) (Proposal.status p) results
      (JMap.keys (Proposal.votes p)) decidedAt
      (calculateConsensusRatio p) in
  modify (fun this =>
    System.set_decisions
      (JMap.set decisionId decision (System.decisions this)) this) ;;
  modify (fun this =>
    System.set_agents
      (fold_left
         (fun agents (entry : string * VoteData.t) =>
            JMap.update (fst entry)
              (credit p (VoteData.vote (snd entry))) agents)
         (Proposal.votes p) (System.agents this))
      this) ;;
  modify (fun this =>
    System.set_consensusHistory
      (System.consensusHistory this ++ [decision]) this) ;;
  ret decision.

(** [checkConsensus(proposal)] *)
Definition checkConsensus (proposal : string) : M ConsensusStatus :=
  p <- deref proposal ;;
  this <- this_ ;;
  let totalVotes := JMap.size (Proposal.votes p) in
  if (Z.of_nat totalVotes <? Config.minAgents (System.config this))%Z then
    ret (NotReached InsufficientVotes)
  else
    let status := status_object this p in
    (if Tallied.reached status then
       mutate proposal (Proposal.set_status accepted) ;;
       finalizeDecision proposal ;;
       ret tt
     else
       now <- Date_now ;;
       if (Proposal.deadline p <? now)%Z then
         mutate proposal (Proposal.set_status rejected) ;;
         finalizeDecision proposal ;;
         ret tt
       else ret tt) ;;
    ret (Tally status).

(** [createProposal(agentId, title, description, options = [], type = 'single')] *)
Definition createProposal (agentId title description : string)
    (options : option (list string)) (type : option string)
  : M (Result Formatted.t) :=
  this <- this_ ;;
  if negb (JMap.has agentId (System.agents this)) then
    ret (Failure AgentNotFound)
  else
    let proposalId := "prop_" ++ print_nat (System.proposalIdCounter this) in
    modify (fun this =>
      System.set_proposalIdCounter (S (System.proposalIdCounter this)) this) ;;
    createdAt <- Date_now ;;
    now <- Date_now ;;
    let proposal :=
      Proposal.mk proposalId title description (param options [])
        (param type "single") agentId voting createdAt
        (now + Config.voteDeadline (System.config this))%Z
        JMap.empty []
        (Config.consensusThreshold (System.config this)) in
    modify (fun this =>
      System.set_proposals
        (JMap.set proposalId proposal (System.proposals this)) this) ;;
    this <- this_ ;;
    match formatProposal this proposal with
    | Normal formatted => ret (Success formatted)
    | Throw e => ret (Thrown e)
    end.

(** [vote(agentId, proposalId, vote, comment = '')] *)
Definition vote (agentId proposalId : string) (vote : jsval)
    (comment : option string) : M (Result VoteOk.t) :=
  let comment := param comment "" in
  this <- this_ ;;
  if negb (JMap.has agentId (System.agents this)) then
    ret (Failure AgentNotFound)
  else if negb (JMap.has proposalId (System.proposals this)) then
    ret (Failure ProposalNotFound)
  else
    proposal <- deref proposalId ;;
    if negb (Status_eqb (Proposal.status proposal) voting) then
      ret (Failure ProposalNotVoting)
    else
      now <- Date_now ;;
      if (Proposal.deadline proposal <? now)%Z then
        mutate proposalId (Proposal.set_status expired) ;;
        ret (Failure ExpiredProposal)
      else
        match validateVote proposal vote with
        | Invalid error => ret (Failure error)
        | Valid =>
            timestamp <- Date_now ;;
            mutate proposalId
              (Proposal.votes_set agentId
                 (VoteData.mk vote comment timestamp)) ;;
            let voteKey := proposalId ++ "_" ++ agentId in
            timestamp' <- Date_now ;;
            modify (fun this =>
              System.set_votes
                (JMap.set voteKey (VoteData.mk vote comment timestamp')
                   (System.votes this)) this) ;;
            result <- checkConsensus proposalId ;;
            this <- this_ ;;
            proposal <- deref proposalId ;;
            match formatProposal this proposal with
            | Normal formatted => ret (Success (VoteOk.mk formatted result))
            | Throw e => ret (Thrown e)
            end
        end.

(** [addComment(agentId, proposalId, comment)] *)
Definition addComment (agentId proposalId comment : string)
  : M (Result string) :=
  this <- this_ ;;
  if negb (JMap.has agentId (System.agents this)) then
    ret (Failure AgentNotFound)
  else if negb (JMap.has proposalId (System.proposals this)) then
    ret (Failure ProposalNotFound)
  else
    timestamp <- Date_now ;;
    mutate proposalId
      (Proposal.comments_push
         (Comment.mk agentId (getAgentName this agentId) comment timestamp)) ;;
    ret (Success comment).

(** ** [AIConsensusStrategy.getVoteSuggestion] *)

Inductive VoteSuggestion : Type :=
| SuggestionError (error : string)
| ConsensusReached
| Pending (proposal : string) (currentStatus : ConsensusStatus)
          (neededToPass : double) (recommendation : string).

(** [getVoteSuggestion(proposalId)].  The report of insufficient votes has
    no [yesVotes]: [currentYes] is [undefined] then, [needed - currentYes]
    is NaN and [currentYes >= needed] is false. *)
Definition getVoteSuggestion (proposalId : string) : M VoteSuggestion :=
  this <- this_ ;;
  match JMap.get proposalId (System.proposals this) with
  | None => ret (SuggestionError ProposalNotFound)
  | Some proposal =>
      stats <- checkConsensus proposalId ;;
      if reached stats then ret ConsensusReached
      else
        let needed :=
          Num.ceil (Num.mul (Num.of_Z (Config.minAgents (System.config this)))
                            (Proposal.requiredConsensus proposal)) in
        match stats with
        | NotReached _ =>
            ret (Pending (Proposal.title proposal) stats S754_nan "继续争取")
        | Tally s =>
            let currentYes := Num.of_nat (Tallied.yesVotes s) in
            ret (Pending (Proposal.title proposal) stats
                   (Num.sub needed currentYes)
                   (if Num.leb needed currentYes then "接受" else "继续争取"))
        end
  end.

End Engine.

(** ** A printer for the concrete runs

    JavaScript prints an integer-valued number in decimal; the runs below
    print nothing else (counters and option indices). *)
Definition print_integer (q : Q) : string :=
  NilZero.string_of_int (Z.to_int (Qfloor q)).

(** Running a method in a world. *)
Definition run {A : Type} (m : M A) (w : World) : option World :=
  match m w with
  | Some (_, w') => Some w'
  | None => None
  end.

(** ** Definitions used to state the properties *)

Definition known_type (type : string) : bool :=
  (type =? "single") || (type =? "multi") || (type =? "ranked")
  || (type =? "yesno").

Definition approval_proposal : Proposal.t :=
  Proposal.mk "prop_1" "t" "d" [] "approval" "a" voting 0 300000
              JMap.empty [] (Num.decimal 6 1).

(** A time value that [toISOString] prints. *)
Definition Date_valid (t : Z) : bool := (Z.abs t <=? Date_range)%Z.

(** A proposal whose two dates print. *)
Definition printable (p : Proposal.t) : bool :=
  Date_valid (Proposal.createdAt p) && Date_valid (Proposal.deadline p).

(** The object [formatProposal] returns for a proposal whose dates
    print. *)
Definition formatted (this : System.t) (p : Proposal.t) : Formatted.t :=
  Formatted.mk
    (Proposal.id p) (Proposal.title p) (Proposal.description p)
    (Proposal.options p) (Proposal.type p)
    (getAgentName this (Proposal.creator p))
    (Proposal.status p) (Proposal.createdAt p) (Proposal.deadline p)
    (JMap.size (Proposal.votes p)) (List.length (Proposal.comments p))
    (Num.mul (Proposal.requiredConsensus p) (Num.of_Z 100)).

(** The numeric votes a [single] proposal has no option for. *)
Definition out_of_range (proposal : Proposal.t) (n : Q) : Prop :=
  n < 0 \/ inject_Z (Z.of_nat (List.length (Proposal.options proposal))) <= n.


(** The three outcomes a vote is tallied under (section 4.3). *)
Inductive Bucket : Type := Yes | No | Abstain.

Definition Bucket_eqb (a b : Bucket) : bool :=
  match a, b with
  | Yes, Yes | No, No | Abstain, Abstain => true
  | _, _ => false
  end.

(** "equals ["yes"], boolean [true], or numeric [0]" *)
Definition equals_yes (v : jsval) : Prop :=
  v = JStr "yes" \/ v = JBool true \/ exists n, v = JNum n /\ n == 0.

(** "equals ["no"], boolean [false], or numeric [1]" *)
Definition equals_no (v : jsval) : Prop :=
  v = JStr "no" \/ v = JBool false \/ exists n, v = JNum n /\ n == 1.

(** "its sequence contains index [0]" *)
Definition contains_index_0 (v : jsval) : Prop :=
  exists l, v = JArr l /\ exists n, In (JNum n) l /\ n == 0.

(** The bucketing rule in the words of the specification. *)
Definition falls_in (type : string) (v : jsval) (b : Bucket) : Prop :=
  if (type =? "yesno") || (type =? "single") then
    match b with
    | Yes => equals_yes v
    | No => equals_no v
    | Abstain => ~ equals_yes v /\ ~ equals_no v
    end
  else if type =? "multi" then
    match b with
    | Yes => contains_index_0 v
    | No => ~ contains_index_0 v
    | Abstain => False
    end
  else False.

(** The same rule as a function, by cases on the shape of the vote. *)
Definition bucket_of (type : string) (v : jsval) : option Bucket :=
  if (type =? "yesno") || (type =? "single") then
    match v with
    | JStr s =>
        if s =? "yes" then Some Yes
        else if s =? "no" then Some No else Some Abstain
    | JBool true => Some Yes
    | JBool false => Some No
    | JNum n =>
        if Qeq_bool n 0 then Some Yes
        else if Qeq_bool n 1 then Some No else Some Abstain
    | _ => Some Abstain
    end
  else if type =? "multi" then
    match v with
    | JArr l =>
        if existsb (fun e => match e with
                             | JNum n => Qeq_bool n 0
                             | _ => false
                             end) l
        then Some Yes else Some No
    | _ => Some No
    end
  else None.

(** The voters of a votes map whose vote falls in bucket [b], in the order
    they voted. *)
Definition voters_in (type : string) (b : Bucket)
    (votes : JMap.t VoteData.t) : list string :=
  map fst
    (filter (fun e : string * VoteData.t =>
               match bucket_of type (VoteData.vote (snd e)) with
               | Some b' => Bucket_eqb b' b
               | None => false
               end)
            votes).

(** "Weight of a vote = the voting agent's registered weight, or [1.0] if
    the agent cannot be found." *)
Definition vote_weight (this : System.t) (agentId : string) : double :=
  match JMap.get agentId (System.agents this) with
  | Some agent => Agent.weight agent
  | None => Num.one
  end.

(** The weights of a list of voters added to [sum] one by one, in the
    order of the list. *)
Definition add_weights (this : System.t) (ids : list string) (sum : double)
  : double :=
  fold_left (fun sum id => Num.add sum (vote_weight this id)) ids sum.

(** The sum of the weights of a list of voters, added up from [0] in the
    order of the list. *)
Definition weight_sum (this : System.t) (ids : list string) : double :=
  add_weights this ids Num.zero.

(** The data model asks for positive weights.  The tallies take every
    registered weight as it is, except a weight that counts as false:
    zero (and NaN). *)
Definition nonzero_weights (this : System.t) : Prop :=
  forall id agent,
    JMap.get id (System.agents this) = Some agent ->
    Num.falsy (Agent.weight agent) = false.

(** Every registered weight is a positive number of the format. *)
Definition positive_weights (this : System.t) : Prop :=
  forall id agent,
    JMap.get id (System.agents this) = Some agent ->
    Num.valid (Agent.weight agent) = true /\
    Num.ltb Num.zero (Agent.weight agent) = true.

(** The positive numbers: [+Infinity], and the positive finite numbers
    whose exponent is not below the least exponent of the format. *)
Definition above_zero (x : double) : bool :=
  match x with
  | S754_infinity false => true
  | S754_finite false _ e => (emin Num.prec Num.emax <=? e)%Z
  | _ => false
  end.

(** A number is zero, or positive. *)
Definition zero_or_above (x : double) : Prop :=
  x = Num.zero \/ above_zero x = true.

(** In the rounding of the format: the mantissa of a shift record is
    positive and has more than [k] binary digits. *)
Definition wide (k : nat) (mrs : shr_record) : Prop :=
  exists q, shr_m mrs = Zpos q /\ (k < Pos.to_nat (digits2_pos q))%nat.

(** Adding one vote of weight [w] to the loop variables, under a bucket. *)
Definition Acc_add (b : option Bucket) (w : double) (acc : Acc.t) : Acc.t :=
  match b with
  | Some Yes =>
      Acc.mk (S (Acc.yesVotes acc)) (Acc.noVotes acc) (Acc.abstainVotes acc)
             (Num.add (Acc.yesWeight acc) w) (Acc.noWeight acc) (Acc.abstainWeight acc)
  | Some No =>
      Acc.mk (Acc.yesVotes acc) (S (Acc.noVotes acc)) (Acc.abstainVotes acc)
             (Acc.yesWeight acc) (Num.add (Acc.noWeight acc) w) (Acc.abstainWeight acc)
  | Some Abstain =>
      Acc.mk (Acc.yesVotes acc) (Acc.noVotes acc) (S (Acc.abstainVotes acc))
             (Acc.yesWeight acc) (Acc.noWeight acc) (Num.add (Acc.abstainWeight acc) w)
  | None => acc
  end.

(** The number a property holds, [zero] when there is no such property. *)
Definition held (A : Type) (zero : A) (c : option (Count A)) : A :=
  match c with
  | Some (Counted n) => n
  | _ => zero
  end.

Section Breakdown.
Variable Number_toString : Q -> string.

(** The property key under which the loop of [countVotes] files a vote:
    [yes], [no] or [abstain] on a [yesno] proposal; on a [single] or
    [multi] proposal the key that [voteIndex] denotes, which is the vote
    itself or, for an array, its first element [vote[0]]; none on any
    other proposal. *)
Definition filed_under (type : string) (v : jsval) : option string :=
  if type =? "yesno" then
    match v with
    | JStr s =>
        if s =? "yes" then Some "yes"
        else if s =? "no" then Some "no" else Some "abstain"
    | JBool true => Some "yes"
    | JBool false => Some "no"
    | _ => Some "abstain"
    end
  else if (type =? "single") || (type =? "multi") then
    match v with
    | JArr [] => Some (ToString Number_toString JUndefined)
    | JArr (first :: _) => Some (ToString Number_toString first)
    | _ => Some (ToString Number_toString v)
    end
  else None.

(** The voters whose vote is filed under the key [k], in the order they
    voted. *)
Definition voters_under (type : string) (k : string)
    (votes : JMap.t VoteData.t) : list string :=
  map fst
    (filter (fun e : string * VoteData.t =>
               match filed_under type (VoteData.vote (snd e)) with
               | Some k' => k' =? k
               | None => false
               end)
            votes).

End Breakdown.

(** ** The states the system can reach *)

(** A call of a method that can change the system.  [Call_checkConsensus]
    and [Call_finalizeDecision] pass the stored proposal of the given id.
    The remaining methods ([listProposals], [getDecisionHistory],
    [getLeaderboard], [getConsensusStats], [getSummary] and the rest of the
    advisory layer) only read. *)
Inductive Call : Type :=
| Call_registerAgent (agentId agentName : string) (role : option string)
                     (weight : option double)
| Call_createProposal (agentId title description : string)
                      (options : option (list string)) (type : option string)
| Call_vote (agentId proposalId : string) (vote : jsval)
            (comment : option string)
| Call_addComment (agentId proposalId comment : string)
| Call_checkConsensus (proposalId : string)
| Call_finalizeDecision (proposalId : string)
| Call_getVoteSuggestion (proposalId : string).

(** The calls that submit a vote, a comment or a registration. *)
Definition gentle_call (c : Call) : bool :=
  match c with
  | Call_registerAgent _ _ _ _ | Call_vote _ _ _ _ | Call_addComment _ _ _ =>
      true
  | _ => false
  end.

Section Reach.
Variable Number_toString : Q -> string.

Definition perform (c : Call) : M unit :=
  match c with
  | Call_registerAgent agentId agentName role weight =>
      registerAgent agentId agentName role weight ;; ret tt
  | Call_createProposal agentId title description options type =>
      createProposal Number_toString agentId title description options type ;;
      ret tt
  | Call_vote agentId proposalId v comment =>
      vote Number_toString agentId proposalId v comment ;; ret tt
  | Call_addComment agentId proposalId comment =>
      addComment agentId proposalId comment ;; ret tt
  | Call_checkConsensus proposalId =>
      checkConsensus Number_toString proposalId ;; ret tt
  | Call_finalizeDecision proposalId =>
      finalizeDecision Number_toString proposalId ;; ret tt
  | Call_getVoteSuggestion proposalId =>
      getVoteSuggestion Number_toString proposalId ;; ret tt
  end.

(** A world is reachable when calls lead to it from a newly constructed
    system, whatever the configuration and whatever the clock shows. *)
Inductive reachable : World -> Prop :=
| reachable_new (config : Config.arg) (clock : nat -> Z) :
    reachable (mkWorld (constructor config) clock 0)
| reachable_call (w w' : World) (c : Call) :
    reachable w -> perform c w = Some (tt, w') -> reachable w'.

End Reach.

(** Every proposal holds at most one vote per agent, and only votes of
    registered agents. *)
Definition ballots_ok (this : System.t) : Prop :=
  NoDup (JMap.keys (System.agents this)) /\
  forall proposalId p,
    JMap.get proposalId (System.proposals this) = Some p ->
    NoDup (JMap.keys (Proposal.votes p)) /\
    incl (JMap.keys (Proposal.votes p)) (JMap.keys (System.agents this)).

(** A change of the system that keeps the set of agents and the votes of
    every proposal. *)
Definition ballots_kept (s s' : System.t) : Prop :=
  JMap.keys (System.agents s') = JMap.keys (System.agents s) /\
  forall proposalId p',
    JMap.get proposalId (System.proposals s') = Some p' ->
    exists p,
      JMap.get proposalId (System.proposals s) = Some p /\
      Proposal.votes p' = Proposal.votes p.

(** ** Concrete runs *)

(** The world a sequence of calls leads to. *)
Definition after (Number_toString : Q -> string) (calls : list Call)
    (w : World) : option World :=
  fold_left
    (fun ow c =>
       match ow with
       | Some w => run (perform Number_toString c) w
       | None => None
       end)
    calls (Some w).

Definition new_world (clock : nat -> Z) : World :=
  mkWorld (constructor Config.no_arg) clock 0.

(** The session of the README: three agents, a [single] proposal with
    three options, three votes. *)
Definition readme_calls : list Call :=
  [ Call_registerAgent "alpha" "Alpha" (Some "member") (Some Num.one);
    Call_registerAgent "beta" "Beta" (Some "member")
      (Some (Num.decimal 15 1));
    Call_registerAgent "gamma" "Gamma" (Some "observer") (Some Num.one);
    Call_createProposal "alpha" "Which API?" "pick one"
      (Some ["OpenAI API"; "Anthropic API"; "local model"]) (Some "single");
    Call_vote "alpha" "prop_1" (JNum 0) (Some "first");
    Call_vote "beta" "prop_1" (JNum 1) (Some "second");
    Call_vote "gamma" "prop_1" (JNum 0) None ].

(** Two agents accept a [yesno] proposal; later two more agents register,
    the deadline passes, and a vote suggestion is asked for. *)
Definition late_clock (n : nat) : Z :=
  if (n <? 13)%nat then 1000 else 400000.

Definition accept_calls : list Call :=
  [ Call_registerAgent "a" "A" None None;
    Call_registerAgent "b" "B" None None;
    Call_createProposal "a" "t" "d" None (Some "yesno");
    Call_vote "a" "prop_1" (JStr "yes") None;
    Call_vote "b" "prop_1" (JStr "yes") None ].

Definition dilute_calls : list Call :=
  [ Call_registerAgent "c" "C" None None;
    Call_registerAgent "d" "D" None None;
    Call_getVoteSuggestion "prop_1" ].

(** Three agents vote on a [single] proposal by label; two of the labels
    are names that every plain object inherits. *)
Definition label_calls : list Call :=
  [ Call_registerAgent "a" "A" None None;
    Call_registerAgent "b" "B" None (Some (Num.of_Z 2));
    Call_registerAgent "c" "C" None None;
    Call_createProposal "a" "t" "d" (Some ["x"; "y"; "z"]) (Some "single");
    Call_vote "a" "prop_1" (JStr "toString") None;
    Call_vote "b" "prop_1" (JStr "__proto__") None;
    Call_vote "c" "prop_1" (JStr "toString") None ].

(** What a run leaves behind, for one proposal and one agent. *)
Definition status_in (ow : option World) (proposalId : string)
  : option Status :=
  match ow with
  | Some w =>
      option_map Proposal.status
        (JMap.get proposalId (System.proposals (system w)))
  | None => None
  end.

Definition decisions_on (ow : option World) (proposalId : string)
  : option (nat * nat) :=
  match ow with
  | Some w =>
      let about (d : Decision.t) := Decision.proposalId d =? proposalId in
      Some (List.length
              (filter about (JMap.values (System.decisions (system w)))),
            List.length
              (filter about (System.consensusHistory (system w))))
  | None => None
  end.

(** What [countVotes] reports on a proposal after a run, under one key. *)
Definition reported_in (ow : option World) (proposalId k : string)
  : option (option (Count nat) * option (Count double)) :=
  match ow with
  | Some w =>
      option_map
        (fun p =>
           let results := countVotes print_integer (system w) p in
           (JMap.get k (Results.counts results),
            JMap.get k (Results.weightedCounts results)))
        (JMap.get proposalId (System.proposals (system w)))
  | None => None
  end.

(** The votes a run leaves on a proposal, and whether the validator
    passes each. *)
Definition votes_in (ow : option World) (proposalId : string)
  : option (list (string * jsval * Validation)) :=
  match ow with
  | Some w =>
      option_map
        (fun p =>
           map (fun e : string * VoteData.t =>
                  (fst e, VoteData.vote (snd e),
                   validateVote p (VoteData.vote (snd e))))
               (Proposal.votes p))
        (JMap.get proposalId (System.proposals (system w)))
  | None => None
  end.

Definition counters_of (ow : option World) (agentId : string)
  : option (nat * nat * nat) :=
  match ow with
  | Some w =>
      option_map
        (fun a => (Agent.participatedDecisions a, Agent.agreedDecisions a,
                   Agent.disagreedDecisions a))
        (JMap.get agentId (System.agents (system w)))
  | None => None
  end.

(** A small system: three agents of weights 1, 1.5 and 1, and one stored
    proposal. *)
Definition agents_abc : JMap.t Agent.t :=
  [ ("a", Agent.mk "a" "A" "member" Num.one 100 0 0 0 1000);
    ("b", Agent.mk "b" "B" "member" (Num.decimal 15 1) 100 0 0 0 1000);
    ("c", Agent.mk "c" "C" "member" Num.one 100 0 0 0 1000) ].

Definition world_abc (p : Proposal.t) : World :=
  mkWorld
    (System.set_proposals [("prop_1", p)]
       (System.set_agents agents_abc (constructor Config.no_arg)))
    (fun _ => 2000%Z) 0.

Definition yesno_two_yes : Proposal.t :=
  Proposal.mk "prop_1" "t" "d" [] "yesno" "a" voting 1000 301000
    [ ("a", VoteData.mk (JStr "yes") "" 1500);
      ("b", VoteData.mk (JBool true) "" 1600) ]
    [] (Num.decimal 6 1).

Definition single_three_votes : Proposal.t :=
  Proposal.mk "prop_1" "t" "d" ["x"; "y"; "z"] "single" "a" voting 1000 301000
    [ ("a", VoteData.mk (JNum 0) "" 1500);
      ("b", VoteData.mk (JNum 1) "" 1600);
      ("c", VoteData.mk (JNum 0) "" 1700) ]
    [] (Num.decimal 6 1).

(** The world the README session ends in. *)
Definition readme_world : World :=
  Eval vm_compute in
    match after print_integer readme_calls (new_world (fun _ => 1000%Z)) with
    | Some w => w
    | None => new_world (fun _ => 1000%Z)
    end.

(** ** The reporting methods *)

(** The string a status is in the source. *)
Definition Status_text (s : Status) : string :=
  match s with
  | voting => "voting"
  | accepted => "accepted"
  | rejected => "rejected"
  | expired => "expired"
  end.

(** [!status || proposal.status === status] *)
Definition status_matches (status : option string) (proposal : Proposal.t)
  : bool :=
  match status with
  | None => true
  | Some s => (s =? "") || (Status_text (Proposal.status proposal) =? s)
  end.

(** The loop of [listProposals] over the entries that are left, with the
    array [proposals] built so far. *)
Fixpoint listProposals_loop (this : System.t) (status : option string)
    (entries : list (string * Proposal.t)) (proposals : list Formatted.t)
  : Completion (list Formatted.t) :=
  match entries with
  | [] => Normal proposals
  | (_, proposal) :: entries' =>
      if status_matches status proposal then
        match formatProposal this proposal with
        | Normal f =>
            listProposals_loop this status entries' (proposals ++ [f])
        | Throw e => Throw e
        end
      else listProposals_loop this status entries' proposals
  end.

(** [listProposals(status = null)] *)
Definition listProposals (this : System.t) (status : option string)
  : Completion (list Formatted.t) :=
  listProposals_loop this status (System.proposals this) [].

(** The stored proposals that [listProposals(status)] is to show, in the
    order they were stored. *)
Definition matching (this : System.t) (status : option string)
  : list Proposal.t :=
  filter (status_matches status) (JMap.values (System.proposals this)).

(** [a.slice(start)] for an integer [start]: a negative [start] counts
    from the end. *)
Definition slice_from (A : Type) (start : Z) (a : list A) : list A :=
  let len := Z.of_nat (List.length a) in
  let k := if (start <? 0)%Z then Z.max (len + start) 0
           else Z.min start len in
  skipn (Z.to_nat k) a.

(** [getDecisionHistory(limit = 10)] *)
Definition getDecisionHistory (this : System.t) (limit : option Z)
  : list Decision.t :=
  rev (slice_from (- param limit 10%Z) (System.consensusHistory this)).

(** The value [getConsensusStats] returns; [acceptanceRate] is the
    percentage before it is printed. *)
Module Stats.
Record t : Type := mk {
  totalProposals : nat;
  accepted : nat;
  rejected : nat;
  voting : nat;
  acceptanceRate : Q;
  totalAgents : nat;
  totalDecisions : nat
}.
End Stats.

(** [Array.from(this.proposals.values()).filter(p => p.status === s).length] *)
Definition count_status (this : System.t) (s : Status) : nat :=
  List.length
    (filter (fun p => Status_eqb (Proposal.status p) s)
            (JMap.values (System.proposals this))).

(** [getConsensusStats()] *)
Definition getConsensusStats (this : System.t) : Stats.t :=
  let totalProposals := JMap.size (System.proposals this) in
  let accepted := count_status this accepted in
  let rejected := count_status this rejected in
  let voting := count_status this voting in
  Stats.mk totalProposals accepted rejected voting
    (if (0 <? totalProposals)%nat
     then inject_Z (Z.of_nat accepted) / inject_Z (Z.of_nat totalProposals)
          * 100
     else 0)
    (JMap.size (System.agents this))
    (JMap.size (System.decisions this)).

(** The value [getSummary] returns. *)
Module Summary.
Record t : Type := mk {
  name : string;
  stats : Stats.t;
  recentDecisions : list Decision.t
}.
End Summary.

(** [getSummary()] *)
Definition getSummary (this : System.t) : Summary.t :=
  Summary.mk (System.name this) (getConsensusStats this)
             (getDecisionHistory this (Some 3%Z)).

(** [a.sort(compare)]: the stable sort; [compare x y > 0] puts [x] after
    [y]. *)
Fixpoint sort_insert (A : Type) (compare : A -> A -> Q) (x : A)
    (sorted : list A) : list A :=
  match sorted with
  | [] => [x]
  | y :: rest =>
      if Qltb 0 (compare x y) then y :: sort_insert compare x rest
      else x :: y :: rest
  end.

Definition Array_sort (A : Type) (compare : A -> A -> Q) (a : list A)
  : list A :=
  fold_right (sort_insert compare) [] a.

(** [a.participatedDecisions > 0 ? a.agreedDecisions / a.participatedDecisions : 0] *)
Definition agreement_ratio (a : Agent.t) : Q :=
  if (0 <? Agent.participatedDecisions a)%nat
  then inject_Z (Z.of_nat (Agent.agreedDecisions a))
       / inject_Z (Z.of_nat (Agent.participatedDecisions a))
  else 0.

(** The comparison function [getLeaderboard] sorts with, if any. *)
Definition leaderboard_compare (sortBy : string)
  : option (Agent.t -> Agent.t -> Q) :=
  if sortBy =? "reputation" then
    Some (fun a b => inject_Z (Agent.reputation b - Agent.reputation a))
  else if sortBy =? "participation" then
    Some (fun a b =>
            inject_Z (Z.of_nat (Agent.participatedDecisions b)
                      - Z.of_nat (Agent.participatedDecisions a)))
  else if sortBy =? "agreement" then
    Some (fun a b => agreement_ratio b - agreement_ratio a)
  else None.

(** An entry of the leaderboard: the rank, the fields of the agent, and
    the agreement rate as a percentage ([None] for ['N/A']). *)
Module Ranked.
Record t : Type := mk {
  rank : nat;
  agent : Agent.t;
  agreementRate : option Q
}.
End Ranked.

(** [agents.map((agent, index) => ...)] from index [index]. *)
Fixpoint rank_from (index : nat) (agents : list Agent.t) : list Ranked.t :=
  match agents with
  | [] => []
  | agent :: rest =>
      Ranked.mk (index + 1) agent
        (if (0 <? Agent.participatedDecisions agent)%nat
         then Some (inject_Z (Z.of_nat (Agent.agreedDecisions agent))
                    / inject_Z (Z.of_nat (Agent.participatedDecisions agent))
                    * 100)
         else None)
      :: rank_from (S index) rest
  end.

(** [getLeaderboard(sortBy = 'reputation')] *)
Definition getLeaderboard (this : System.t) (sortBy : option string)
  : list Ranked.t :=
  let agents := JMap.values (System.agents this) in
  let agents :=
    match leaderboard_compare (param sortBy "reputation") with
    | Some compare => Array_sort compare agents
    | None => agents
    end in
  rank_from 0 agents.

(** ** The rest of [AIConsensusStrategy] *)

Inductive ProposalSuggestion : Type :=
| SuggestCreate
| SuggestVote (count : nat) (proposals : list Formatted.t)
              (urgentProposal : option Formatted.t).

(** [getProposalSuggestion()]; a printed deadline is kept as its time
    value, which is what [new Date(a.deadline).getTime()] reads back from
    it, so the sort compares the deadlines as they are. *)
Definition getProposalSuggestion (this : System.t)
  : Completion ProposalSuggestion :=
  match listProposals this (Some "voting") with
  | Throw e => Throw e
  | Normal votingProposals =>
      if (List.length votingProposals =? 0)%nat then Normal SuggestCreate
      else
        let sortedByDeadline :=
          Array_sort
            (fun a b =>
               inject_Z (Formatted.deadline a - Formatted.deadline b))
            votingProposals in
        Normal (SuggestVote (List.length votingProposals) sortedByDeadline
                            (hd_error sortedByDeadline))
  end.

Inductive NextAction : Type :=
| ActionCreate
| ActionVote (proposalId title description : string) (deadline : Z).

(** [getNextAction()]; reading a field of an [undefined] urgent proposal
    would be a [TypeError]. *)
Definition getNextAction (this : System.t) : Completion NextAction :=
  match getProposalSuggestion this with
  | Throw e => Throw e
  | Normal SuggestCreate => Normal ActionCreate
  | Normal (SuggestVote _ _ (Some urgent)) =>
      Normal (ActionVote (Formatted.id urgent) (Formatted.title urgent)
                         (Formatted.description urgent)
                         (Formatted.deadline urgent))
  | Normal (SuggestVote _ _ None) => Throw TypeError
  end.


Module Analysis.
Record t : Type := mk {
  agent : string;
  style : string;
  description : string;
  participated : nat;
  agreed : nat;
  disagreed : nat;
  reputation : Z;
  recommendations : list string
}.
End Analysis.


(** The proposal types whose votes [checkConsensus] tallies. *)
Definition tallied_type (type : string) : bool :=
  (type =? "yesno") || (type =? "single") || (type =? "multi").


Definition ranked_two_votes : Proposal.t :=
  Proposal.mk "prop_1" "t" "d" ["x"; "y"] "ranked" "a" voting 1000 301000
    [ ("a", VoteData.mk (JArr [JNum 0; JNum 1]) "" 1500);
      ("b", VoteData.mk (JArr [JNum 1; JNum 0]) "" 1600) ]
    [] (Num.decimal 6 1).

(** ** The elementary changes a call is made of *)

Section Changes.
Variable Number_toString : Q -> string.

(** The decision [finalizeDecision] builds for the stored proposal [p] when
    the clock shows [decidedAt]. *)
Definition decision_for (this : System.t) (p : Proposal.t) (decidedAt : Z)
  : Decision.t :=
  Decision.mk
    ("decision_" ++ print_nat Number_toString (System.decisionIdCounter this))
    (Proposal.id p) (Proposal.title p) (Proposal.description p)
    (Proposal.status p) (countVotes Number_toString this p)
    (JMap.keys (Proposal.votes p)) decidedAt (calculateConsensusRatio p).

(** The system [finalizeDecision] leaves behind. *)
Definition finalized (this : System.t) (p : Proposal.t) (decidedAt : Z)
  : System.t :=
  let d := decision_for this p decidedAt in
  System.set_consensusHistory (System.consensusHistory this ++ [d])
    (System.set_agents
       (fold_left
          (fun agents (entry : string * VoteData.t) =>
             JMap.update (fst entry)
               (credit p (VoteData.vote (snd entry))) agents)
          (Proposal.votes p) (System.agents this))
       (System.set_decisions
          (JMap.set (Decision.id d) d (System.decisions this))
          (System.set_decisionIdCounter
             (S (System.decisionIdCounter this)) this))).

(** One elementary change of the system. *)
Inductive change : System.t -> System.t -> Prop :=
| change_register (s : System.t) (agentId : string) (agent : Agent.t) :
    Agent.id agent = agentId ->
    Agent.reputation agent = 100%Z ->
    Agent.participatedDecisions agent = 0%nat ->
    Agent.agreedDecisions agent = 0%nat ->
    Agent.disagreedDecisions agent = 0%nat ->
    change s
      (System.set_agents (JMap.set agentId agent (System.agents s)) s)
| change_create (s : System.t) (p : Proposal.t) :
    JMap.has (Proposal.creator p) (System.agents s) = true ->
    Proposal.id p
      = "prop_" ++ print_nat Number_toString (System.proposalIdCounter s) ->
    Proposal.status p = voting ->
    Proposal.votes p = JMap.empty ->
    Proposal.requiredConsensus p
      = Config.consensusThreshold (System.config s) ->
    change s
      (System.set_proposals
         (JMap.set (Proposal.id p) p (System.proposals s))
         (System.set_proposalIdCounter (S (System.proposalIdCounter s)) s))
| change_status (s : System.t) (proposalId : string) (p : Proposal.t)
    (st : Status) :
    JMap.get proposalId (System.proposals s) = Some p ->
    change s
      (System.set_proposals
         (JMap.update proposalId (Proposal.set_status st)
            (System.proposals s)) s)
| change_vote (s : System.t) (agentId proposalId : string)
    (p : Proposal.t) (vd : VoteData.t) :
    JMap.has agentId (System.agents s) = true ->
    JMap.get proposalId (System.proposals s) = Some p ->
    Proposal.status p = voting ->
    validateVote p (VoteData.vote vd) = Valid ->
    change s
      (System.set_proposals
         (JMap.update proposalId (Proposal.votes_set agentId vd)
            (System.proposals s)) s)
| change_record (s : System.t) (voteKey : string) (vd : VoteData.t) :
    change s
      (System.set_votes (JMap.set voteKey vd (System.votes s)) s)
| change_comment (s : System.t) (proposalId : string) (p : Proposal.t)
    (c : Comment.t) :
    JMap.get proposalId (System.proposals s) = Some p ->
    change s
      (System.set_proposals
         (JMap.update proposalId (Proposal.comments_push c)
            (System.proposals s)) s)
| change_finalize (s : System.t) (proposalId : string) (p : Proposal.t)
    (decidedAt : Z) :
    JMap.get proposalId (System.proposals s) = Some p ->
    change s (finalized s p decidedAt).

(** A sequence of elementary changes. *)
Inductive changes : System.t -> System.t -> Prop :=
| changes_none (s : System.t) : changes s s
| changes_more (s1 s2 s3 : System.t) :
    changes s1 s2 -> change s2 s3 -> changes s1 s3.

End Changes.

(** The world the two accepting votes lead to. *)
Definition accept_world : World :=
  Eval vm_compute in
    match after print_integer accept_calls (new_world late_clock) with
    | Some w => w
    | None => new_world late_clock
    end.

(** ** Deciding through votes *)

(** The calls of the core that do not evaluate or finalize a proposal
    directly: registrations, new proposals, votes and comments. *)
Definition core_call (c : Call) : bool :=
  match c with
  | Call_checkConsensus _ | Call_finalizeDecision _
  | Call_getVoteSuggestion _ => false
  | _ => true
  end.

(** The worlds these calls lead to from a new system. *)
Inductive reachable_by_votes (Number_toString : Q -> string)
  : World -> Prop :=
| by_votes_new (config : Config.arg) (clock : nat -> Z) :
    reachable_by_votes Number_toString
      (mkWorld (constructor config) clock 0)
| by_votes_call (w w' : World) (c : Call) :
    reachable_by_votes Number_toString w ->
    core_call c = true ->
    perform Number_toString c w = Some (tt, w') ->
    reachable_by_votes Number_toString w'.

(** [accepted] and [rejected] are the statuses a decision is made with. *)
Definition decided (st : Status) : bool :=
  match st with
  | accepted | rejected => true
  | voting | expired => false
  end.

(** The number of decisions of a history that are about a proposal. *)
Definition decisions_about (proposalId : string) (history : list Decision.t)
  : nat :=
  List.length
    (filter (fun d => Decision.proposalId d =? proposalId) history).

(** Proposals are stored under their own id, the ids come from the
    counter, every decision is about a stored proposal, and a proposal has
    one decision when it is decided and none before. *)
Definition decided_once (Number_toString : Q -> string) (s : System.t)
  : Prop :=
  (forall proposalId p,
     JMap.get proposalId (System.proposals s) = Some p ->
     Proposal.id p = proposalId /\
     exists k, (k < System.proposalIdCounter s)%nat /\
               proposalId = "prop_" ++ print_nat Number_toString k) /\
  (forall d, In d (System.consensusHistory s) ->
     JMap.has (Decision.proposalId d) (System.proposals s) = true) /\
  (forall proposalId p,
     JMap.get proposalId (System.proposals s) = Some p ->
     decisions_about proposalId (System.consensusHistory s)
     = if decided (Proposal.status p) then 1%nat else 0%nat).
(** * Properties *)

(** ** Facts about [JMap] *)

Module JMapFacts.
Section Facts.
Variable V : Type.
Implicit Types (m : JMap.t V) (k : string) (v : V).

Lemma get_set_same k v m : JMap.get k (JMap.set k v m) = Some v.
Proof.
  induction m as [|[k' v'] m IH]; simpl.
  - now rewrite String.eqb_refl.
  - destruct (String.eqb k' k) eqn:E; simpl; rewrite E; auto.
Qed.

Lemma get_set_other k k' v m :
  k <> k' -> JMap.get k' (JMap.set k v m) = JMap.get k' m.
Proof.
  intros Hne. induction m as [|[k0 v0] m IH]; simpl.
  - apply String.eqb_neq in Hne. now rewrite Hne.
  - destruct (String.eqb k0 k) eqn:E; simpl.
    + apply String.eqb_eq in E. subst k0.
      apply String.eqb_neq in Hne. now rewrite Hne.
    + destruct (String.eqb k0 k'); auto.
Qed.

Lemma get_update_same k (f : V -> V) m :
  JMap.get k (JMap.update k f m) = option_map f (JMap.get k m).
Proof.
  induction m as [|[k' v'] m IH]; simpl; auto.
  destruct (String.eqb k' k) eqn:E; simpl; rewrite E; auto.
Qed.

Lemma get_update_other k k' (f : V -> V) m :
  k <> k' -> JMap.get k' (JMap.update k f m) = JMap.get k' m.
Proof.
  intros Hne. induction m as [|[k0 v0] m IH]; simpl; auto.
  destruct (String.eqb k0 k) eqn:E; simpl.
  - apply String.eqb_eq in E. subst k0.
    apply String.eqb_neq in Hne. now rewrite Hne.
  - destruct (String.eqb k0 k'); auto.
Qed.

Lemma keys_update k (f : V -> V) m :
  JMap.keys (JMap.update k f m) = JMap.keys m.
Proof.
  induction m as [|[k' v'] m IH]; simpl; auto.
  destruct (String.eqb k' k); simpl; unfold JMap.keys in *; congruence.
Qed.

Lemma get_Some_In k m v : JMap.get k m = Some v -> In k (JMap.keys m).
Proof.
  induction m as [|[k' v'] m IH]; simpl; [discriminate|].
  destruct (String.eqb k' k) eqn:E.
  - apply String.eqb_eq in E. auto.
  - auto.
Qed.

Lemma In_get_Some k m : In k (JMap.keys m) -> exists v, JMap.get k m = Some v.
Proof.
  induction m as [|[k' v'] m IH]; simpl; [tauto|].
  intros [->|H].
  - rewrite String.eqb_refl. eauto.
  - destruct (String.eqb k' k); eauto.
Qed.

Lemma has_true_iff k m : JMap.has k m = true <-> In k (JMap.keys m).
Proof.
  unfold JMap.has. split.
  - destruct (JMap.get k m) eqn:E; [|discriminate].
    intros _. eapply get_Some_In; eauto.
  - intros H. apply In_get_Some in H as [v ->]. reflexivity.
Qed.

Lemma keys_set_present k v m :
  In k (JMap.keys m) -> JMap.keys (JMap.set k v m) = JMap.keys m.
Proof.
  induction m as [|[k' v'] m IH]; simpl; [tauto|].
  destruct (String.eqb k' k) eqn:E; simpl; auto.
  intros [->|H]; [now rewrite String.eqb_refl in E|].
  unfold JMap.keys in *. now rewrite IH.
Qed.

Lemma keys_set_absent k v m :
  ~ In k (JMap.keys m) -> JMap.keys (JMap.set k v m) = (JMap.keys m ++ [k])%list.
Proof.
  induction m as [|[k' v'] m IH]; simpl; auto.
  intros H. destruct (String.eqb k' k) eqn:E; simpl.
  - apply String.eqb_eq in E. tauto.
  - unfold JMap.keys in *. rewrite IH; tauto.
Qed.

Lemma In_keys_set k k' v m :
  In k' (JMap.keys (JMap.set k v m)) <-> k' = k \/ In k' (JMap.keys m).
Proof.
  destruct (in_dec string_dec k (JMap.keys m)) as [Hin|Hnin].
  - rewrite keys_set_present by assumption.
    split; [auto|]. intros [->|H]; auto.
  - rewrite keys_set_absent by assumption.
    rewrite in_app_iff. simpl. split.
    + intros [H|[H|[]]]; auto.
    + intros [->|H]; auto.
Qed.

Lemma NoDup_keys_set k v m :
  NoDup (JMap.keys m) -> NoDup (JMap.keys (JMap.set k v m)).
Proof.
  intros Hnd.
  destruct (in_dec string_dec k (JMap.keys m)) as [Hin|Hnin].
  - now rewrite keys_set_present.
  - rewrite keys_set_absent by assumption.
    apply NoDup_app; auto.
    + constructor; [simpl; tauto | constructor].
    + intros x Hx [<-|[]]. contradiction.
Qed.

Lemma size_keys m : JMap.size m = List.length (JMap.keys m).
Proof. unfold JMap.size, JMap.keys. now rewrite length_map. Qed.

Lemma size_set_present k v m :
  JMap.has k m = true -> JMap.size (JMap.set k v m) = JMap.size m.
Proof.
  intros H. apply has_true_iff in H.
  now rewrite !size_keys, keys_set_present.
Qed.

End Facts.
End JMapFacts.


(** ** Facts about binary64 numbers *)

Module NumFacts.

Lemma iter_pos_nat (A : Type) (f : A -> A) (p : positive) (x : A) :
  iter_pos f p x = Nat.iter (Pos.to_nat p) f x.
Proof.
  revert x. induction p as [p IH|p IH|]; intros x; cbn [iter_pos].
  - rewrite !IH. rewrite Pos2Nat.inj_xI.
    replace (S (2 * Pos.to_nat p))
      with (Pos.to_nat p + (Pos.to_nat p + 1))%nat by lia.
    rewrite !Nat.iter_add. simpl. reflexivity.
  - rewrite !IH. rewrite Pos2Nat.inj_xO.
    replace (2 * Pos.to_nat p)%nat
      with (Pos.to_nat p + Pos.to_nat p)%nat by lia.
    now rewrite Nat.iter_add.
  - reflexivity.
Qed.

Lemma shr_1_wide (k : nat) (mrs : shr_record) :
  wide (S k) mrs -> wide k (shr_1 mrs).
Proof.
  intros [q [Hq Hd]]. destruct mrs as [m r s]. simpl in Hq. subst m.
  destruct q as [q|q|]; simpl in *.
  - exists q. split; [reflexivity|]. rewrite Pos2Nat.inj_succ in Hd. lia.
  - exists q. split; [reflexivity|]. rewrite Pos2Nat.inj_succ in Hd. lia.
  - lia.
Qed.

Lemma iter_shr_1_wide (n k : nat) (mrs : shr_record) :
  wide (n + k) mrs -> wide k (Nat.iter n shr_1 mrs).
Proof.
  revert k mrs. induction n as [|n IH]; intros k mrs H; simpl; auto.
  apply shr_1_wide. apply IH.
  destruct H as [q [Hq Hd]]. exists q. split; auto. lia.
Qed.

(** Shifting a positive mantissa to the exponent of the format leaves a
    positive mantissa, when the exponent it starts from is in range. *)
Lemma shr_fexp_pos (m : positive) (e : Z) (l : location) :
  (emin Num.prec Num.emax <= e)%Z ->
  exists q, shr_m (fst (shr_fexp Num.prec Num.emax (Zpos m) e l)) = Zpos q /\
            (emin Num.prec Num.emax
               <= snd (shr_fexp Num.prec Num.emax (Zpos m) e l))%Z.
Proof.
  intros He. unfold shr_fexp, shr. simpl Zdigits2.
  set (rec := shr_record_of_loc (Zpos m) l).
  assert (Hrec : shr_m rec = Zpos m) by (destruct l as [|[| |]]; reflexivity).
  destruct (fexp Num.prec Num.emax (Zpos (digits2_pos m) + e) - e)%Z
    as [|p|p] eqn:E; simpl.
  - exists m. auto.
  - assert (Hp : (Zpos p = Zpos (digits2_pos m) - Num.prec)%Z).
    { unfold fexp in E. unfold emin, Num.prec, Num.emax in *. lia. }
    rewrite iter_pos_nat.
    destruct (@iter_shr_1_wide (Pos.to_nat p) 0 rec) as [q [Hq _]].
    { exists m. split; [exact Hrec|].
      unfold Num.prec in Hp.
      assert (Pos.to_nat p < Pos.to_nat (digits2_pos m))%nat; [|lia].
      apply Pos2Nat.inj_lt. lia. }
    exists q. split; [exact Hq|].
    unfold fexp in E. unfold emin, Num.prec, Num.emax in *. lia.
  - exists m. auto.
Qed.

Lemma round_nearest_even_pos (q : positive) (l : location) :
  exists q', round_nearest_even (Zpos q) l = Zpos q'.
Proof.
  destruct l as [|[| |]]; simpl; eauto.
  destruct q; simpl; eauto.
Qed.

Lemma binary_round_aux_pos (m : positive) (e : Z) (l : location) :
  (emin Num.prec Num.emax <= e)%Z ->
  above_zero (binary_round_aux Num.prec Num.emax false (Zpos m) e l) = true.
Proof.
  intros He. unfold binary_round_aux.
  destruct (shr_fexp_pos m l He) as [q [Hq He']].
  destruct (shr_fexp Num.prec Num.emax (Zpos m) e l) as [mrs' e'].
  simpl in Hq, He'. rewrite Hq.
  destruct (round_nearest_even_pos q (loc_of_shr_record mrs')) as [q' ->].
  destruct (shr_fexp_pos q' loc_Exact He') as [q'' [Hq'' He'']].
  destruct (shr_fexp Num.prec Num.emax (Zpos q') e' loc_Exact) as [mrs'' e''].
  simpl in Hq'', He''. rewrite Hq''.
  destruct (e'' <=? Num.emax - Num.prec)%Z; simpl; auto.
  now apply Z.leb_le.
Qed.

(** Rounding a positive number to the format never gives zero or NaN. *)
Lemma binary_round_pos (m : positive) (e : Z) :
  (emin Num.prec Num.emax <= e)%Z ->
  above_zero (binary_round Num.prec Num.emax false m e) = true.
Proof.
  intros He. unfold binary_round, shl_align.
  destruct (fexp Num.prec Num.emax (Zpos (digits2_pos m) + e) - e)%Z eqn:E;
    try (now apply binary_round_aux_pos).
  apply binary_round_aux_pos. unfold fexp, emin in *. lia.
Qed.

(** The sum of two positive numbers is positive: it does not round to
    zero. *)
Lemma above_zero_add (x y : double) :
  above_zero x = true -> above_zero y = true ->
  above_zero (Num.add x y) = true.
Proof.
  destruct x as [sx|[|]|  |[|] mx ex], y as [sy|[|]| |[|] my ey];
    simpl; try discriminate; auto.
  intros Hx Hy. apply Z.leb_le in Hx, Hy.
  unfold Num.add, SFadd. cbn [cond_Zopp]. simpl Z.add.
  apply binary_round_pos. lia.
Qed.

Lemma add_zero_l (x : double) :
  above_zero x = true -> Num.add Num.zero x = x.
Proof. destruct x as [s|[|]| |[|] m e]; simpl; try discriminate; auto. Qed.

Lemma add_zero_r (x : double) :
  above_zero x = true -> Num.add x Num.zero = x.
Proof. destruct x as [s|[|]| |[|] m e]; simpl; try discriminate; auto. Qed.

Lemma above_zero_of_nat (n : nat) : above_zero (Num.of_nat (S n)) = true.
Proof.
  unfold Num.of_nat, Num.of_Z. rewrite Nat2Z.inj_succ.
  destruct (Z.succ (Z.of_nat n)) eqn:E; try lia.
  simpl binary_normalize. apply binary_round_pos.
  unfold emin, Num.prec, Num.emax. lia.
Qed.

Lemma above_zero_ltb (x : double) :
  above_zero x = true -> Num.ltb Num.zero x = true.
Proof. destruct x as [s|[|]| |[|] m e]; simpl; try discriminate; auto. Qed.

Lemma above_zero_truthy (x : double) :
  above_zero x = true -> Num.falsy x = false.
Proof. destruct x as [s|[|]| |[|] m e]; simpl; try discriminate; auto. Qed.

(** A positive number of the format is positive in the sense above. *)
Lemma valid_above_zero (x : double) :
  Num.valid x = true -> Num.ltb Num.zero x = true -> above_zero x = true.
Proof.
  destruct x as [s|[|]| |[|] m e]; simpl; try discriminate; auto.
  unfold Num.valid, valid_binary, bounded, canonical_mantissa. intros H _.
  apply andb_true_iff in H as [H _]. apply Z.eqb_eq in H.
  apply Z.leb_le. unfold fexp in H. lia.
Qed.

Lemma zero_div (y : double) :
  above_zero y = true -> Num.div Num.zero y = Num.zero.
Proof. destruct y as [s|[|]| |[|] m e]; simpl; try discriminate; auto. Qed.

(** [0 / y] is zero or NaN, whatever [y] is. *)
Lemma zero_div_falsy (y : double) : Num.falsy (Num.div Num.zero y) = true.
Proof. destruct y as [s|[|]| |[|] m e]; reflexivity. Qed.

(** A positive threshold is not reached by zero or NaN. *)
Lemma falsy_not_reached (t x : double) :
  Num.ltb Num.zero t = true -> Num.falsy x = true -> Num.leb t x = false.
Proof.
  destruct t as [s|[|]| |[|] m e], x as [sx|[|]| |[|] mx ex];
    simpl; try discriminate; auto.
Qed.

Lemma zero_or_above_add (x w : double) :
  zero_or_above x -> above_zero w = true -> above_zero (Num.add x w) = true.
Proof.
  intros [->|Hx] Hw.
  - now rewrite add_zero_l.
  - now apply above_zero_add.
Qed.

(** A sum of two such numbers is zero only when both are. *)
Lemma add_zero_or_above (x y : double) :
  zero_or_above x -> zero_or_above y ->
  (x = Num.zero /\ y = Num.zero /\ Num.add x y = Num.zero)
  \/ above_zero (Num.add x y) = true.
Proof.
  intros [->|Hx] [->|Hy].
  - left. auto.
  - right. now rewrite add_zero_l.
  - right. now rewrite add_zero_r.
  - right. now apply above_zero_add.
Qed.

End NumFacts.

Ltac unfold_m :=
  unfold bind, ret, this_, modify, Date_now, deref, mutate in *.

Lemma has_get (V : Type) (k : string) (m : JMap.t V) (v : V) :
  JMap.get k m = Some v -> JMap.has k m = true.
Proof. unfold JMap.has. now intros ->. Qed.

(** ** Registration *)

(** C10. [registerAgent] succeeds on every input and never reports a
    duplicate: the profile stored under the id afterwards is a fresh one
    (reputation 100, the three counters at zero), whatever was stored
    there before; a profile already present is replaced in place, and no
    other entry of the registry changes. *)
Theorem registerAgent_overwrites
    (agentId agentName : string) (role : option string)
    (weight : option double) (w : World) :
  exists agent w',
    registerAgent agentId agentName role weight w
      = Some (Success (Some agent), w') /\
    JMap.get agentId (System.agents (system w')) = Some agent /\
    Agent.id agent = agentId /\
    Agent.name agent = agentName /\
    Agent.role agent = param role "member" /\
    Agent.weight agent = param weight Num.one /\
    Agent.reputation agent = 100%Z /\
    Agent.participatedDecisions agent = 0%nat /\
    Agent.agreedDecisions agent = 0%nat /\
    Agent.disagreedDecisions agent = 0%nat /\
    (JMap.has agentId (System.agents (system w)) = true ->
     JMap.size (System.agents (system w'))
       = JMap.size (System.agents (system w))) /\
    (forall other, other <> agentId ->
       JMap.get other (System.agents (system w'))
         = JMap.get other (System.agents (system w))).
Proof.
  unfold registerAgent. unfold_m. simpl.
  rewrite JMapFacts.get_set_same.
  eexists; eexists. split; [reflexivity|]. simpl.
  rewrite JMapFacts.get_set_same.
  repeat split; auto.
  - intros H. now apply JMapFacts.size_set_present.
  - intros other Hne. apply JMapFacts.get_set_other. congruence.
Qed.

(** ** Vote validation *)

(** C6, as the code has it: a proposal whose type is none of [single],
    [multi], [ranked], [yesno] falls through the [switch], and every
    candidate vote is reported valid. *)
Theorem validateVote_unknown_type_valid (proposal : Proposal.t) (vote : jsval) :
  known_type (Proposal.type proposal) = false ->
  validateVote proposal vote = Valid.
Proof.
  unfold known_type, validateVote. intros H.
  apply orb_false_iff in H as [H Hy].
  apply orb_false_iff in H as [H Hr].
  apply orb_false_iff in H as [Hs Hm].
  now rewrite Hs, Hm, Hr, Hy.
Qed.

Lemma validateVote_unknown_type_valid_witness :
  validateVote approval_proposal (JNum 7) = Valid.
Proof. apply validateVote_unknown_type_valid. reflexivity. Defined.

(** C6 fails on the code: on a proposal of the unknown type [approval] the
    validator reports a vote valid, with no error at all. *)
Lemma validateVote_unknown_type_not_rejected :
  known_type (Proposal.type approval_proposal) = false /\
  validateVote approval_proposal (JNum 7) = Valid /\
  ~ (exists error, validateVote approval_proposal (JNum 7) = Invalid error).
Proof.
  split; [reflexivity|]. split; [reflexivity|].
  intros [error H]. discriminate H.
Qed.

Lemma validateVote_single_num (proposal : Proposal.t) (n : Q) :
  Proposal.type proposal = "single" ->
  (out_of_range proposal n ->
   validateVote proposal (JNum n) = Invalid InvalidOptionIndex) /\
  (~ out_of_range proposal n -> validateVote proposal (JNum n) = Valid).
Proof.
  intros Ht. unfold validateVote, out_of_range, Qltb. rewrite Ht. simpl.
  destruct (Qle_bool 0 n) eqn:E0; simpl.
  - apply Qle_bool_iff in E0.
    destruct (Qle_bool _ n) eqn:E1.
    + apply Qle_bool_iff in E1. split; auto. intros H. exfalso; auto.
    + split; auto. intros [H|H].
      * exfalso. apply (Qlt_not_le _ _ H E0).
      * apply Qle_bool_iff in H. congruence.
  - split; auto. intros H. exfalso. apply H. left.
    apply Qnot_le_lt. intros H0. apply Qle_bool_iff in H0. congruence.
Qed.

(** C7. On a [single] proposal the validator rejects a numeric vote, with
    the option-index error, exactly when the number is below 0 or at least
    [options.length]; every vote that is not a number is valid; and a
    submission of an out-of-range number fails and leaves the votes of the
    proposal, and the vote records of the system, as they were. *)
Theorem single_vote_bounds
    (Number_toString : Q -> string) (w : World)
    (agentId proposalId : string) (comment : option string)
    (proposal : Proposal.t) :
  Proposal.type proposal = "single" ->
  JMap.get proposalId (System.proposals (system w)) = Some proposal ->
  (forall n,
     validateVote proposal (JNum n) = Invalid InvalidOptionIndex
     <-> out_of_range proposal n) /\
  (forall n,
     validateVote proposal (JNum n) = Valid <-> ~ out_of_range proposal n) /\
  (forall v, (forall n, v <> JNum n) -> validateVote proposal v = Valid) /\
  (forall n, out_of_range proposal n ->
     exists error w',
       vote Number_toString agentId proposalId (JNum n) comment w
         = Some (Failure error, w') /\
       System.votes (system w') = System.votes (system w) /\
       exists proposal',
         JMap.get proposalId (System.proposals (system w')) = Some proposal' /\
         Proposal.votes proposal' = Proposal.votes proposal).
Proof.
  intros Ht Hget.
  assert (Hdec : forall n, out_of_range proposal n \/ ~ out_of_range proposal n).
  { intros n. unfold out_of_range.
    destruct (Qlt_le_dec n 0) as [H|H]; [left; now left|].
    destruct (Qlt_le_dec n (inject_Z (Z.of_nat (List.length (Proposal.options proposal)))))
      as [H'|H']; [right|left; now right].
    intros [H0|H0]; [apply (Qlt_not_le _ _ H0 H) | apply (Qlt_not_le _ _ H' H0)]. }
  repeat split.
  - intros H. destruct (Hdec n) as [Ho|Ho]; auto.
    apply (validateVote_single_num proposal n Ht) in Ho. congruence.
  - apply (validateVote_single_num proposal n Ht).
  - intros H Ho.
    apply (validateVote_single_num proposal n Ht) in Ho. congruence.
  - apply (validateVote_single_num proposal n Ht).
  - intros v Hv. unfold validateVote. rewrite Ht. simpl.
    destruct v; auto. exfalso. now apply (Hv n).
  - intros n Ho.
    unfold vote. unfold_m.
    destruct (JMap.has agentId (System.agents (system w))); simpl.
    2:{ do 2 eexists. split; [reflexivity|]. split; [reflexivity|]. eauto. }
    rewrite (has_get _ _ Hget). simpl. rewrite Hget.
    destruct (Status_eqb (Proposal.status proposal) voting); simpl.
    2:{ do 2 eexists. split; [reflexivity|]. split; [reflexivity|]. eauto. }
    destruct (Proposal.deadline proposal <? clock w (reads w))%Z; simpl.
    { do 2 eexists. split; [reflexivity|]. split; [reflexivity|].
      simpl. rewrite JMapFacts.get_update_same, Hget. simpl. eauto. }
    apply (validateVote_single_num proposal n Ht) in Ho. rewrite Ho.
    do 2 eexists. split; [reflexivity|]. split; [reflexivity|]. simpl. eauto.
Qed.

Lemma single_vote_bounds_witness :
  let w := mkWorld
    (System.set_proposals
       [("prop_1", Proposal.mk "prop_1" "t" "d" ["x"; "y"; "z"] "single" "a"
                     voting 0 300000 JMap.empty [] (Num.decimal 6 1))]
       (System.set_agents
          [("a", Agent.mk "a" "A" "member" Num.one 100 0 0 0 0)]
          (constructor Config.no_arg)))
    (fun _ => 5%Z) 0 in
  exists error w',
    vote print_integer "a" "prop_1" (JNum 5) None w = Some (Failure error, w') /\
    System.votes (system w') = System.votes (system w) /\
    exists proposal',
      JMap.get "prop_1" (System.proposals (system w')) = Some proposal' /\
      Proposal.votes proposal' = JMap.empty.
Proof.
  intros w.
  refine (proj2 (proj2 (proj2
    (@single_vote_bounds print_integer w "a" "prop_1" None
       (Proposal.mk "prop_1" "t" "d" ["x"; "y"; "z"] "single" "a"
                    voting 0 300000 JMap.empty [] (Num.decimal 6 1))
       eq_refl eq_refl))) 5 _).
  right. vm_compute. discriminate.
Defined.

(** ** Late votes *)

(** C3. A vote by a registered agent on a stored proposal in status
    [voting], submitted when the clock has passed the deadline, fails with
    the expired-proposal error; the proposal is relabelled [expired] and
    its votes, like the vote records of the system, are left as they
    were. *)
Theorem vote_after_deadline
    (Number_toString : Q -> string) (w : World)
    (agentId proposalId : string) (v : jsval) (comment : option string)
    (proposal : Proposal.t) :
  JMap.has agentId (System.agents (system w)) = true ->
  JMap.get proposalId (System.proposals (system w)) = Some proposal ->
  Proposal.status proposal = voting ->
  (Proposal.deadline proposal < clock w (reads w))%Z ->
  exists w' proposal',
    vote Number_toString agentId proposalId v comment w
      = Some (Failure ExpiredProposal, w') /\
    JMap.get proposalId (System.proposals (system w')) = Some proposal' /\
    Proposal.status proposal' = expired /\
    Proposal.votes proposal' = Proposal.votes proposal /\
    JMap.get agentId (Proposal.votes proposal')
      = JMap.get agentId (Proposal.votes proposal) /\
    System.votes (system w') = System.votes (system w) /\
    System.decisions (system w') = System.decisions (system w) /\
    System.agents (system w') = System.agents (system w).
Proof.
  intros Hag Hget Hst Hlate.
  unfold vote. unfold_m. rewrite Hag. simpl.
  rewrite (has_get _ _ Hget). simpl. rewrite Hget, Hst. simpl.
  apply Z.ltb_lt in Hlate. rewrite Hlate.
  do 2 eexists. split; [reflexivity|]. simpl.
  rewrite JMapFacts.get_update_same, Hget. simpl.
  repeat split; reflexivity.
Qed.

Lemma vote_after_deadline_witness :
  let w := mkWorld
    (System.set_proposals
       [("prop_1", Proposal.mk "prop_1" "t" "d" [] "yesno" "a"
                     voting 0 300000 JMap.empty [] (Num.decimal 6 1))]
       (System.set_agents
          [("a", Agent.mk "a" "A" "member" Num.one 100 0 0 0 0)]
          (constructor Config.no_arg)))
    (fun _ => 300001%Z) 0 in
  exists w' proposal',
    vote print_integer "a" "prop_1" (JStr "yes") None w
      = Some (Failure ExpiredProposal, w') /\
    JMap.get "prop_1" (System.proposals (system w')) = Some proposal' /\
    Proposal.status proposal' = expired /\
    Proposal.votes proposal' = JMap.empty.
Proof.
  intros w.
  destruct (@vote_after_deadline print_integer w "a" "prop_1" (JStr "yes") None
              (Proposal.mk "prop_1" "t" "d" [] "yesno" "a"
                           voting 0 300000 JMap.empty [] (Num.decimal 6 1))
              eq_refl eq_refl eq_refl eq_refl)
    as (w' & p' & H1 & H2 & H3 & H4 & _).
  exists w', p'. auto.
Defined.

(** ** What finalization and consensus evaluation do to the system *)

Lemma keys_credit_loop (p : Proposal.t) (l : list (string * VoteData.t))
    (agents : JMap.t Agent.t) :
  JMap.keys
    (fold_left
       (fun agents (entry : string * VoteData.t) =>
          JMap.update (fst entry) (credit p (VoteData.vote (snd entry))) agents)
       l agents)
  = JMap.keys agents.
Proof.
  revert agents. induction l as [|e l IH]; intros agents; simpl; auto.
  now rewrite IH, JMapFacts.keys_update.
Qed.

Section EngineFacts.
Variable Number_toString : Q -> string.

Lemma finalizeDecision_returns (proposalId : string) (w : World)
    (p : Proposal.t) :
  JMap.get proposalId (System.proposals (system w)) = Some p ->
  exists d w',
    finalizeDecision Number_toString proposalId w = Some (d, w') /\
    System.proposals (system w') = System.proposals (system w) /\
    JMap.keys (System.agents (system w'))
      = JMap.keys (System.agents (system w)) /\
    System.votes (system w') = System.votes (system w) /\
    System.config (system w') = System.config (system w) /\
    System.consensusHistory (system w')
      = (System.consensusHistory (system w) ++ [d])%list /\
    Decision.proposalId d = Proposal.id p /\
    Decision.result d = Proposal.status p /\
    clock w' = clock w.
Proof.
  intros Hget. unfold finalizeDecision. unfold_m. simpl. rewrite Hget.
  do 2 eexists. split; [reflexivity|]. simpl.
  rewrite keys_credit_loop. repeat split; reflexivity.
Qed.

Lemma checkConsensus_insufficient (proposalId : string) (w : World)
    (p : Proposal.t) :
  JMap.get proposalId (System.proposals (system w)) = Some p ->
  (Z.of_nat (JMap.size (Proposal.votes p))
     < Config.minAgents (System.config (system w)))%Z ->
  checkConsensus Number_toString proposalId w
    = Some (NotReached InsufficientVotes, w).
Proof.
  intros Hget Hlt. unfold checkConsensus. unfold_m. rewrite Hget.
  apply Z.ltb_lt in Hlt. rewrite Hlt. now destruct w.
Qed.

Lemma checkConsensus_tallied (proposalId : string) (w : World)
    (p : Proposal.t) :
  JMap.get proposalId (System.proposals (system w)) = Some p ->
  (Config.minAgents (System.config (system w))
     <= Z.of_nat (JMap.size (Proposal.votes p)))%Z ->
  exists w',
    checkConsensus Number_toString proposalId w
      = Some (Tally (status_object (system w) p), w') /\
    JMap.keys (System.agents (system w'))
      = JMap.keys (System.agents (system w)) /\
    System.votes (system w') = System.votes (system w) /\
    System.config (system w') = System.config (system w) /\
    clock w' = clock w /\
    System.proposals (system w')
      = if Tallied.reached (status_object (system w) p) then
          JMap.update proposalId (Proposal.set_status accepted)
            (System.proposals (system w))
        else if (Proposal.deadline p <? clock w (reads w))%Z then
          JMap.update proposalId (Proposal.set_status rejected)
            (System.proposals (system w))
        else System.proposals (system w).
Proof.
  intros Hget Hge. unfold checkConsensus.
  unfold bind at 1. unfold deref at 1. rewrite Hget.
  unfold bind at 1. unfold this_ at 1.
  apply Z.ltb_ge in Hge. rewrite Hge.
  destruct (Tallied.reached (status_object (system w) p)) eqn:Hr.
  - unfold bind at 1. unfold bind at 1. unfold mutate at 1, modify at 1.
    unfold bind at 1.
    match goal with
    | |- context [finalizeDecision _ _ ?w1] =>
        destruct (@finalizeDecision_returns proposalId w1
                    (Proposal.set_status accepted p))
          as (d & w' & Hf & Hp & Hk & Hv & Hc & _ & _ & _ & Hcl)
    end.
    { simpl. now rewrite JMapFacts.get_update_same, Hget. }
    rewrite Hf. unfold ret. exists w'. simpl in *.
    repeat split; assumption.
  - unfold bind at 1. unfold bind at 1. unfold Date_now at 1.
    destruct (Proposal.deadline p <? clock w (reads w))%Z eqn:Hd.
    + unfold bind at 1. unfold mutate at 1, modify at 1.
      unfold bind at 1.
      match goal with
      | |- context [finalizeDecision _ _ ?w1] =>
          destruct (@finalizeDecision_returns proposalId w1
                      (Proposal.set_status rejected p))
            as (d & w' & Hf & Hp & Hk & Hv & Hc & _ & _ & _ & Hcl)
      end.
      { simpl. now rewrite JMapFacts.get_update_same, Hget. }
      rewrite Hf. unfold ret. exists w'. simpl in *.
      repeat split; assumption.
    + unfold ret. eexists. split; [reflexivity|]. simpl.
      repeat split; reflexivity.
Qed.

End EngineFacts.

(** ** The tally of [checkConsensus] *)

Lemma Qeq_bool_false_neq (a b : Q) : Qeq_bool a b = false -> ~ a == b.
Proof. intros H E. apply Qeq_bool_iff in E. congruence. Qed.

Lemma existsb_zero_iff (l : list jsval) :
  existsb (fun e => match e with JNum n => Qeq_bool n 0 | _ => false end) l
    = true
  <-> exists n, In (JNum n) l /\ n == 0.
Proof.
  rewrite existsb_exists. split.
  - intros [e [Hin He]]. destruct e; try discriminate.
    exists n. split; auto. now apply Qeq_bool_iff.
  - intros [n [Hin Hn]]. exists (JNum n). split; auto.
    now apply Qeq_bool_iff.
Qed.

Ltac break_hyps :=
  repeat match goal with
  | H : _ \/ _ |- _ => destruct H
  | H : _ /\ _ |- _ => destruct H
  | H : exists _, _ |- _ => destruct H
  | H : Some _ = Some _ |- _ => injection H; clear H; intros; subst
  | H : JNum _ = JNum _ |- _ => injection H; clear H; intros; subst
  | H : JStr _ = JStr _ |- _ => injection H; clear H; intros; subst
  | H : JArr _ = JArr _ |- _ => injection H; clear H; intros; subst
  | H : _ = _ |- _ => discriminate H
  end.

Lemma bucket_of_falls_in (type : string) (v : jsval) (b : Bucket) :
  bucket_of type v = Some b <-> falls_in type v b.
Proof.
  assert (H01 : forall n : Q, n == 0 -> n == 1 -> False).
  { intros n H0 H1. rewrite H0 in H1. discriminate H1. }
  unfold bucket_of, falls_in.
  destruct ((type =? "yesno") || (type =? "single")).
  - unfold equals_yes, equals_no. destruct v as [| |[|]|n|s|l].
    1-4, 7: destruct b; (split; [intros H | intros H]); break_hyps;
      try reflexivity; try tauto;
      try (split; intros H'; break_hyps);
      try (exfalso; match goal with H : ~ _ |- _ => apply H; now auto end).
    + destruct (Qeq_bool n 0) eqn:E0;
        [apply Qeq_bool_iff in E0
        |apply Qeq_bool_false_neq in E0;
         destruct (Qeq_bool n 1) eqn:E1;
         [apply Qeq_bool_iff in E1 | apply Qeq_bool_false_neq in E1]];
      destruct b; (split; [intros H | intros H]); break_hyps;
        try reflexivity; try contradiction; eauto 6;
        try (exfalso; eauto; fail);
        try (split; intros H'; break_hyps; contradiction);
        try (exfalso; match goal with
                      | H : ~ _ |- _ => apply H; right; right; now eauto
                      end).
    + destruct (s =? "yes") eqn:Ey;
        [apply String.eqb_eq in Ey; subst s
        |apply String.eqb_neq in Ey;
         destruct (s =? "no") eqn:En;
         [apply String.eqb_eq in En; subst s | apply String.eqb_neq in En]];
      destruct b; (split; [intros H | intros H]); break_hyps;
        try reflexivity; try contradiction; auto;
        try (split; intros H'; break_hyps; contradiction);
        try (exfalso; match goal with
                      | H : ~ _ |- _ => apply H; now auto
                      end).
  - destruct (type =? "multi"); [|split; [discriminate|tauto]].
    unfold contains_index_0.
    destruct v as [| |c|n|s|l].
    1-5: destruct b; (split; [intros H | intros H]); break_hyps;
      try reflexivity; try tauto; try (intros H'; break_hyps).
    destruct (existsb _ l) eqn:E.
    + apply existsb_zero_iff in E.
      destruct b; (split; [intros H | intros H]); break_hyps;
        try reflexivity; try tauto; eauto.
      exfalso. apply H. eauto.
    + assert (E' : ~ exists n, In (JNum n) l /\ n == 0).
      { intros H. apply existsb_zero_iff in H. congruence. }
      destruct b; (split; [intros H | intros H]); break_hyps;
        try reflexivity; try tauto.
      * exfalso. apply E'. eauto.
      * intros H'. break_hyps. apply E'. eauto.
Qed.

Lemma weight_of_vote_weight (this : System.t) (id : string) :
  nonzero_weights this -> weight_of this id = vote_weight this id.
Proof.
  intros Hnz. unfold weight_of, vote_weight, num_or.
  destruct (JMap.get id (System.agents this)) as [agent|] eqn:E; auto.
  now rewrite (Hnz _ _ E).
Qed.

Lemma tally_step_bucket (this : System.t) (p : Proposal.t) (acc : Acc.t)
    (e : string * VoteData.t) :
  tally_step this p acc e
  = Acc_add (bucket_of (Proposal.type p) (VoteData.vote (snd e)))
            (weight_of this (fst e)) acc.
Proof.
  destruct e as [id vd]. unfold tally_step, bucket_of, says_yes, says_no.
  simpl.
  destruct ((Proposal.type p =? "yesno") || (Proposal.type p =? "single")).
  - destruct (VoteData.vote vd) as [| |[|]|n|s|l]; simpl; auto.
    + destruct (Qeq_bool n 0); simpl; auto.
      destruct (Qeq_bool n 1); simpl; auto.
    + destruct (s =? "yes"); simpl; auto.
      destruct (s =? "no"); simpl; auto.
  - destruct (Proposal.type p =? "multi"); auto.
    destruct (VoteData.vote vd) as [| |c|n|s|l]; simpl; auto.
    unfold strict_eq_num.
    destruct (existsb _ l); auto.
Qed.

(** The loop of [checkConsensus] counts the votes of each bucket and adds
    the weights of the voters of each bucket to the sum of that bucket, in
    voting order. *)
Lemma tally_loop (this : System.t) (p : Proposal.t)
    (votes : JMap.t VoteData.t) (acc : Acc.t) :
  nonzero_weights this ->
  let r := fold_left (tally_step this p) votes acc in
  let type := Proposal.type p in
  Acc.yesVotes r
    = (Acc.yesVotes acc + List.length (voters_in type Yes votes))%nat /\
  Acc.noVotes r
    = (Acc.noVotes acc + List.length (voters_in type No votes))%nat /\
  Acc.abstainVotes r
    = (Acc.abstainVotes acc + List.length (voters_in type Abstain votes))%nat /\
  Acc.yesWeight r
    = add_weights this (voters_in type Yes votes) (Acc.yesWeight acc) /\
  Acc.noWeight r
    = add_weights this (voters_in type No votes) (Acc.noWeight acc) /\
  Acc.abstainWeight r
    = add_weights this (voters_in type Abstain votes) (Acc.abstainWeight acc).
Proof.
  intros Hnz. revert acc.
  induction votes as [|e votes IH]; intros acc; simpl.
  - repeat split; lia.
  - specialize (IH (tally_step this p acc e)).
    simpl in IH. destruct IH as (H1 & H2 & H3 & H4 & H5 & H6).
    rewrite H1, H2, H3, H4, H5, H6. clear H1 H2 H3 H4 H5 H6.
    rewrite tally_step_bucket, (weight_of_vote_weight _ Hnz).
    unfold voters_in. simpl.
    destruct (bucket_of (Proposal.type p) (VoteData.vote (snd e)))
      as [[| |]|]; simpl; repeat split; lia.
Qed.

(** C5. The correspondence between the bucketing rule as the code tests it
    and as the specification words it, and the tally [checkConsensus]
    reports: each count is the number of recorded votes of its bucket, and
    each weighted sum is the sum of the weights of the voters of its
    bucket, added up in voting order, a registered voter contributing its
    registered weight. *)
Theorem checkConsensus_buckets
    (Number_toString : Q -> string) (w : World) (proposalId : string)
    (p : Proposal.t) :
  JMap.get proposalId (System.proposals (system w)) = Some p ->
  (Config.minAgents (System.config (system w))
     <= Z.of_nat (JMap.size (Proposal.votes p)))%Z ->
  nonzero_weights (system w) ->
  let type := Proposal.type p in
  let votes := Proposal.votes p in
  (forall v b, bucket_of type v = Some b <-> falls_in type v b) /\
  (forall agentId voteData acc,
     tally_step (system w) p acc (agentId, voteData)
     = Acc_add (bucket_of type (VoteData.vote voteData))
               (vote_weight (system w) agentId) acc) /\
  exists s w',
    checkConsensus Number_toString proposalId w = Some (Tally s, w') /\
    Tallied.yesVotes s = List.length (voters_in type Yes votes) /\
    Tallied.noVotes s = List.length (voters_in type No votes) /\
    Tallied.abstainVotes s = List.length (voters_in type Abstain votes) /\
    Tallied.yesWeight s = weight_sum (system w) (voters_in type Yes votes) /\
    Tallied.noWeight s = weight_sum (system w) (voters_in type No votes).
Proof.
  intros Hget Hge Hnz type votes. split; [|split].
  - intros v b. apply bucket_of_falls_in.
  - intros agentId voteData acc.
    rewrite tally_step_bucket. simpl.
    now rewrite (weight_of_vote_weight _ Hnz).
  - destruct (checkConsensus_tallied Number_toString _ _ Hget Hge)
      as (w' & Hc & _).
    exists (status_object (system w) p), w'. split; [exact Hc|].
    destruct (tally_loop p (Proposal.votes p) Acc.zero Hnz)
      as (H1 & H2 & H3 & H4 & H5 & _).
    unfold status_object, weight_sum. simpl in *.
    repeat split; auto.
Qed.

(** ** Acceptance of a [yesno] proposal *)

Lemma positive_nonzero (this : System.t) :
  positive_weights this -> nonzero_weights this.
Proof.
  intros Hpos id agent Hget. apply Hpos in Hget as [Hv Hlt].
  apply NumFacts.above_zero_truthy. now apply NumFacts.valid_above_zero.
Qed.

Lemma vote_weight_pos (this : System.t) (id : string) :
  positive_weights this -> above_zero (vote_weight this id) = true.
Proof.
  intros Hpos. unfold vote_weight.
  destruct (JMap.get id (System.agents this)) eqn:E; [|reflexivity].
  apply Hpos in E as [Hv Hlt]. now apply NumFacts.valid_above_zero.
Qed.

(** A sum of positive weights is zero when there is nothing to add, and
    positive otherwise. *)
Lemma add_weights_pos (this : System.t) (ids : list string) (sum : double) :
  positive_weights this -> zero_or_above sum ->
  zero_or_above (add_weights this ids sum) /\
  (ids <> [] -> above_zero (add_weights this ids sum) = true).
Proof.
  intros Hpos. revert sum. induction ids as [|id ids IH]; intros sum Hs; simpl.
  - split; [exact Hs | congruence].
  - assert (Ha : above_zero (Num.add sum (vote_weight this id)) = true).
    { apply NumFacts.zero_or_above_add; [exact Hs|].
      now apply vote_weight_pos. }
    destruct (IH _ (or_intror Ha)) as [H1 H2]. split; [exact H1|].
    intros _. destruct H1 as [H1|H1]; [|exact H1].
    destruct ids as [|id' ids]; [simpl in *; exact Ha|].
    apply H2. discriminate.
Qed.

Lemma weight_sum_zero_or_above (this : System.t) (ids : list string) :
  positive_weights this -> zero_or_above (weight_sum this ids).
Proof.
  intros Hpos. apply add_weights_pos; [exact Hpos | now left].
Qed.

(** With positive weights and a registry that is not empty, the test
    [totalWeight > 0] of the source does not change the outcome: the
    threshold is reached exactly when the summed weight of the yes votes,
    divided by the size of the registry, is at least the threshold. *)
Lemma reached_iff (this : System.t) (p : Proposal.t) :
  positive_weights this ->
  (0 < JMap.size (System.agents this))%nat ->
  Tallied.reached (status_object this p)
  = Num.leb (Proposal.requiredConsensus p)
      (Num.div
         (weight_sum this (voters_in (Proposal.type p) Yes (Proposal.votes p)))
         (Num.of_nat (JMap.size (System.agents this)))).
Proof.
  intros Hpos HN.
  destruct (tally_loop p (Proposal.votes p) Acc.zero (positive_nonzero Hpos))
    as (_ & _ & _ & Hy & Hn & Ha).
  pose proof (weight_sum_zero_or_above
                (voters_in (Proposal.type p) Yes (Proposal.votes p)) Hpos) as Py.
  pose proof (weight_sum_zero_or_above
                (voters_in (Proposal.type p) No (Proposal.votes p)) Hpos) as Pn.
  pose proof (weight_sum_zero_or_above
                (voters_in (Proposal.type p) Abstain (Proposal.votes p)) Hpos)
    as Pa.
  unfold status_object. simpl.
  set (acc := fold_left (tally_step this p) (Proposal.votes p) Acc.zero) in *.
  simpl in Hy, Hn, Ha. fold (weight_sum this) in Hy, Hn, Ha.
  unfold weight_sum in Py, Pn, Pa |- *.
  rewrite Hy, Hn, Ha.
  set (y := add_weights this
              (voters_in (Proposal.type p) Yes (Proposal.votes p)) Num.zero)
    in *.
  set (n := add_weights this
              (voters_in (Proposal.type p) No (Proposal.votes p)) Num.zero)
    in *.
  set (a := add_weights this
              (voters_in (Proposal.type p) Abstain (Proposal.votes p)) Num.zero)
    in *.
  destruct (Num.ltb Num.zero (Num.add (Num.add y n) a)) eqn:E; [reflexivity|].
  assert (Hz : y = Num.zero).
  { destruct (NumFacts.add_zero_or_above Py Pn) as [(Hy0 & _ & _)|Hyn];
      [exact Hy0|].
    exfalso.
    assert (Ht : above_zero (Num.add (Num.add y n) a) = true).
    { destruct Pa as [->|Pa].
      - now rewrite NumFacts.add_zero_r.
      - now apply NumFacts.above_zero_add. }
    apply NumFacts.above_zero_ltb in Ht. congruence. }
  rewrite Hz.
  destruct (JMap.size (System.agents this)) as [|k] eqn:EN; [lia|].
  now rewrite NumFacts.zero_div by apply NumFacts.above_zero_of_nat.
Qed.

(** C1. Consensus evaluation of a stored [yesno] proposal in status
    [voting], in a system whose registry is not empty and holds positive
    weights.  With fewer votes than [minAgents] the evaluator reports
    insufficient votes and changes nothing.  Otherwise it returns, and the
    proposal is [accepted] afterwards if and only if the summed weight of
    its yes votes, divided by the size of the registry, is at least the
    required consensus; the sum, the quotient and the comparison are those
    of binary64 numbers, the weights added up in voting order. *)
Theorem yesno_accepted_iff
    (Number_toString : Q -> string) (w : World) (proposalId : string)
    (p : Proposal.t) :
  JMap.get proposalId (System.proposals (system w)) = Some p ->
  Proposal.type p = "yesno" ->
  Proposal.status p = voting ->
  positive_weights (system w) ->
  (0 < JMap.size (System.agents (system w)))%nat ->
  let minAgents := Config.minAgents (System.config (system w)) in
  let totalVotes := Z.of_nat (JMap.size (Proposal.votes p)) in
  let totalAgents := Num.of_nat (JMap.size (System.agents (system w))) in
  let yesWeight :=
    weight_sum (system w) (voters_in "yesno" Yes (Proposal.votes p)) in
  ((totalVotes < minAgents)%Z ->
   checkConsensus Number_toString proposalId w
     = Some (NotReached InsufficientVotes, w)) /\
  ((minAgents <= totalVotes)%Z ->
   exists s w' p',
     checkConsensus Number_toString proposalId w = Some (Tally s, w') /\
     JMap.get proposalId (System.proposals (system w')) = Some p' /\
     (Proposal.status p' = accepted
      <-> Num.leb (Proposal.requiredConsensus p)
                  (Num.div yesWeight totalAgents) = true)).
Proof.
  intros Hget Ht Hst Hpos HN minAgents totalVotes totalAgents yesWeight.
  split.
  - intros Hlt. now apply checkConsensus_insufficient with (p := p).
  - intros Hge.
    destruct (checkConsensus_tallied Number_toString _ _ Hget Hge)
      as (w' & Hc & _ & _ & _ & _ & Hp).
    pose proof (reached_iff p Hpos HN) as Hr. rewrite Ht in Hr.
    fold yesWeight totalAgents in Hr.
    exists (status_object (system w) p), w'.
    rewrite <- Hr.
    destruct (Tallied.reached (status_object (system w) p)).
    + exists (Proposal.set_status accepted p). split; [exact Hc|].
      rewrite Hp, JMapFacts.get_update_same, Hget. simpl.
      split; [reflexivity|]. split; reflexivity.
    + destruct (Proposal.deadline p <? clock w (reads w))%Z.
      * exists (Proposal.set_status rejected p). split; [exact Hc|].
        rewrite Hp, JMapFacts.get_update_same, Hget. simpl.
        split; [reflexivity|]. split; discriminate.
      * exists p. split; [exact Hc|]. rewrite Hp. split; [exact Hget|].
        rewrite Hst. split; discriminate.
Qed.

(** ** The breakdown of [countVotes] *)

Lemma inherited_false (k : string) :
  inherited k = false ->
  (k =? "__proto__") = false /\
  existsb (String.eqb k) Object_prototype_methods = false.
Proof. unfold inherited. intros H. now apply orb_false_iff in H. Qed.

Lemma get_assign_same (A : Type) (k : string) (v : A) (o : JMap.t A) :
  (k =? "__proto__") = false -> JMap.get k (assign k v o) = Some v.
Proof.
  intros Hk. unfold assign. rewrite Hk.
  destruct (JMap.get k o); apply JMapFacts.get_set_same.
Qed.

Lemma get_assign_other (A : Type) (k k' : string) (v : A) (o : JMap.t A) :
  k <> k' -> JMap.get k' (assign k v o) = JMap.get k' o.
Proof.
  intros Hne. unfold assign.
  destruct (JMap.get k o); [now apply JMapFacts.get_set_other|].
  destruct (k =? "__proto__"); [reflexivity|].
  now apply JMapFacts.get_set_other.
Qed.

Section ObjectFacts.
Variable A : Type.
Variable zero : A.
Variable truthy : A -> bool.
Variable plus : A -> A -> A.
Variable show : A -> string.
Implicit Types (o : JMap.t (Count A)) (k : string) (x : A).

(** On a key that [Object.prototype] does not have, [(o[k] || 0) + x] is
    a number as long as the property holds a number or is missing. *)
Lemma or_zero_plus_own k x o :
  inherited k = false ->
  (forall s, JMap.get k o <> Some (Text s)) ->
  or_zero_plus zero truthy plus show k x o
  = Counted (plus (let n := held zero (JMap.get k o) in
                   if truthy n then n else zero) x)
    \/ (JMap.get k o = None /\
        or_zero_plus zero truthy plus show k x o = Counted (plus zero x)).
Proof.
  intros Hk Hno. apply inherited_false in Hk as [H1 H2].
  unfold or_zero_plus, lookup. rewrite H1, H2.
  destruct (JMap.get k o) as [[n|s]|] eqn:E; simpl; auto.
  exfalso. now apply (Hno s).
Qed.

Lemma get_add_to_same k x o :
  inherited k = false ->
  JMap.get k (add_to zero truthy plus show k x o)
  = Some (or_zero_plus zero truthy plus show k x o).
Proof.
  intros Hk. apply inherited_false in Hk as [H1 _].
  now apply get_assign_same.
Qed.

Lemma get_add_to_other k k' x o :
  k <> k' ->
  JMap.get k' (add_to zero truthy plus show k x o) = JMap.get k' o.
Proof. apply get_assign_other. Qed.

Lemma get_bump_same k x o :
  JMap.get k (bump plus show k x o)
  = option_map (fun c => match c with
                         | Counted n => Counted (plus n x)
                         | Text s => Text (s ++ show x)
                         end) (JMap.get k o).
Proof. apply JMapFacts.get_update_same. Qed.

Lemma get_bump_other k k' x o :
  k <> k' -> JMap.get k' (bump plus show k x o) = JMap.get k' o.
Proof. apply JMapFacts.get_update_other. Qed.

End ObjectFacts.

Section BreakdownFacts.
Variable Number_toString : Q -> string.

Lemma init_counts_zero (A : Type) (zero : A) (p : Proposal.t) (k : string)
    (c : Count A) :
  JMap.get k (init_counts Number_toString zero p) = Some c ->
  c = Counted zero.
Proof.
  unfold init_counts.
  destruct (Proposal.type p =? "yesno").
  - simpl.
    repeat match goal with
    | |- context [if ?c then _ else _] => destruct c
    end; congruence.
  - destruct (0 <? List.length (Proposal.options p))%nat; [|discriminate].
    generalize (seq 0 (List.length (Proposal.options p))).
    assert (H : forall y, JMap.get k (@JMap.empty (Count A)) = Some y ->
                          y = Counted zero)
      by discriminate.
    revert H. generalize (@JMap.empty (Count A)). intros o Ho l.
    revert o Ho c.
    induction l as [|i l IH]; intros o Ho c; simpl; [apply Ho|].
    apply IH. intros y.
    destruct (string_dec (print_nat Number_toString i) k) as [<-|Hne].
    + unfold assign.
      destruct (JMap.get (print_nat Number_toString i) o) eqn:E.
      * rewrite JMapFacts.get_set_same. congruence.
      * destruct (print_nat Number_toString i =? "__proto__").
        -- rewrite E. discriminate.
        -- rewrite JMapFacts.get_set_same. congruence.
    + rewrite get_assign_other by assumption. apply Ho.
Qed.

Lemma init_counts_yesno (A : Type) (zero : A) (p : Proposal.t) (k : string) :
  Proposal.type p = "yesno" ->
  In k ["yes"; "no"; "abstain"] ->
  JMap.get k (init_counts Number_toString zero p) = Some (Counted zero).
Proof.
  intros Ht Hk. unfold init_counts. rewrite Ht. simpl.
  destruct Hk as [<-|[<-|[<-|[]]]]; reflexivity.
Qed.

Lemma filed_under_yesno (v : jsval) (k : string) :
  filed_under Number_toString "yesno" v = Some k ->
  In k ["yes"; "no"; "abstain"].
Proof.
  unfold filed_under. simpl.
  destruct v as [| |[|]|n|s|l]; simpl; intros H;
    try (injection H as <-; auto; fail).
  destruct (s =? "yes"); [injection H as <-; auto|].
  destruct (s =? "no"); injection H as <-; auto.
Qed.

(** One iteration of the loop of [countVotes], by the key the vote is
    filed under. *)
Lemma count_step_filed (this : System.t) (p : Proposal.t) (r : Results.t)
    (e : string * VoteData.t) :
  count_step Number_toString this p r e
  = let entry :=
      BreakdownEntry.mk (fst e) (getAgentName this (fst e))
        (VoteData.vote (snd e)) (weight_of this (fst e)) in
    match filed_under Number_toString (Proposal.type p)
            (VoteData.vote (snd e)) with
    | Some k =>
        if Proposal.type p =? "yesno" then
          Results.mk
            (bump_count Number_toString k (Results.counts r))
            (bump_weight Number_toString k (weight_of this (fst e))
               (Results.weightedCounts r))
            (Results.breakdown r ++ [entry])
        else
          Results.mk
            (incr Number_toString k (Results.counts r))
            (add_weight Number_toString k (weight_of this (fst e))
               (Results.weightedCounts r))
            (Results.breakdown r ++ [entry])
    | None =>
        Results.mk (Results.counts r) (Results.weightedCounts r)
          (Results.breakdown r ++ [entry])
    end.
Proof.
  destruct e as [id vd]. unfold count_step, filed_under. simpl.
  destruct (Proposal.type p =? "yesno").
  - destruct (VoteData.vote vd) as [| |[|]|n|s|l]; simpl; auto.
    rewrite !orb_false_r.
    destruct (s =? "yes"); auto. destruct (s =? "no"); auto.
  - destruct ((Proposal.type p =? "single") || (Proposal.type p =? "multi"));
      auto.
    destruct (VoteData.vote vd) as [| |[|]|n|s|[|first l]]; simpl; auto.
Qed.

(** The loop of [countVotes], seen from a key [k] that [Object.prototype]
    does not have.  The property [k] of [counts], if it holds a number or
    is missing when the loop starts, ends up holding the number it held
    plus the number of the voters filed under [k]. *)
Lemma counts_loop (this : System.t) (p : Proposal.t) (k : string)
    (votes : JMap.t VoteData.t) (r : Results.t) :
  inherited k = false ->
  (forall c, JMap.get k (Results.counts r) = Some c ->
             exists n, c = Counted n) ->
  (Proposal.type p = "yesno" ->
   voters_under Number_toString (Proposal.type p) k votes <> [] ->
   JMap.get k (Results.counts r) <> None) ->
  let r' := fold_left (count_step Number_toString this p) votes r in
  let voters := voters_under Number_toString (Proposal.type p) k votes in
  JMap.get k (Results.counts r')
  = match voters with
    | [] => JMap.get k (Results.counts r)
    | _ :: _ =>
        Some (Counted
                (held 0%nat (JMap.get k (Results.counts r))
                 + List.length voters)%nat)
    end.
Proof.
  intros Hk. revert r.
  induction votes as [|e votes IH]; intros r Hc Hy; simpl; [auto|].
  rewrite count_step_filed. cbv zeta.
  unfold voters_under in *. simpl in Hy |- *.
  set (cs := Results.counts r) in *.
  set (rest :=
         map fst
           (filter (fun e0 : string * VoteData.t =>
                      match filed_under Number_toString (Proposal.type p)
                              (VoteData.vote (snd e0)) with
                      | Some k' => k' =? k
                      | None => false
                      end) votes)) in *.
  (* a vote filed elsewhere leaves the property as it is *)
  assert (Hsame :
    forall r1,
      JMap.get k (Results.counts r1) = JMap.get k cs ->
      (Proposal.type p = "yesno" -> rest <> [] -> JMap.get k cs <> None) ->
      JMap.get k
        (Results.counts
           (fold_left (count_step Number_toString this p) votes r1))
      = match rest with
        | [] => JMap.get k cs
        | _ :: _ =>
            Some (Counted
                    (held 0%nat (JMap.get k cs) + List.length rest)%nat)
        end).
  { intros r1 H2 H3.
    rewrite (IH r1).
    - fold rest. now rewrite H2.
    - intros c Hc1. rewrite H2 in Hc1. now apply Hc.
    - rewrite H2. exact H3. }
  (* a vote filed under [k] adds one *)
  assert (Hnew :
    forall r1,
      JMap.get k (Results.counts r1)
        = Some (Counted (S (held 0%nat (JMap.get k cs)))) ->
      JMap.get k
        (Results.counts
           (fold_left (count_step Number_toString this p) votes r1))
      = Some (Counted
                (held 0%nat (JMap.get k cs) + S (List.length rest))%nat)).
  { intros r1 H2.
    rewrite (IH r1).
    - fold rest. rewrite H2. simpl.
      destruct rest as [|id rest']; simpl; do 2 f_equal; lia.
    - intros c Hc1. rewrite H2 in Hc1. injection Hc1 as <-. eauto.
    - intros _ _. rewrite H2. discriminate. }
  destruct (filed_under Number_toString (Proposal.type p)
              (VoteData.vote (snd e))) as [k'|] eqn:Ef.
  2:{ apply Hsame; auto. }
  destruct (k' =? k) eqn:E.
  2:{ apply String.eqb_neq in E.
      destruct (Proposal.type p =? "yesno"); apply Hsame; simpl; auto;
        unfold bump_count, incr;
        rewrite ?get_bump_other, ?get_add_to_other by assumption; auto. }
  apply String.eqb_eq in E. subst k'. simpl.
  destruct (Proposal.type p =? "yesno") eqn:Ety.
  - apply String.eqb_eq in Ety.
    specialize (Hy Ety ltac:(discriminate)).
    apply Hnew; simpl; unfold bump_count; rewrite get_bump_same.
    destruct (JMap.get k cs) as [c|] eqn:Ec; [|contradiction].
    destruct (Hc c eq_refl) as (n & ->). simpl. do 2 f_equal. lia.
  - apply Hnew; simpl; unfold incr;
      rewrite get_add_to_same by assumption; f_equal.
    apply inherited_false in Hk as [Hk1 Hk2].
    unfold or_zero_plus, lookup. rewrite Hk1, Hk2.
    destruct (JMap.get k cs) as [c|] eqn:Ec; [|reflexivity].
    destruct (Hc c eq_refl) as (n & ->). simpl.
    destruct n; simpl; f_equal; lia.
Qed.

(** The same for [weightedCounts], in a system of positive weights: the
    property ends up holding the number it held plus the weights of the
    voters filed under [k], added one by one in voting order. *)
Lemma weights_loop (this : System.t) (p : Proposal.t) (k : string)
    (votes : JMap.t VoteData.t) (r : Results.t) :
  positive_weights this ->
  inherited k = false ->
  (forall c, JMap.get k (Results.weightedCounts r) = Some c ->
             exists n, c = Counted n /\ zero_or_above n) ->
  (Proposal.type p = "yesno" ->
   voters_under Number_toString (Proposal.type p) k votes <> [] ->
   JMap.get k (Results.weightedCounts r) <> None) ->
  let r' := fold_left (count_step Number_toString this p) votes r in
  let voters := voters_under Number_toString (Proposal.type p) k votes in
  JMap.get k (Results.weightedCounts r')
  = match voters with
    | [] => JMap.get k (Results.weightedCounts r)
    | _ :: _ =>
        Some (Counted
                (add_weights this voters
                   (held Num.zero (JMap.get k (Results.weightedCounts r)))))
    end.
Proof.
  intros Hpos Hk. revert r.
  induction votes as [|e votes IH]; intros r Hw Hy; simpl; [auto|].
  rewrite count_step_filed. cbv zeta.
  rewrite (weight_of_vote_weight _ (positive_nonzero Hpos)).
  unfold voters_under in *. simpl in Hy |- *.
  set (wc := Results.weightedCounts r) in *.
  set (rest :=
         map fst
           (filter (fun e0 : string * VoteData.t =>
                      match filed_under Number_toString (Proposal.type p)
                              (VoteData.vote (snd e0)) with
                      | Some k' => k' =? k
                      | None => false
                      end) votes)) in *.
  (* a vote filed elsewhere leaves the property as it is *)
  assert (Hsame :
    forall r1,
      JMap.get k (Results.weightedCounts r1) = JMap.get k wc ->
      (Proposal.type p = "yesno" -> rest <> [] -> JMap.get k wc <> None) ->
      JMap.get k
        (Results.weightedCounts
           (fold_left (count_step Number_toString this p) votes r1))
      = match rest with
        | [] => JMap.get k wc
        | _ :: _ =>
            Some (Counted
                    (add_weights this rest (held Num.zero (JMap.get k wc))))
        end).
  { intros r1 H1 H3.
    rewrite (IH r1).
    - fold rest. now rewrite H1.
    - intros c Hc1. rewrite H1 in Hc1. now apply Hw.
    - rewrite H1. exact H3. }
  (* a vote filed under [k] adds its weight *)
  pose proof (vote_weight_pos (fst e) Hpos) as Hwe.
  set (x := vote_weight this (fst e)) in *.
  assert (Hnew :
    forall r1,
      JMap.get k (Results.weightedCounts r1)
        = Some (Counted (Num.add (held Num.zero (JMap.get k wc)) x)) ->
      JMap.get k
        (Results.weightedCounts
           (fold_left (count_step Number_toString this p) votes r1))
      = Some (Counted
                (add_weights this (fst e :: rest)
                   (held Num.zero (JMap.get k wc))))).
  { intros r1 H1.
    rewrite (IH r1).
    - fold rest. rewrite H1. simpl.
      destruct rest as [|id rest']; reflexivity.
    - intros c Hc1. rewrite H1 in Hc1. injection Hc1 as <-.
      eexists. split; [reflexivity|]. right.
      apply NumFacts.zero_or_above_add; [|exact Hwe].
      destruct (JMap.get k wc) as [c|] eqn:Ec; [|now left].
      destruct (Hw c eq_refl) as (n & -> & Hn). exact Hn.
    - intros _ _. rewrite H1. discriminate. }
  destruct (filed_under Number_toString (Proposal.type p)
              (VoteData.vote (snd e))) as [k'|] eqn:Ef.
  2:{ apply Hsame; auto. }
  destruct (k' =? k) eqn:E.
  2:{ apply String.eqb_neq in E.
      destruct (Proposal.type p =? "yesno"); apply Hsame; simpl; auto;
        unfold bump_weight, add_weight;
        rewrite ?get_bump_other, ?get_add_to_other by assumption; auto. }
  apply String.eqb_eq in E. subst k'. simpl.
  destruct (Proposal.type p =? "yesno") eqn:Ety.
  - apply String.eqb_eq in Ety.
    specialize (Hy Ety ltac:(discriminate)).
    apply Hnew; simpl; unfold bump_weight; rewrite get_bump_same.
    destruct (JMap.get k wc) as [c|] eqn:Ec; [|contradiction].
    destruct (Hw c eq_refl) as (n & -> & _). reflexivity.
  - apply Hnew; simpl; unfold add_weight;
      rewrite get_add_to_same by assumption; f_equal.
    apply inherited_false in Hk as [Hk1 Hk2].
    unfold or_zero_plus, lookup. rewrite Hk1, Hk2.
    destruct (JMap.get k wc) as [c|] eqn:Ec; [|reflexivity].
    destruct (Hw c eq_refl) as (n & -> & [->|Hn]); simpl; [reflexivity|].
    now rewrite (NumFacts.above_zero_truthy _ Hn).
Qed.

Lemma voters_under_yesno (p : Proposal.t) (k : string)
    (votes : JMap.t VoteData.t) :
  Proposal.type p = "yesno" ->
  voters_under Number_toString (Proposal.type p) k votes <> [] ->
  In k ["yes"; "no"; "abstain"].
Proof.
  intros Ht Hv. rewrite Ht in Hv. unfold voters_under in Hv.
  destruct (filter _ votes) as [|e l] eqn:Ef; [now contradiction Hv|].
  assert (He : In e (filter
            (fun e0 : string * VoteData.t =>
               match filed_under Number_toString "yesno"
                       (VoteData.vote (snd e0)) with
               | Some k' => k' =? k
               | None => false
               end) votes))
    by (rewrite Ef; simpl; auto).
  apply filter_In in He as [_ He].
  destruct (filed_under Number_toString "yesno" (VoteData.vote (snd e)))
    as [k'|] eqn:Ek; [|discriminate].
  apply String.eqb_eq in He. subst k'.
  now apply filed_under_yesno in Ek.
Qed.

(** What [countVotes] reports as the count under a key that
    [Object.prototype] does not have. *)
Lemma countVotes_counts (this : System.t) (p : Proposal.t) (k : string) :
  inherited k = false ->
  let results := countVotes Number_toString this p in
  let voters :=
    voters_under Number_toString (Proposal.type p) k (Proposal.votes p) in
  JMap.get k (Results.counts results)
  = match voters with
    | [] => JMap.get k (init_counts Number_toString 0%nat p)
    | _ :: _ => Some (Counted (List.length voters))
    end.
Proof.
  intros Hk results voters. subst results voters. unfold countVotes.
  rewrite counts_loop; simpl; auto.
  - destruct (voters_under Number_toString (Proposal.type p) k
                (Proposal.votes p)) as [|id rest] eqn:Ev; [auto|].
    do 2 f_equal.
    destruct (JMap.get k (init_counts Number_toString 0%nat p))
      as [c|] eqn:E; [|reflexivity].
    apply init_counts_zero in E. now subst c.
  - intros c Hc. apply init_counts_zero in Hc. subst c. eauto.
  - intros Ht Hv.
    rewrite (init_counts_yesno _ _ Ht (voters_under_yesno _ _ _ Ht Hv)).
    discriminate.
Qed.

(** What [countVotes] reports as the weighted sum under such a key, in a
    system of positive weights. *)
Lemma countVotes_weights (this : System.t) (p : Proposal.t) (k : string) :
  positive_weights this ->
  inherited k = false ->
  let results := countVotes Number_toString this p in
  let voters :=
    voters_under Number_toString (Proposal.type p) k (Proposal.votes p) in
  JMap.get k (Results.weightedCounts results)
  = match voters with
    | [] => JMap.get k (init_counts Number_toString Num.zero p)
    | _ :: _ => Some (Counted (weight_sum this voters))
    end.
Proof.
  intros Hpos Hk results voters. subst results voters. unfold countVotes.
  rewrite weights_loop; simpl; auto.
  - destruct (voters_under Number_toString (Proposal.type p) k
                (Proposal.votes p)) as [|id rest] eqn:Ev; [auto|].
    do 2 f_equal. unfold weight_sum. f_equal.
    destruct (JMap.get k (init_counts Number_toString Num.zero p))
      as [c|] eqn:E; [|reflexivity].
    apply init_counts_zero in E. now subst c.
  - intros c Hc. apply init_counts_zero in Hc. subst c.
    eexists. split; [reflexivity | now left].
  - intros Ht Hv.
    rewrite (init_counts_yesno _ _ Ht (voters_under_yesno _ _ _ Ht Hv)).
    discriminate.
Qed.

End BreakdownFacts.

(** C9, at a concrete run: three agents vote on a [single] proposal by
    label, and the validator passes each label.  The two voters of the
    label [toString] have weights 1 and 1, so the weighted sum of their
    bucket is 2; under that key [countVotes] reports, for the count and
    for the weighted sum alike, no number but the text of a built-in
    function followed by the two numbers that were added.  The voter of
    [__proto__] has weight 2, and [countVotes] leaves both objects without
    a property of that name.  (The bucket of the first option, which got no
    vote, is reported as the claim says, with count and sum 0.) *)
Theorem countVotes_inherited_keys :
  let w := after print_integer label_calls (new_world (fun _ => 1000%Z)) in
  votes_in w "prop_1"
    = Some [ ("a", JStr "toString", Valid); ("b", JStr "__proto__", Valid);
             ("c", JStr "toString", Valid) ] /\
  option_map (fun w => weight_sum (system w) ["a"; "c"]) w
    = Some (Num.of_Z 2) /\
  reported_in w "prop_1" "toString"
    = Some (Some (Text "function toString() { [native code] }11"),
            Some (Text "function toString() { [native code] }11")) /\
  option_map (fun w => weight_sum (system w) ["b"]) w
    = Some (Num.of_Z 2) /\
  reported_in w "prop_1" "__proto__" = Some (None, None) /\
  reported_in w "prop_1" "0"
    = Some (Some (Counted 0%nat), Some (Counted Num.zero)).
Proof. vm_compute. repeat split. Qed.

(** ** Votes never outnumber the registry *)

(** [formatProposal] returns exactly when the two dates of the proposal
    print; otherwise it throws the [RangeError] of [toISOString]. *)
Lemma formatProposal_printable (this : System.t) (p : Proposal.t) :
  formatProposal this p
  = if printable p then Normal (formatted this p) else Throw RangeError.
Proof.
  unfold formatProposal, toISOString, printable, Date_valid, formatted.
  destruct (Z.abs (Proposal.createdAt p) <=? Date_range)%Z; simpl; auto.
  destruct (Z.abs (Proposal.deadline p) <=? Date_range)%Z; reflexivity.
Qed.

(** The last step of [createProposal] and [vote]: the outcome depends on
    whether the proposal prints, the world does not. *)
Ltac by_format H :=
  match type of H with
  | context [formatProposal ?s ?p] => destruct (formatProposal s p)
  end.

Lemma bind_Some (A B : Type) (m : M A) (k : A -> M B) (w w' : World) (b : B) :
  bind m k w = Some (b, w') ->
  exists a w1, m w = Some (a, w1) /\ k a w1 = Some (b, w').
Proof.
  unfold bind. destruct (m w) as [[a w1]|]; [eauto | discriminate].
Qed.

Lemma ballots_kept_refl (s : System.t) : ballots_kept s s.
Proof. split; eauto. Qed.

Lemma ballots_ok_kept (s s' : System.t) :
  ballots_ok s -> ballots_kept s s' -> ballots_ok s'.
Proof.
  intros [Hnd Hp] [Hk Hv]. split; [now rewrite Hk|].
  intros pid p' Hget. apply Hv in Hget as (p & Hget & Hvotes).
  rewrite Hvotes, Hk. eauto.
Qed.

Lemma kept_mutate (s s' : System.t) (ref : string)
    (f : Proposal.t -> Proposal.t) :
  (forall p, Proposal.votes (f p) = Proposal.votes p) ->
  JMap.keys (System.agents s') = JMap.keys (System.agents s) ->
  System.proposals s' = JMap.update ref f (System.proposals s) ->
  ballots_kept s s'.
Proof.
  intros Hf Ha Hp. split; [exact Ha|]. rewrite Hp.
  intros pid p' Hget.
  destruct (string_dec ref pid) as [<-|Hne].
  - rewrite JMapFacts.get_update_same in Hget.
    destruct (JMap.get ref (System.proposals s)) as [p|]; [|discriminate].
    simpl in Hget. injection Hget as <-. eauto.
  - rewrite JMapFacts.get_update_other in Hget by assumption. eauto.
Qed.

Lemma ok_registered (s s' : System.t) (agentId : string) (agent : Agent.t) :
  System.agents s' = JMap.set agentId agent (System.agents s) ->
  System.proposals s' = System.proposals s ->
  ballots_ok s -> ballots_ok s'.
Proof.
  intros Ha Hpr [Hnd Hp]. split; rewrite Ha.
  - now apply JMapFacts.NoDup_keys_set.
  - rewrite Hpr. intros pid p Hget. apply Hp in Hget as [H1 H2].
    split; auto.
    intros id Hid. apply JMapFacts.In_keys_set. right. now apply H2.
Qed.

Lemma ok_created (s s' : System.t) (proposalId : string) (p : Proposal.t) :
  Proposal.votes p = JMap.empty ->
  System.agents s' = System.agents s ->
  System.proposals s' = JMap.set proposalId p (System.proposals s) ->
  ballots_ok s -> ballots_ok s'.
Proof.
  intros Hempty Ha Hpr [Hnd Hp]. split; rewrite Ha; auto. rewrite Hpr.
  intros pid q Hget.
  destruct (string_dec proposalId pid) as [<-|Hne].
  - rewrite JMapFacts.get_set_same in Hget. injection Hget as <-.
    rewrite Hempty. split; [constructor | intros x []].
  - rewrite JMapFacts.get_set_other in Hget by assumption. eauto.
Qed.

Lemma ok_voted (s s' : System.t) (agentId proposalId : string)
    (vd : VoteData.t) :
  JMap.has agentId (System.agents s) = true ->
  System.agents s' = System.agents s ->
  System.proposals s'
    = JMap.update proposalId (Proposal.votes_set agentId vd)
        (System.proposals s) ->
  ballots_ok s -> ballots_ok s'.
Proof.
  intros Hreg Ha Hpr [Hnd Hp]. apply JMapFacts.has_true_iff in Hreg.
  split; rewrite Ha; auto. rewrite Hpr.
  intros pid q Hget.
  destruct (string_dec proposalId pid) as [<-|Hne].
  - rewrite JMapFacts.get_update_same in Hget.
    destruct (JMap.get proposalId (System.proposals s)) as [p|] eqn:E;
      [|discriminate].
    simpl in Hget. injection Hget as <-. simpl.
    apply Hp in E as [H1 H2]. split.
    + now apply JMapFacts.NoDup_keys_set.
    + intros id Hid. apply JMapFacts.In_keys_set in Hid as [->|Hid]; auto.
  - rewrite JMapFacts.get_update_other in Hget by assumption. eauto.
Qed.

Section ReachFacts.
Variable Number_toString : Q -> string.

Lemma finalizeDecision_kept (proposalId : string) (w w' : World)
    (d : Decision.t) :
  finalizeDecision Number_toString proposalId w = Some (d, w') ->
  ballots_kept (system w) (system w').
Proof.
  intros H.
  destruct (JMap.get proposalId (System.proposals (system w))) as [p|] eqn:E.
  - destruct (finalizeDecision_returns Number_toString _ _ E)
      as (d0 & w0 & Hf & Hp & Hk & _).
    rewrite Hf in H. injection H as <- <-.
    split; [exact Hk|]. rewrite Hp. eauto.
  - unfold finalizeDecision in H. unfold_m. simpl in H.
    rewrite E in H. discriminate.
Qed.

Lemma checkConsensus_kept (proposalId : string) (w w' : World)
    (r : ConsensusStatus) :
  checkConsensus Number_toString proposalId w = Some (r, w') ->
  ballots_kept (system w) (system w').
Proof.
  intros H.
  destruct (JMap.get proposalId (System.proposals (system w))) as [p|] eqn:E.
  - destruct (Z_lt_le_dec (Z.of_nat (JMap.size (Proposal.votes p)))
                (Config.minAgents (System.config (system w)))) as [Hlt|Hge].
    + rewrite (checkConsensus_insufficient Number_toString _ _ E Hlt) in H.
      injection H as <- <-. apply ballots_kept_refl.
    + destruct (checkConsensus_tallied Number_toString _ _ E Hge)
        as (w0 & Hc & Hk & _ & _ & _ & Hp).
      rewrite Hc in H. injection H as <- <-.
      destruct (Tallied.reached (status_object (system w) p)).
      { eapply kept_mutate; [| exact Hk | exact Hp]. reflexivity. }
      destruct (Proposal.deadline p <? clock w (reads w))%Z.
      { eapply kept_mutate; [| exact Hk | exact Hp]. reflexivity. }
      split; [exact Hk|]. rewrite Hp. eauto.
  - unfold checkConsensus in H. unfold bind at 1 in H.
    unfold deref in H. rewrite E in H. discriminate.
Qed.

Lemma perform_ok (c : Call) (w w' : World) :
  perform Number_toString c w = Some (tt, w') ->
  ballots_ok (system w) -> ballots_ok (system w').
Proof.
  intros H Hok. destruct c; simpl in H;
    apply bind_Some in H as (r & w1 & H & Hret);
    unfold ret in Hret; injection Hret as <-.
  - (* registerAgent *)
    unfold registerAgent in H. unfold_m. simpl in H.
    injection H as _ <-.
    eapply ok_registered with (s := system w);
      [reflexivity | reflexivity | exact Hok].
  - (* createProposal *)
    unfold createProposal in H. unfold_m. simpl in H.
    destruct (JMap.has agentId (System.agents (system w))); simpl in H.
    + by_format H; injection H as _ <-;
        (eapply ok_created with (s := system w);
         [| reflexivity | reflexivity | exact Hok]; reflexivity).
    + now injection H as _ <-.
  - (* vote *)
    unfold vote in H.
    apply bind_Some in H as (this & w0 & H0 & H).
    unfold this_ in H0. injection H0 as <- <-.
    destruct (JMap.has agentId (System.agents (system w))) eqn:Hreg;
      simpl in H; [|now injection H as _ <-].
    destruct (JMap.has proposalId (System.proposals (system w)));
      simpl in H; [|now injection H as _ <-].
    apply bind_Some in H as (p & w0 & H0 & H).
    unfold deref in H0.
    destruct (JMap.get proposalId (System.proposals (system w))) as [p0|];
      [|discriminate].
    injection H0 as <- <-.
    destruct (Status_eqb (Proposal.status p0) voting); simpl in H;
      [|now injection H as _ <-].
    apply bind_Some in H as (now & w0 & H0 & H).
    unfold Date_now in H0. injection H0 as <- <-.
    destruct (Proposal.deadline p0 <? clock w (reads w))%Z.
    { unfold_m. simpl in H. injection H as _ <-.
      apply (ballots_ok_kept Hok).
      eapply kept_mutate; [| reflexivity | reflexivity]. reflexivity. }
    destruct (validateVote p0 vote0); [|now injection H as _ <-].
    unfold bind at 1 2 3 4 in H. unfold Date_now at 1 in H.
    unfold mutate at 1, modify at 1 in H. unfold Date_now at 1 in H.
    unfold modify at 1 in H. simpl in H.
    apply bind_Some in H as (res & w2 & Hc & H).
    apply checkConsensus_kept in Hc. simpl in Hc.
    unfold bind, this_, deref, ret in H.
    destruct (JMap.get proposalId (System.proposals (system w2)));
      [|discriminate].
    assert (Hw1 : w1 = w2) by (by_format H; now injection H as _ <-).
    subst w1. clear H.
    refine (ballots_ok_kept _ Hc).
    eapply ok_voted with (s := system w);
      [exact Hreg | reflexivity | reflexivity | exact Hok].
  - (* addComment *)
    unfold addComment in H. unfold_m. simpl in H.
    destruct (JMap.has agentId (System.agents (system w))); simpl in H;
      [|now injection H as _ <-].
    destruct (JMap.has proposalId (System.proposals (system w))); simpl in H;
      [|now injection H as _ <-].
    injection H as _ <-.
    apply (ballots_ok_kept Hok).
    eapply kept_mutate; [| reflexivity | reflexivity]. reflexivity.
  - (* checkConsensus *)
    apply checkConsensus_kept in H. now apply (ballots_ok_kept Hok).
  - (* finalizeDecision *)
    apply finalizeDecision_kept in H. now apply (ballots_ok_kept Hok).
  - (* getVoteSuggestion *)
    unfold getVoteSuggestion in H.
    apply bind_Some in H as (this & w0 & H0 & H).
    unfold this_ in H0. injection H0 as <- <-.
    destruct (JMap.get proposalId (System.proposals (system w))) as [p|];
      [|now injection H as _ <-].
    apply bind_Some in H as (stats & w2 & Hc & H).
    apply checkConsensus_kept in Hc.
    assert (w1 = w2) as ->.
    { destruct (reached stats); [now injection H as _ <-|].
      destruct stats; now injection H as _ <-. }
    now apply (ballots_ok_kept Hok).
Qed.

Lemma reachable_ok (w : World) :
  reachable Number_toString w -> ballots_ok (system w).
Proof.
  induction 1 as [config clock|w w' c _ IH Hstep].
  - split; simpl; [constructor | discriminate].
  - now apply (perform_ok c w).
Qed.

End ReachFacts.

(** C8. In every world reachable by calls of the public methods, every
    stored proposal has at most as many votes as there are registered
    agents. *)
Theorem votes_within_registry
    (Number_toString : Q -> string) (w : World) (proposalId : string)
    (p : Proposal.t) :
  reachable Number_toString w ->
  JMap.get proposalId (System.proposals (system w)) = Some p ->
  (JMap.size (Proposal.votes p) <= JMap.size (System.agents (system w)))%nat.
Proof.
  intros Hreach Hget.
  apply reachable_ok in Hreach as [_ Hp].
  apply Hp in Hget as [Hnd Hincl].
  rewrite !JMapFacts.size_keys.
  now apply NoDup_incl_length.
Qed.

Lemma after_None (Number_toString : Q -> string) (calls : list Call) :
  fold_left
    (fun ow c =>
       match ow with
       | Some w => run (perform Number_toString c) w
       | None => None
       end)
    calls None = None.
Proof. induction calls as [|c calls IH]; simpl; auto. Qed.

Lemma reachable_after (Number_toString : Q -> string) (calls : list Call)
    (w w' : World) :
  reachable Number_toString w ->
  after Number_toString calls w = Some w' ->
  reachable Number_toString w'.
Proof.
  unfold after. revert w.
  induction calls as [|c calls IH]; intros w Hr H; simpl in H.
  - now injection H as <-.
  - unfold run at 2 in H.
    destruct (perform Number_toString c w) as [[[] w1]|] eqn:E.
    + apply (IH w1); [|exact H]. eapply reachable_call; eauto.
    + rewrite after_None in H. discriminate.
Qed.

Lemma votes_within_registry_witness :
  exists p,
    JMap.get "prop_1" (System.proposals (system readme_world)) = Some p /\
    (JMap.size (Proposal.votes p)
       <= JMap.size (System.agents (system readme_world)))%nat.
Proof.
  eexists. split; [vm_compute; reflexivity|].
  apply (@votes_within_registry print_integer readme_world "prop_1");
    [|vm_compute; reflexivity].
  apply (@reachable_after print_integer readme_calls
           (new_world (fun _ => 1000%Z)));
    [apply reachable_new | vm_compute; reflexivity].
Defined.

(** ** Witnesses on a small system *)

Lemma positive_weights_abc (p : Proposal.t) :
  positive_weights (system (world_abc p)).
Proof.
  intros id agent H. simpl in H.
  repeat match type of H with
  | (if ?c then _ else _) = _ =>
      destruct c; [injection H as <-; split; reflexivity|]
  end.
  discriminate.
Qed.

Lemma yesno_accepted_iff_witness :
  exists s w' p',
    checkConsensus print_integer "prop_1" (world_abc yesno_two_yes)
      = Some (Tally s, w') /\
    JMap.get "prop_1" (System.proposals (system w')) = Some p' /\
    (Proposal.status p' = accepted
     <-> Num.leb (Num.decimal 6 1)
           (Num.div
              (weight_sum (system (world_abc yesno_two_yes)) ["a"; "b"])
              (Num.of_nat 3)) = true).
Proof.
  refine (proj2 (@yesno_accepted_iff print_integer (world_abc yesno_two_yes)
                   "prop_1" yesno_two_yes eq_refl eq_refl eq_refl
                   (positive_weights_abc _) _) _).
  - vm_compute. lia.
  - vm_compute. discriminate.
Defined.

Lemma checkConsensus_buckets_witness :
  exists s w',
    checkConsensus print_integer "prop_1" (world_abc single_three_votes)
      = Some (Tally s, w') /\
    Tallied.yesVotes s = 2%nat /\
    Tallied.noVotes s = 1%nat /\
    Tallied.abstainVotes s = 0%nat /\
    Tallied.yesWeight s
      = weight_sum (system (world_abc single_three_votes)) ["a"; "c"] /\
    Tallied.noWeight s
      = weight_sum (system (world_abc single_three_votes)) ["b"].
Proof.
  refine (proj2 (proj2
    (@checkConsensus_buckets print_integer (world_abc single_three_votes)
       "prop_1" single_three_votes eq_refl _
       (positive_nonzero (positive_weights_abc _))))).
  vm_compute. discriminate.
Defined.

(** ** Decided proposals under votes, comments and registrations *)

Lemma checkConsensus_elsewhere (Number_toString : Q -> string)
    (ref other : string) (w w' : World) (r : ConsensusStatus) :
  checkConsensus Number_toString ref w = Some (r, w') ->
  ref <> other ->
  JMap.get other (System.proposals (system w'))
  = JMap.get other (System.proposals (system w)).
Proof.
  intros H Hne.
  destruct (JMap.get ref (System.proposals (system w))) as [p|] eqn:E.
  - destruct (Z_lt_le_dec (Z.of_nat (JMap.size (Proposal.votes p)))
                (Config.minAgents (System.config (system w)))) as [Hlt|Hge].
    + rewrite (checkConsensus_insufficient Number_toString _ _ E Hlt) in H.
      now injection H as <- <-.
    + destruct (checkConsensus_tallied Number_toString _ _ E Hge)
        as (w0 & Hc & _ & _ & _ & _ & Hp).
      rewrite Hc in H. injection H as <- <-. rewrite Hp.
      destruct (Tallied.reached (status_object (system w) p));
        [now apply JMapFacts.get_update_other|].
      destruct (Proposal.deadline p <? clock w (reads w))%Z;
        [now apply JMapFacts.get_update_other | reflexivity].
  - unfold checkConsensus in H. unfold bind at 1 in H.
    unfold deref in H. rewrite E in H. discriminate.
Qed.

(** Votes, comments and registrations leave the status of every proposal
    that is no longer [voting] as it is: [vote] refuses such a proposal
    before it evaluates anything. *)
Lemma decided_status_kept (Number_toString : Q -> string) (c : Call)
    (w w' : World) (proposalId : string) (p : Proposal.t) :
  gentle_call c = true ->
  perform Number_toString c w = Some (tt, w') ->
  JMap.get proposalId (System.proposals (system w)) = Some p ->
  Proposal.status p <> voting ->
  exists p',
    JMap.get proposalId (System.proposals (system w')) = Some p' /\
    Proposal.status p' = Proposal.status p.
Proof.
  intros Hg H Hget Hst. destruct c; try discriminate Hg; simpl in H;
    apply bind_Some in H as (r & w1 & H & Hret);
    unfold ret in Hret; injection Hret as <-.
  - unfold registerAgent in H. unfold_m. simpl in H.
    injection H as _ <-. simpl. eauto.
  - unfold vote in H.
    apply bind_Some in H as (this & w0 & H0 & H).
    unfold this_ in H0. injection H0 as <- <-.
    destruct (JMap.has agentId (System.agents (system w))) eqn:Hreg;
      simpl in H; [|injection H as _ <-; eauto].
    destruct (JMap.has proposalId0 (System.proposals (system w)));
      simpl in H; [|injection H as _ <-; eauto].
    apply bind_Some in H as (p0' & w0 & H0 & H).
    unfold deref in H0.
    destruct (JMap.get proposalId0 (System.proposals (system w)))
      as [p0|] eqn:E0; [|discriminate].
    injection H0 as <- <-.
    destruct (Status_eqb (Proposal.status p0) voting) eqn:Ev; simpl in H;
      [|injection H as _ <-; eauto].
    assert (Hne : proposalId0 <> proposalId).
    { intros ->. rewrite Hget in E0. injection E0 as <-.
      destruct (Proposal.status p); try discriminate. now apply Hst. }
    apply bind_Some in H as (now & w0 & H0 & H).
    unfold Date_now in H0. injection H0 as <- <-.
    destruct (Proposal.deadline p0 <? clock w (reads w))%Z.
    { unfold_m. simpl in H. injection H as _ <-. simpl.
      rewrite JMapFacts.get_update_other by assumption. eauto. }
    destruct (validateVote p0 vote0); [|injection H as _ <-; eauto].
    unfold bind at 1 2 3 4 in H. unfold Date_now at 1 in H.
    unfold mutate at 1, modify at 1 in H. unfold Date_now at 1 in H.
    unfold modify at 1 in H. simpl in H.
    apply bind_Some in H as (res & w2 & Hc & H).
    apply checkConsensus_elsewhere with (other := proposalId) in Hc;
      [|assumption].
    simpl in Hc. rewrite JMapFacts.get_update_other in Hc by assumption.
    unfold bind, this_, deref, ret in H.
    destruct (JMap.get proposalId0 (System.proposals (system w2)));
      [|discriminate].
    assert (Hw1 : w1 = w2) by (by_format H; now injection H as _ <-).
    subst w1. clear H. rewrite Hc. eauto.
  - unfold addComment in H. unfold_m. simpl in H.
    destruct (JMap.has agentId (System.agents (system w))); simpl in H;
      [|injection H as _ <-; eauto].
    destruct (JMap.has proposalId0 (System.proposals (system w))); simpl in H;
      [|injection H as _ <-; eauto].
    injection H as _ <-. simpl.
    destruct (string_dec proposalId0 proposalId) as [->|Hne].
    + rewrite JMapFacts.get_update_same, Hget. simpl. eauto.
    + rewrite JMapFacts.get_update_other by assumption. eauto.
Qed.

(** ** Re-evaluating a decided proposal *)

(** C2, at the README session: the third vote accepts the proposal and
    finalization runs once; the call of [checkConsensus] that the README
    makes next runs it again, leaving two decisions on the proposal in the
    store and in the history, and every counter of every voter incremented
    twice. *)
Theorem readme_session_finalizes_twice :
  let w := after print_integer readme_calls (new_world (fun _ => 1000%Z)) in
  let w' := after print_integer
              (readme_calls ++ [Call_checkConsensus "prop_1"])
              (new_world (fun _ => 1000%Z)) in
  status_in w "prop_1" = Some accepted /\
  decisions_on w "prop_1" = Some (1, 1)%nat /\
  counters_of w "alpha" = Some (1, 1, 0)%nat /\
  counters_of w "beta" = Some (1, 0, 1)%nat /\
  status_in w' "prop_1" = Some accepted /\
  decisions_on w' "prop_1" = Some (2, 2)%nat /\
  counters_of w' "alpha" = Some (2, 2, 0)%nat /\
  counters_of w' "beta" = Some (2, 0, 2)%nat.
Proof. vm_compute. repeat split. Qed.

(** C4, at a concrete run: a proposal accepted by two agents is
    [rejected] after two more agents register, the deadline passes and a
    vote suggestion is asked for; a second decision is recorded. *)
Theorem accepted_proposal_rejected_later :
  let w := after print_integer accept_calls (new_world late_clock) in
  let w' := after print_integer (accept_calls ++ dilute_calls)
              (new_world late_clock) in
  status_in w "prop_1" = Some accepted /\
  decisions_on w "prop_1" = Some (1, 1)%nat /\
  status_in w' "prop_1" = Some rejected /\
  decisions_on w' "prop_1" = Some (2, 2)%nat.
Proof. vm_compute. repeat split. Qed.

(** * Further properties of the methods *)

(** ** More facts about [JMap] *)

Lemma size_set_absent (V : Type) (k : string) (v : V) (m : JMap.t V) :
  JMap.has k m = false -> JMap.size (JMap.set k v m) = S (JMap.size m).
Proof.
  intros H.
  assert (Hn : ~ In k (JMap.keys m)).
  { intros Hin. apply JMapFacts.has_true_iff in Hin. congruence. }
  rewrite !JMapFacts.size_keys, JMapFacts.keys_set_absent by assumption.
  rewrite length_app. simpl. lia.
Qed.


(** ** Votes that are refused *)

(** The checks of [vote] come in a fixed order, and a vote they refuse
    leaves the world as it is: an unregistered agent is told so whatever
    else is wrong; then a missing proposal is reported; then a proposal
    that is no longer [voting]. *)
Theorem vote_refusals
    (Number_toString : Q -> string) (w : World)
    (agentId proposalId : string) (v : jsval) (comment : option string) :
  (JMap.has agentId (System.agents (system w)) = false ->
   vote Number_toString agentId proposalId v comment w
     = Some (Failure AgentNotFound, w)) /\
  (JMap.has agentId (System.agents (system w)) = true ->
   JMap.has proposalId (System.proposals (system w)) = false ->
   vote Number_toString agentId proposalId v comment w
     = Some (Failure ProposalNotFound, w)) /\
  (forall p,
     JMap.has agentId (System.agents (system w)) = true ->
     JMap.get proposalId (System.proposals (system w)) = Some p ->
     Proposal.status p <> voting ->
     vote Number_toString agentId proposalId v comment w
       = Some (Failure ProposalNotVoting, w)).
Proof.
  split; [|split].
  - intros H. unfold vote. unfold_m. now rewrite H.
  - intros H1 H2. unfold vote. unfold_m. now rewrite H1, H2.
  - intros p H1 H2 H3. unfold vote. unfold_m.
    rewrite H1. simpl. rewrite (has_get _ _ H2). simpl. rewrite H2.
    destruct (Proposal.status p); simpl; try reflexivity.
    now contradiction H3.
Qed.

(** A vote that fails for any reason but the passed deadline changes
    nothing in the system: validation comes before every mutation. *)
Theorem failed_vote_keeps_system
    (Number_toString : Q -> string) (w w' : World)
    (agentId proposalId : string) (v : jsval) (comment : option string)
    (error : string) :
  vote Number_toString agentId proposalId v comment w
    = Some (Failure error, w') ->
  error <> ExpiredProposal ->
  system w' = system w.
Proof.
  intros H Hne. unfold vote in H.
  apply bind_Some in H as (this & w0 & H0 & H).
  unfold this_ in H0. injection H0 as <- <-.
  destruct (JMap.has agentId (System.agents (system w)));
    simpl in H; [|now injection H as _ <-].
  destruct (JMap.has proposalId (System.proposals (system w)));
    simpl in H; [|now injection H as _ <-].
  apply bind_Some in H as (p & w0 & H0 & H).
  unfold deref in H0.
  destruct (JMap.get proposalId (System.proposals (system w))) as [p0|];
    [|discriminate].
  injection H0 as <- <-.
  destruct (Status_eqb (Proposal.status p0) voting); simpl in H;
    [|now injection H as _ <-].
  apply bind_Some in H as (now & w0 & H0 & H).
  unfold Date_now in H0. injection H0 as <- <-.
  destruct (Proposal.deadline p0 <? clock w (reads w))%Z.
  { unfold_m. simpl in H. injection H as E _. now contradiction Hne. }
  destruct (validateVote p0 v); [|now injection H as _ <-].
  exfalso.
  repeat (apply bind_Some in H as (? & ? & _ & H)).
  by_format H; discriminate H.
Qed.

Lemma failed_vote_keeps_system_witness :
  exists w',
    vote print_integer "a" "prop_1" (JNum 3) None (world_abc yesno_two_yes)
      = Some (Failure YesNoNeeded, w') /\
    system w' = system (world_abc yesno_two_yes).
Proof.
  assert (H : vote print_integer "a" "prop_1" (JNum 3) None
                (world_abc yesno_two_yes)
              = Some (Failure YesNoNeeded,
                      mkWorld (system (world_abc yesno_two_yes))
                              (clock (world_abc yesno_two_yes)) 1))
    by reflexivity.
  eexists. split; [exact H|].
  apply (@failed_vote_keeps_system print_integer _ _ _ _ _ _ _ H).
  unfold YesNoNeeded, ExpiredProposal. discriminate.
Defined.

(** ** Votes that are recorded *)

(** A valid vote of a registered agent on a [voting] proposal, before the
    deadline, is recorded: afterwards the proposal holds this vote for the
    agent, the votes of the other agents are untouched, the number of
    votes grows by one for a first vote and stays for a repeated one (the
    last vote wins), and the vote record of the system is filed under
    [proposalId_agentId].  The call then reports success, with the new
    count in the returned proposal, when the two dates of the proposal
    print; when one of them is out of the range of [Date] it throws a
    [RangeError], with the vote recorded all the same. *)
Theorem vote_records
    (Number_toString : Q -> string) (w : World)
    (agentId proposalId : string) (v : jsval) (comment : option string)
    (p : Proposal.t) :
  JMap.has agentId (System.agents (system w)) = true ->
  JMap.get proposalId (System.proposals (system w)) = Some p ->
  Proposal.status p = voting ->
  (clock w (reads w) <= Proposal.deadline p)%Z ->
  validateVote p v = Valid ->
  exists outcome w' p',
    vote Number_toString agentId proposalId v comment w
      = Some (outcome, w') /\
    JMap.get proposalId (System.proposals (system w')) = Some p' /\
    JMap.get agentId (Proposal.votes p')
      = Some (VoteData.mk v (param comment "") (clock w (S (reads w)))) /\
    (forall other, other <> agentId ->
       JMap.get other (Proposal.votes p')
       = JMap.get other (Proposal.votes p)) /\
    JMap.size (Proposal.votes p')
      = (if JMap.has agentId (Proposal.votes p)
         then JMap.size (Proposal.votes p)
         else S (JMap.size (Proposal.votes p))) /\
    JMap.get (proposalId ++ "_" ++ agentId) (System.votes (system w'))
      = Some (VoteData.mk v (param comment "") (clock w (S (S (reads w))))) /\
    (if printable p then
       exists ok,
         outcome = Success ok /\
         Formatted.voteCount (VoteOk.proposal ok)
           = JMap.size (Proposal.votes p') /\
         Formatted.status (VoteOk.proposal ok) = Proposal.status p'
     else outcome = Thrown RangeError).
Proof.
  intros Hreg Hget Hst Hdl Hvalid.
  set (vd := VoteData.mk v (param comment "") (clock w (S (reads w)))).
  set (p2 := Proposal.votes_set agentId vd p).
  set (w2 := mkWorld
               (System.set_votes
                  (JMap.set (proposalId ++ "_" ++ agentId)
                     (VoteData.mk v (param comment "")
                        (clock w (S (S (reads w)))))
                     (System.votes (system w)))
                  (System.set_proposals
                     (JMap.update proposalId
                        (Proposal.votes_set agentId vd)
                        (System.proposals (system w)))
                     (system w)))
               (clock w) (S (S (S (reads w))))).
  assert (Hget2 : JMap.get proposalId (System.proposals (system w2)) = Some p2).
  { simpl. now rewrite JMapFacts.get_update_same, Hget. }
  assert (Hcheck : exists res w' p',
             checkConsensus Number_toString proposalId w2 = Some (res, w') /\
             JMap.get proposalId (System.proposals (system w')) = Some p' /\
             Proposal.votes p' = Proposal.votes p2 /\
             printable p' = printable p /\
             System.votes (system w') = System.votes (system w2)).
  { destruct (Z_lt_le_dec (Z.of_nat (JMap.size (Proposal.votes p2)))
                (Config.minAgents (System.config (system w2)))) as [Hlt|Hge].
    - exists (NotReached InsufficientVotes), w2, p2.
      rewrite (checkConsensus_insufficient Number_toString _ _ Hget2 Hlt).
      auto.
    - destruct (checkConsensus_tallied Number_toString _ _ Hget2 Hge)
        as (w' & Hc & _ & Hv & _ & _ & Hp).
      exists (Tally (status_object (system w2) p2)), w'.
      destruct (Tallied.reached (status_object (system w2) p2)).
      + exists (Proposal.set_status accepted p2).
        rewrite Hp, JMapFacts.get_update_same, Hget2. auto.
      + destruct (Proposal.deadline p2 <? clock w2 (reads w2))%Z.
        * exists (Proposal.set_status rejected p2).
          rewrite Hp, JMapFacts.get_update_same, Hget2. auto.
        * exists p2. rewrite Hp. auto. }
  destruct Hcheck as (res & w' & p' & Hc & Hget' & Hvotes & Hprint & Hsys).
  assert (Hvote : vote Number_toString agentId proposalId v comment w
                  = Some (match formatProposal (system w') p' with
                          | Normal f => Success (VoteOk.mk f res)
                          | Throw e => Thrown e
                          end, w')).
  { unfold vote. unfold bind at 1. unfold this_ at 1.
    rewrite Hreg. simpl. rewrite (has_get _ _ Hget). simpl.
    unfold bind at 1. unfold deref at 1. rewrite Hget, Hst. simpl.
    unfold bind at 1. unfold Date_now at 1.
    apply Z.ltb_ge in Hdl. simpl. rewrite Hdl, Hvalid.
    unfold bind at 1 2 3 4. unfold Date_now at 1.
    unfold mutate at 1, modify at 1. unfold Date_now at 1.
    unfold modify at 1. simpl.
    match goal with |- _ ?wx = _ => change wx with w2 end.
    unfold bind at 1. rewrite Hc.
    unfold bind, this_, deref, ret. rewrite Hget'.
    now destruct (formatProposal (system w') p'). }
  eexists; exists w', p'.
  split; [exact Hvote|]. split; [exact Hget'|].
  rewrite Hvotes. unfold p2. simpl.
  split; [apply JMapFacts.get_set_same|].
  split; [intros other Hne; apply JMapFacts.get_set_other; congruence|].
  split.
  { destruct (JMap.has agentId (Proposal.votes p)) eqn:E.
    - now apply JMapFacts.size_set_present.
    - now apply size_set_absent. }
  split.
  { rewrite Hsys. simpl. apply JMapFacts.get_set_same. }
  rewrite formatProposal_printable, Hprint.
  destruct (printable p); [|reflexivity].
  eexists. split; [reflexivity|]. simpl.
  split; [now rewrite Hvotes | reflexivity].
Qed.

Lemma vote_records_witness :
  exists outcome w' p',
    vote print_integer "c" "prop_1" (JStr "no") None (world_abc yesno_two_yes)
      = Some (outcome, w') /\
    JMap.get "prop_1" (System.proposals (system w')) = Some p' /\
    JMap.get "c" (Proposal.votes p')
      = Some (VoteData.mk (JStr "no") "" 2000) /\
    JMap.size (Proposal.votes p') = 3%nat /\
    exists ok, outcome = Success ok.
Proof.
  destruct (@vote_records print_integer (world_abc yesno_two_yes)
              "c" "prop_1" (JStr "no") None yesno_two_yes
              eq_refl eq_refl eq_refl)
    as (outcome & w' & p' & H1 & H2 & H3 & _ & H5 & _ & H7).
  - vm_compute. discriminate.
  - reflexivity.
  - exists outcome, w', p'. repeat (split; [assumption|]).
    simpl in H7. destruct H7 as (ok & H7 & _). eauto.
Defined.

(** ** Creating proposals and commenting *)


(** [addComment] refuses an unregistered agent, then a missing proposal,
    changing nothing; otherwise it appends the comment, stamped with the
    name of the agent and the clock, to the comments of the proposal, in
    whatever status the proposal is, and leaves its status and votes
    alone. *)
Theorem addComment_outcomes
    (w : World) (agentId proposalId comment : string) :
  let this := system w in
  if JMap.has agentId (System.agents this) then
    match JMap.get proposalId (System.proposals this) with
    | Some p =>
        exists w' p',
          addComment agentId proposalId comment w
            = Some (Success comment, w') /\
          JMap.get proposalId (System.proposals (system w')) = Some p' /\
          Proposal.comments p'
            = (Proposal.comments p
               ++ [Comment.mk agentId (getAgentName this agentId) comment
                     (clock w (reads w))])%list /\
          Proposal.status p' = Proposal.status p /\
          Proposal.votes p' = Proposal.votes p /\
          (forall other, other <> proposalId ->
             JMap.get other (System.proposals (system w'))
             = JMap.get other (System.proposals this)) /\
          System.agents (system w') = System.agents this /\
          System.consensusHistory (system w') = System.consensusHistory this
    | None =>
        addComment agentId proposalId comment w
          = Some (Failure ProposalNotFound, w)
    end
  else
    addComment agentId proposalId comment w
      = Some (Failure AgentNotFound, w).
Proof.
  intros this. subst this. unfold addComment. unfold_m.
  destruct (JMap.has agentId (System.agents (system w))); simpl;
    [|now destruct w].
  unfold JMap.has.
  destruct (JMap.get proposalId (System.proposals (system w))) as [p|] eqn:E;
    simpl; [|now destruct w].
  do 2 eexists. split; [reflexivity|]. simpl.
  rewrite JMapFacts.get_update_same, E. simpl.
  split; [reflexivity|]. repeat split.
  intros other Hne. apply JMapFacts.get_update_other. congruence.
Qed.

(** ** The shapes the validator asks for *)

(** On a [multi] or [ranked] proposal a vote is valid exactly when it is
    an array, whatever the array holds; on a [yesno] proposal exactly when
    it is one of ["yes"], ["no"], [true], [false].  Each refusal carries
    the message of its type. *)
Theorem validateVote_shapes (p : Proposal.t) (v : jsval) :
  (Proposal.type p = "multi" ->
   (validateVote p v = Valid <-> exists l, v = JArr l) /\
   (validateVote p v = Valid \/ validateVote p v = Invalid MultiNeedsArray)) /\
  (Proposal.type p = "ranked" ->
   (validateVote p v = Valid <-> exists l, v = JArr l) /\
   (validateVote p v = Valid \/ validateVote p v = Invalid RankedNeedsArray)) /\
  (Proposal.type p = "yesno" ->
   (validateVote p v = Valid
    <-> v = JStr "yes" \/ v = JStr "no" \/ v = JBool true \/ v = JBool false) /\
   (validateVote p v = Valid \/ validateVote p v = Invalid YesNoNeeded)).
Proof.
  unfold validateVote. split; [|split]; intros ->; simpl.
  - destruct v; simpl; split; try (right; reflexivity); try (left; reflexivity);
      split; intros H; try discriminate; break_hyps; eauto.
  - destruct v; simpl; split; try (right; reflexivity); try (left; reflexivity);
      split; intros H; try discriminate; break_hyps; eauto.
  - destruct v as [| |[|]|n|s|l]; simpl;
      try (split; [split; intros H; [discriminate | break_hyps]
                  | right; reflexivity]);
      try (split; [split; auto | left; reflexivity]).
    destruct (s =? "yes") eqn:Ey; simpl.
    + apply String.eqb_eq in Ey. subst s. split; [split; auto | auto].
    + destruct (s =? "no") eqn:En; simpl.
      * apply String.eqb_eq in En. subst s. split; [split; auto | auto].
      * apply String.eqb_neq in Ey. apply String.eqb_neq in En.
        split; [|auto]. split; intros H; [discriminate|].
        destruct H as [H|[H|[H|H]]]; try discriminate;
          injection H as ->; contradiction.
Qed.

(** ** What the tally adds up to *)

Lemma tally_counts (this : System.t) (p : Proposal.t)
    (votes : JMap.t VoteData.t) (acc : Acc.t) :
  let r := fold_left (tally_step this p) votes acc in
  let type := Proposal.type p in
  Acc.yesVotes r
    = (Acc.yesVotes acc + List.length (voters_in type Yes votes))%nat /\
  Acc.noVotes r
    = (Acc.noVotes acc + List.length (voters_in type No votes))%nat /\
  Acc.abstainVotes r
    = (Acc.abstainVotes acc + List.length (voters_in type Abstain votes))%nat.
Proof.
  revert acc. induction votes as [|e votes IH]; intros acc; simpl.
  - repeat split; lia.
  - specialize (IH (tally_step this p acc e)). simpl in IH.
    destruct IH as (H1 & H2 & H3). rewrite H1, H2, H3.
    rewrite tally_step_bucket. unfold voters_in. simpl.
    destruct (bucket_of (Proposal.type p) (VoteData.vote (snd e)))
      as [[| |]|]; simpl; repeat split; lia.
Qed.

Lemma bucket_of_tallied (type : string) (v : jsval) :
  if tallied_type type then exists b, bucket_of type v = Some b
  else bucket_of type v = None.
Proof.
  unfold tallied_type, bucket_of.
  destruct ((type =? "yesno") || (type =? "single")); simpl.
  - destruct v as [| |[|]|n|s|l]; eauto.
    + destruct (Qeq_bool n 0); eauto. destruct (Qeq_bool n 1); eauto.
    + destruct (s =? "yes"); eauto. destruct (s =? "no"); eauto.
  - destruct (type =? "multi"); auto.
    destruct v as [| |[|]|n|s|l]; eauto.
    destruct (existsb _ l); eauto.
Qed.

Lemma bucket_of_multi (v : jsval) : bucket_of "multi" v <> Some Abstain.
Proof.
  unfold bucket_of. simpl.
  destruct v as [| |[|]|n|s|l]; try discriminate.
  destruct (existsb _ l); discriminate.
Qed.

Lemma voters_in_partition (type : string) (votes : JMap.t VoteData.t) :
  (List.length (voters_in type Yes votes)
   + List.length (voters_in type No votes)
   + List.length (voters_in type Abstain votes))%nat
  = if tallied_type type then List.length votes else 0%nat.
Proof.
  unfold voters_in.
  induction votes as [|e votes IH]; simpl.
  - now destruct (tallied_type type).
  - pose proof (bucket_of_tallied type (VoteData.vote (snd e))) as Hb.
    destruct (tallied_type type).
    + destruct Hb as [[| |] ->]; simpl; lia.
    + rewrite Hb. simpl. exact IH.
Qed.

Lemma voters_in_multi_abstain (votes : JMap.t VoteData.t) :
  voters_in "multi" Abstain votes = [].
Proof.
  unfold voters_in. induction votes as [|e votes IH]; simpl; auto.
  pose proof (bucket_of_multi (VoteData.vote (snd e))) as Hm.
  destruct (bucket_of "multi" (VoteData.vote (snd e))) as [[| |]|];
    simpl; auto.
  exfalso. now apply Hm.
Qed.

(** The three counts of the tally add up to the number of votes on a
    [yesno], [single] or [multi] proposal, a [multi] proposal has no
    abstentions, and on every other type of proposal (so on [ranked]) no
    vote is counted at all. *)
Theorem tally_partition (this : System.t) (p : Proposal.t) :
  let s := status_object this p in
  Tallied.totalVotes s = JMap.size (Proposal.votes p) /\
  (Tallied.yesVotes s + Tallied.noVotes s + Tallied.abstainVotes s)%nat
    = (if tallied_type (Proposal.type p) then Tallied.totalVotes s
       else 0%nat) /\
  (Proposal.type p = "multi" -> Tallied.abstainVotes s = 0%nat).
Proof.
  intros s. subst s. unfold status_object. simpl.
  destruct (tally_counts this p (Proposal.votes p) Acc.zero) as (H1 & H2 & H3).
  simpl in H1, H2, H3. rewrite H1, H2, H3.
  split; [reflexivity|]. split.
  - apply voters_in_partition.
  - intros Ht. rewrite Ht. now rewrite voters_in_multi_abstain.
Qed.

Lemma no_yes_no_weight (this : System.t) (p : Proposal.t)
    (votes : JMap.t VoteData.t) (acc : Acc.t) :
  (Acc.yesVotes acc = 0%nat -> Acc.yesWeight acc = Num.zero) ->
  Acc.yesVotes (fold_left (tally_step this p) votes acc) = 0%nat ->
  Acc.yesWeight (fold_left (tally_step this p) votes acc) = Num.zero.
Proof.
  revert acc. induction votes as [|e votes IH]; intros acc Hacc; simpl; auto.
  apply IH. rewrite tally_step_bucket.
  destruct (bucket_of (Proposal.type p) (VoteData.vote (snd e)))
    as [[| |]|]; simpl; auto. discriminate.
Qed.

Lemma no_yes_not_reached (this : System.t) (p : Proposal.t) :
  Num.ltb Num.zero (Proposal.requiredConsensus p) = true ->
  Tallied.yesVotes (status_object this p) = 0%nat ->
  Tallied.reached (status_object this p) = false.
Proof.
  intros Hpos Hno. unfold status_object in *. simpl in *.
  rewrite (no_yes_no_weight this p (Proposal.votes p) Acc.zero
             (fun _ => eq_refl) Hno).
  apply NumFacts.falsy_not_reached; [exact Hpos|].
  match goal with
  | |- Num.falsy (if ?c then _ else _) = true =>
      destruct c; [apply NumFacts.zero_div_falsy | reflexivity]
  end.
Qed.

Lemma checkConsensus_not_reached (Number_toString : Q -> string)
    (w w' : World) (proposalId : string) (p : Proposal.t)
    (r : ConsensusStatus) :
  JMap.get proposalId (System.proposals (system w)) = Some p ->
  Tallied.reached (status_object (system w) p) = false ->
  checkConsensus Number_toString proposalId w = Some (r, w') ->
  reached r = false /\
  exists p',
    JMap.get proposalId (System.proposals (system w')) = Some p' /\
    (Proposal.status p' = Proposal.status p
     \/ Proposal.status p' = rejected).
Proof.
  intros Hget Hnot H.
  destruct (Z_lt_le_dec (Z.of_nat (JMap.size (Proposal.votes p)))
              (Config.minAgents (System.config (system w)))) as [Hlt|Hge].
  - rewrite (checkConsensus_insufficient Number_toString _ _ Hget Hlt) in H.
    injection H as <- <-. split; [reflexivity|]. eauto.
  - destruct (checkConsensus_tallied Number_toString _ _ Hget Hge)
      as (w0 & Hc & _ & _ & _ & _ & Hp).
    rewrite Hc in H. injection H as <- <-.
    split; [exact Hnot|]. rewrite Hnot in Hp. rewrite Hp.
    destruct (Proposal.deadline p <? clock w (reads w))%Z.
    + exists (Proposal.set_status rejected p).
      rewrite JMapFacts.get_update_same, Hget. auto.
    + eauto.
Qed.


(** A proposal of a type the tally does not read ([ranked], or any type
    other than [yesno], [single], [multi]) can never be accepted while its
    required consensus is positive, whatever the votes and the weights:
    consensus evaluation leaves it as it is or rejects it. *)
Theorem untallied_type_never_accepted
    (Number_toString : Q -> string) (w w' : World) (proposalId : string)
    (p : Proposal.t) (r : ConsensusStatus) :
  JMap.get proposalId (System.proposals (system w)) = Some p ->
  tallied_type (Proposal.type p) = false ->
  Num.ltb Num.zero (Proposal.requiredConsensus p) = true ->
  checkConsensus Number_toString proposalId w = Some (r, w') ->
  reached r = false /\
  exists p',
    JMap.get proposalId (System.proposals (system w')) = Some p' /\
    (Proposal.status p' = Proposal.status p
     \/ Proposal.status p' = rejected).
Proof.
  intros Hget Hty Hpos H.
  eapply checkConsensus_not_reached; [exact Hget | | exact H].
  apply no_yes_not_reached; auto.
  unfold status_object. simpl.
  destruct (tally_counts (system w) p (Proposal.votes p) Acc.zero)
    as (H1 & _). simpl in H1. rewrite H1.
  pose proof (voters_in_partition (Proposal.type p) (Proposal.votes p)) as Hp.
  rewrite Hty in Hp. lia.
Qed.


Lemma untallied_type_never_accepted_witness :
  exists r w',
    checkConsensus print_integer "prop_1" (world_abc ranked_two_votes)
      = Some (r, w') /\
    reached r = false.
Proof.
  destruct (checkConsensus print_integer "prop_1" (world_abc ranked_two_votes))
    as [[r w']|] eqn:E; [|vm_compute in E; discriminate].
  exists r, w'. split; [reflexivity|].
  apply (@untallied_type_never_accepted print_integer
           (world_abc ranked_two_votes) w' "prop_1" ranked_two_votes r
           eq_refl eq_refl eq_refl E).
Defined.

(** ** What finalization records *)

Lemma get_absent (V : Type) (k : string) (m : JMap.t V) :
  ~ In k (JMap.keys m) -> JMap.get k m = None.
Proof.
  intros H. destruct (JMap.get k m) eqn:E; auto.
  apply JMapFacts.get_Some_In in E. contradiction.
Qed.

Lemma credit_loop_get (p : Proposal.t) (votes : JMap.t VoteData.t)
    (agents : JMap.t Agent.t) (a : string) :
  NoDup (JMap.keys votes) ->
  JMap.get a
    (fold_left
       (fun agents (entry : string * VoteData.t) =>
          JMap.update (fst entry) (credit p (VoteData.vote (snd entry))) agents)
       votes agents)
  = match JMap.get a votes with
    | Some vd => option_map (credit p (VoteData.vote vd)) (JMap.get a agents)
    | None => JMap.get a agents
    end.
Proof.
  revert agents. induction votes as [|[k vd] votes IH]; intros agents Hnd;
    simpl; auto.
  inversion Hnd as [|k' l Hnotin Hnd']. subst.
  rewrite IH by assumption.
  destruct (String.eqb k a) eqn:E.
  - apply String.eqb_eq in E. subst k.
    rewrite (get_absent _ _ Hnotin).
    apply JMapFacts.get_update_same.
  - apply String.eqb_neq in E.
    rewrite (JMapFacts.get_update_other _ _ E). reflexivity.
Qed.

(** One run of [finalizeDecision] on a stored proposal whose voters are
    distinct: it returns a decision numbered by the counter that copies
    the status, the voters in voting order, the breakdown and the ratio of
    the proposal; the decision is appended to the history and stored under
    its id, and the counter advances.  Every registered voter is credited
    exactly once, one participation each, and on a [yesno] or [single]
    proposal one agreement for a yes vote or one disagreement for any
    other vote; agents that did not vote keep their profile, and nobody's
    weight or reputation changes. *)
Theorem finalizeDecision_effect
    (Number_toString : Q -> string) (w : World) (proposalId : string)
    (p : Proposal.t) :
  JMap.get proposalId (System.proposals (system w)) = Some p ->
  NoDup (JMap.keys (Proposal.votes p)) ->
  exists d w',
    finalizeDecision Number_toString proposalId w = Some (d, w') /\
    d = Decision.mk
          ("decision_" ++ print_nat Number_toString
                            (System.decisionIdCounter (system w)))
          (Proposal.id p) (Proposal.title p) (Proposal.description p)
          (Proposal.status p) (countVotes Number_toString (system w) p)
          (JMap.keys (Proposal.votes p)) (clock w (reads w))
          (calculateConsensusRatio p) /\
    System.consensusHistory (system w')
      = (System.consensusHistory (system w) ++ [d])%list /\
    JMap.get (Decision.id d) (System.decisions (system w')) = Some d /\
    System.decisionIdCounter (system w')
      = S (System.decisionIdCounter (system w)) /\
    System.proposals (system w') = System.proposals (system w) /\
    (forall a,
       JMap.get a (System.agents (system w'))
       = match JMap.get a (Proposal.votes p) with
         | Some vd =>
             option_map (credit p (VoteData.vote vd))
                        (JMap.get a (System.agents (system w)))
         | None => JMap.get a (System.agents (system w))
         end) /\
    (forall v agent,
       let credited := credit p v agent in
       let counted :=
         (Proposal.type p =? "yesno") || (Proposal.type p =? "single") in
       Agent.participatedDecisions credited
         = S (Agent.participatedDecisions agent) /\
       Agent.agreedDecisions credited
         = (if counted && says_yes v then S (Agent.agreedDecisions agent)
            else Agent.agreedDecisions agent) /\
       Agent.disagreedDecisions credited
         = (if counted && negb (says_yes v)
            then S (Agent.disagreedDecisions agent)
            else Agent.disagreedDecisions agent) /\
       Agent.weight credited = Agent.weight agent /\
       Agent.reputation credited = Agent.reputation agent /\
       Agent.id credited = Agent.id agent).
Proof.
  intros Hget Hnd. unfold finalizeDecision. unfold_m. simpl. rewrite Hget.
  do 2 eexists. split; [reflexivity|]. simpl.
  split; [reflexivity|]. split; [reflexivity|].
  split; [apply JMapFacts.get_set_same|].
  split; [reflexivity|]. split; [reflexivity|]. split.
  - intros a. now apply credit_loop_get.
  - intros v agent. unfold credit.
    destruct ((Proposal.type p =? "yesno") || (Proposal.type p =? "single"));
      simpl; [destruct (says_yes v)|]; simpl; repeat split.
Qed.

Lemma finalizeDecision_effect_witness :
  exists d w',
    finalizeDecision print_integer "prop_1" (world_abc yesno_two_yes)
      = Some (d, w') /\
    Decision.participants d = ["a"; "b"] /\
    JMap.get "c" (System.agents (system w'))
      = JMap.get "c" (System.agents (system (world_abc yesno_two_yes))).
Proof.
  destruct (@finalizeDecision_effect print_integer (world_abc yesno_two_yes)
              "prop_1" yesno_two_yes eq_refl)
    as (d & w' & H1 & H2 & _ & _ & _ & _ & H7 & _).
  - repeat constructor; simpl; intuition discriminate.
  - exists d, w'. split; [exact H1|]. split; [now rewrite H2|].
    exact (H7 "c").
Defined.

(** ** The ratio stored in a decision *)

Lemma yes_count_loop (p : Proposal.t) (votes : JMap.t VoteData.t) (n : nat) :
  fold_left
    (fun (yesVotes : nat) (entry : string * VoteData.t) =>
       let vote := VoteData.vote (snd entry) in
       let type := Proposal.type p in
       if (type =? "yesno") || (type =? "single") then
         if says_yes vote then S yesVotes else yesVotes
       else yesVotes)
    votes n
  = (n + if ((Proposal.type p =? "yesno")%string
             || (Proposal.type p =? "single")%string)%bool
         then List.length
                (filter (fun e : string * VoteData.t =>
                           says_yes (VoteData.vote (snd e))) votes)
         else 0)%nat.
Proof.
  revert n. induction votes as [|e votes IH]; intros n; simpl.
  - destruct ((Proposal.type p =? "yesno") || (Proposal.type p =? "single"));
      lia.
  - rewrite IH.
    destruct ((Proposal.type p =? "yesno") || (Proposal.type p =? "single"));
      [|lia].
    destruct (says_yes (VoteData.vote (snd e))); simpl; lia.
Qed.

Lemma ratio_bounds (a b : nat) :
  (a <= b)%nat -> (0 < b)%nat ->
  0 <= inject_Z (Z.of_nat a) / inject_Z (Z.of_nat b) <= 1.
Proof.
  intros Hab Hb.
  assert (Hb' : 0 < inject_Z (Z.of_nat b)).
  { change 0 with (inject_Z 0). rewrite <- Zlt_Qlt. lia. }
  split.
  - apply Qle_shift_div_l; [exact Hb'|]. rewrite Qmult_0_l.
    change 0 with (inject_Z 0). rewrite <- Zle_Qle. lia.
  - apply Qle_shift_div_r; [exact Hb'|]. rewrite Qmult_1_l.
    rewrite <- Zle_Qle. lia.
Qed.

(** The consensus ratio a decision stores is unweighted and relative to
    the votes cast: on a [yesno] or [single] proposal with votes it is the
    number of yes votes over the number of votes, and it is 0 on a
    proposal without votes or of another type.  It always lies between 0
    and 1. *)
Theorem consensusRatio_unweighted (p : Proposal.t) :
  let votes := Proposal.votes p in
  let yes :=
    List.length
      (filter (fun e : string * VoteData.t => says_yes (VoteData.vote (snd e)))
              votes) in
  calculateConsensusRatio p
    = (if (0 <? JMap.size votes)%nat then
         if (Proposal.type p =? "yesno") || (Proposal.type p =? "single")
         then inject_Z (Z.of_nat yes) / inject_Z (Z.of_nat (JMap.size votes))
         else inject_Z 0 / inject_Z (Z.of_nat (JMap.size votes))
       else 0) /\
  0 <= calculateConsensusRatio p <= 1.
Proof.
  intros votes yes. unfold calculateConsensusRatio.
  rewrite yes_count_loop. fold votes. simpl plus.
  assert (Hyes : (yes <= JMap.size votes)%nat) by apply filter_length_le.
  destruct (0 <? JMap.size votes)%nat eqn:E.
  - apply Nat.ltb_lt in E.
    destruct ((Proposal.type p =? "yesno") || (Proposal.type p =? "single")).
    + split; [reflexivity|]. now apply ratio_bounds.
    + split; [reflexivity|]. apply (ratio_bounds (a := 0)); lia.
  - split; [reflexivity|]. split; [apply Qle_refl | discriminate].
Qed.

(** ** Every call is a sequence of elementary changes *)

Section ChangeFacts.
Variable Number_toString : Q -> string.

Lemma changes_one (s s' : System.t) :
  change Number_toString s s' -> changes Number_toString s s'.
Proof. intros H. eapply changes_more; [apply changes_none | exact H]. Qed.

Lemma changes_trans (s1 s2 s3 : System.t) :
  changes Number_toString s1 s2 -> changes Number_toString s2 s3 ->
  changes Number_toString s1 s3.
Proof.
  intros H12 H23. induction H23 as [|s2 s3 s4 _ IH Hc]; auto.
  eapply changes_more; [apply IH; exact H12 | exact Hc].
Qed.

Lemma finalizeDecision_system (proposalId : string) (w w' : World)
    (d : Decision.t) :
  finalizeDecision Number_toString proposalId w = Some (d, w') ->
  exists p,
    JMap.get proposalId (System.proposals (system w)) = Some p /\
    d = decision_for Number_toString (system w) p (clock w (reads w)) /\
    system w' = finalized Number_toString (system w) p (clock w (reads w)).
Proof.
  intros H. unfold finalizeDecision in H. unfold_m. simpl in H.
  destruct (JMap.get proposalId (System.proposals (system w))) as [p|];
    [|discriminate].
  injection H as <- <-. exists p. repeat split.
Qed.

Lemma checkConsensus_changes (proposalId : string) (w w' : World)
    (r : ConsensusStatus) :
  checkConsensus Number_toString proposalId w = Some (r, w') ->
  changes Number_toString (system w) (system w').
Proof.
  intros H. unfold checkConsensus in H.
  apply bind_Some in H as (p & w0 & H0 & H).
  unfold deref in H0.
  destruct (JMap.get proposalId (System.proposals (system w))) as [p0|] eqn:E;
    [|discriminate].
  injection H0 as <- <-.
  apply bind_Some in H as (this & w0 & H0 & H).
  unfold this_ in H0. injection H0 as <- <-.
  destruct (Z.of_nat (JMap.size (Proposal.votes p0))
            <? Config.minAgents (System.config (system w)))%Z.
  { unfold ret in H. injection H as _ <-. apply changes_none. }
  apply bind_Some in H as ([] & w1 & H & Hret).
  unfold ret in Hret. injection Hret as _ <-.
  assert (Hdecide : forall st wa,
            system wa = system w ->
            (_ <- mutate proposalId (Proposal.set_status st);;
             _ <- finalizeDecision Number_toString proposalId;; ret tt) wa
              = Some (tt, w1) ->
            changes Number_toString (system w) (system w1)).
  { intros st wa Hwa Hrun.
    apply bind_Some in Hrun as ([] & wb & Hm & Hrun).
    unfold mutate, modify in Hm. injection Hm as <-.
    apply bind_Some in Hrun as (d & wc & Hf & Hret).
    unfold ret in Hret. injection Hret as <-.
    apply finalizeDecision_system in Hf as (p' & Hp' & _ & Hs).
    simpl in Hp', Hs. rewrite Hwa in *.
    eapply changes_more; [apply changes_one|].
    - apply (change_status Number_toString (system w) proposalId st E).
    - rewrite Hs. now apply change_finalize with (proposalId := proposalId). }
  destruct (Tallied.reached (status_object (system w) p0)).
  - now apply (Hdecide accepted w).
  - apply bind_Some in H as (now & wa & Hn & H).
    unfold Date_now in Hn. injection Hn as <- <-.
    destruct (Proposal.deadline p0 <? clock w (reads w))%Z.
    + now apply (Hdecide rejected
                   (mkWorld (system w) (clock w) (S (reads w)))).
    + unfold ret in H. injection H as <-. apply changes_none.
Qed.

Lemma vote_changes (agentId proposalId : string) (v : jsval)
    (comment : option string) (w w' : World) (r : Result VoteOk.t) :
  vote Number_toString agentId proposalId v comment w = Some (r, w') ->
  changes Number_toString (system w) (system w').
Proof.
  intros H. unfold vote in H.
  apply bind_Some in H as (this & w0 & H0 & H).
  unfold this_ in H0. injection H0 as <- <-.
  destruct (JMap.has agentId (System.agents (system w))) eqn:Hreg;
    simpl in H; [|injection H as _ <-; apply changes_none].
  destruct (JMap.has proposalId (System.proposals (system w)));
    simpl in H; [|injection H as _ <-; apply changes_none].
  apply bind_Some in H as (p & w0 & H0 & H).
  unfold deref in H0.
  destruct (JMap.get proposalId (System.proposals (system w))) as [p0|] eqn:E;
    [|discriminate].
  injection H0 as <- <-.
  destruct (Status_eqb (Proposal.status p0) voting) eqn:Ev; simpl in H;
    [|injection H as _ <-; apply changes_none].
  assert (Hst : Proposal.status p0 = voting)
    by (destruct (Proposal.status p0); try discriminate; reflexivity).
  apply bind_Some in H as (now & w0 & H0 & H).
  unfold Date_now in H0. injection H0 as <- <-.
  destruct (Proposal.deadline p0 <? clock w (reads w))%Z.
  { unfold_m. simpl in H. injection H as _ <-. simpl.
    apply changes_one. now apply change_status with (p := p0). }
  destruct (validateVote p0 v) eqn:Hv;
    [|injection H as _ <-; apply changes_none].
  unfold bind at 1 2 3 4 in H. unfold Date_now at 1 in H.
  unfold mutate at 1, modify at 1 in H. unfold Date_now at 1 in H.
  unfold modify at 1 in H. simpl in H.
  apply bind_Some in H as (res & w2 & Hc & H).
  apply checkConsensus_changes in Hc. simpl in Hc.
  unfold bind, this_, deref, ret in H.
  destruct (JMap.get proposalId (System.proposals (system w2)));
    [|discriminate].
  assert (Hw' : w' = w2) by (by_format H; now injection H as _ <-).
  subst w'. clear H.
  refine (changes_trans _ Hc).
  set (s1 := System.set_proposals
               (JMap.update proposalId
                  (Proposal.votes_set agentId
                     (VoteData.mk v (param comment "")
                        (clock w (S (reads w)))))
                  (System.proposals (system w)))
               (system w)).
  apply changes_more with (s2 := s1).
  - apply changes_one.
    apply (@change_vote Number_toString (system w) agentId proposalId p0
             (VoteData.mk v (param comment "") (clock w (S (reads w)))));
      auto.
  - exact (@change_record Number_toString s1
             (proposalId ++ "_" ++ agentId)
             (VoteData.mk v (param comment "") (clock w (S (S (reads w)))))).
Qed.

Lemma perform_changes (c : Call) (w w' : World) :
  perform Number_toString c w = Some (tt, w') ->
  changes Number_toString (system w) (system w').
Proof.
  intros H. destruct c; simpl in H;
    apply bind_Some in H as (r & w1 & H & Hret);
    unfold ret in Hret; injection Hret as <-.
  - unfold registerAgent in H. unfold_m. simpl in H.
    injection H as _ <-. simpl.
    apply changes_one. now apply change_register.
  - unfold createProposal in H. unfold_m. simpl in H.
    destruct (JMap.has agentId (System.agents (system w))) eqn:Hreg;
      simpl in H; [|injection H as _ <-; apply changes_none].
    by_format H; injection H as _ <-; apply changes_one;
      match goal with
      | |- change _ _ (system (mkWorld
             (System.set_proposals (JMap.set _ ?p _) _) _ _)) =>
          apply (@change_create Number_toString (system w) p); auto
      end.
  - now apply vote_changes in H.
  - unfold addComment in H. unfold_m. simpl in H.
    destruct (JMap.has agentId (System.agents (system w))); simpl in H;
      [|injection H as _ <-; apply changes_none].
    unfold JMap.has in H.
    destruct (JMap.get proposalId (System.proposals (system w))) as [p|] eqn:E;
      simpl in H; injection H as _ <-; [|apply changes_none].
    apply changes_one. now apply change_comment with (p := p).
  - now apply checkConsensus_changes in H.
  - apply finalizeDecision_system in H as (p & Hp & _ & Hs).
    rewrite Hs. apply changes_one.
    now apply change_finalize with (proposalId := proposalId).
  - unfold getVoteSuggestion in H.
    apply bind_Some in H as (this & w0 & H0 & H).
    unfold this_ in H0. injection H0 as <- <-.
    destruct (JMap.get proposalId (System.proposals (system w))) as [p|];
      [|injection H as _ <-; apply changes_none].
    apply bind_Some in H as (stats & w2 & Hc & H).
    apply checkConsensus_changes in Hc.
    assert (w1 = w2) as ->.
    { destruct (reached stats); [now injection H as _ <-|].
      destruct stats; now injection H as _ <-. }
    exact Hc.
Qed.

(** A property of systems that every elementary change keeps holds in
    every reachable world once it holds for a new system. *)
Lemma reachable_invariant (I : System.t -> Prop) :
  (forall config, I (constructor config)) ->
  (forall s s', change Number_toString s s' -> I s -> I s') ->
  forall w, reachable Number_toString w -> I (system w).
Proof.
  intros Hnew Hstep w Hr.
  induction Hr as [config clock|w w' c _ IH Hp]; [apply Hnew|].
  apply perform_changes in Hp.
  induction Hp as [|s1 s2 s3 _ IH' Hc]; auto.
  apply (Hstep s2 s3 Hc). now apply IH'.
Qed.

End ChangeFacts.

(** ** Invariants of the reachable worlds *)


Lemma has_set (V : Type) (k k' : string) (v : V) (m : JMap.t V) :
  JMap.has k' m = true -> JMap.has k' (JMap.set k v m) = true.
Proof.
  rewrite !JMapFacts.has_true_iff. intros H.
  apply JMapFacts.In_keys_set. auto.
Qed.

Lemma has_update (V : Type) (k k' : string) (f : V -> V) (m : JMap.t V) :
  JMap.has k' (JMap.update k f m) = JMap.has k' m.
Proof.
  destruct (JMap.has k' m) eqn:E.
  - apply JMapFacts.has_true_iff. rewrite JMapFacts.keys_update.
    now apply JMapFacts.has_true_iff.
  - destruct (JMap.has k' (JMap.update k f m)) eqn:E'; auto.
    apply JMapFacts.has_true_iff in E'. rewrite JMapFacts.keys_update in E'.
    apply JMapFacts.has_true_iff in E'. congruence.
Qed.

Lemma has_credit_loop (p : Proposal.t) (l : list (string * VoteData.t))
    (agents : JMap.t Agent.t) (k : string) :
  JMap.has k
    (fold_left
       (fun agents (entry : string * VoteData.t) =>
          JMap.update (fst entry) (credit p (VoteData.vote (snd entry))) agents)
       l agents)
  = JMap.has k agents.
Proof.
  revert agents. induction l as [|e l IH]; intros agents; simpl; auto.
  now rewrite IH, has_update.
Qed.



Lemma change_keeps (Number_toString : Q -> string) (s s' : System.t) :
  changes Number_toString s s' ->
  (forall id, JMap.has id (System.agents s) = true ->
              JMap.has id (System.agents s') = true) /\
  (forall id, JMap.has id (System.proposals s) = true ->
              JMap.has id (System.proposals s') = true) /\
  (forall id, JMap.has id (System.decisions s) = true ->
              JMap.has id (System.decisions s') = true) /\
  (exists later,
     System.consensusHistory s'
       = (System.consensusHistory s ++ later)%list) /\
  System.config s' = System.config s.
Proof.
  induction 1 as [s|s1 s2 s3 _ IH Hc].
  - repeat split; auto. exists []. now rewrite app_nil_r.
  - destruct IH as (Ha & Hp & Hd & (later & Hh) & Hcfg).
    destruct Hc; simpl; try rewrite has_update;
      try (repeat split; auto;
           try (intros id Hid; rewrite has_update; auto);
           eauto; fail).
    + repeat split; auto; [|eauto].
      intros id Hid. apply has_set. auto.
    + repeat split; auto; [|eauto].
      intros id Hid. apply has_set. auto.
    + repeat split; auto.
      * intros id Hid. rewrite has_credit_loop. auto.
      * intros id Hid. apply has_set. auto.
      * exists (later ++ [decision_for Number_toString s p decidedAt])%list.
        rewrite Hh. now rewrite app_assoc.
Qed.

(** No call removes an entry: an agent, a proposal or a decision that is
    stored under an id before a call is stored under that id after it,
    the history only grows at its end, and the configuration stays as it
    is.  (What is stored under an id may change: a registration replaces
    the profile of an agent that is registered already.) *)
Theorem calls_only_add
    (Number_toString : Q -> string) (c : Call) (w w' : World) :
  perform Number_toString c w = Some (tt, w') ->
  (forall id, JMap.has id (System.agents (system w)) = true ->
              JMap.has id (System.agents (system w')) = true) /\
  (forall id, JMap.has id (System.proposals (system w)) = true ->
              JMap.has id (System.proposals (system w')) = true) /\
  (forall id, JMap.has id (System.decisions (system w)) = true ->
              JMap.has id (System.decisions (system w')) = true) /\
  (exists later,
     System.consensusHistory (system w')
       = (System.consensusHistory (system w) ++ later)%list) /\
  System.config (system w') = System.config (system w).
Proof.
  intros H. apply perform_changes in H. now apply change_keeps in H.
Qed.

Lemma calls_only_add_witness :
  exists w',
    perform print_integer (Call_checkConsensus "prop_1") readme_world
      = Some (tt, w') /\
    JMap.has "beta" (System.agents (system w')) = true.
Proof.
  destruct (perform print_integer (Call_checkConsensus "prop_1") readme_world)
    as [[[] w']|] eqn:E; [|vm_compute in E; discriminate].
  exists w'. split; [reflexivity|].
  apply (proj1 (@calls_only_add print_integer _ _ _ E)). reflexivity.
Defined.

Lemma validateVote_ignores_state (p q : Proposal.t) (v : jsval) :
  Proposal.type q = Proposal.type p ->
  Proposal.options q = Proposal.options p ->
  validateVote q v = validateVote p v.
Proof. unfold validateVote. now intros -> ->. Qed.

Lemma votes_valid_invariant
    (Number_toString : Q -> string) (w : World)
    (proposalId agentId : string) (p : Proposal.t) (vd : VoteData.t) :
  reachable Number_toString w ->
  JMap.get proposalId (System.proposals (system w)) = Some p ->
  JMap.get agentId (Proposal.votes p) = Some vd ->
  validateVote p (VoteData.vote vd) = Valid.
Proof.
  intros Hr. revert proposalId agentId p vd.
  apply (@reachable_invariant Number_toString
           (fun s =>
              forall proposalId agentId p vd,
                JMap.get proposalId (System.proposals s) = Some p ->
                JMap.get agentId (Proposal.votes p) = Some vd ->
                validateVote p (VoteData.vote vd) = Valid));
    [| |exact Hr].
  - intros config pid a p vd H. discriminate H.
  - intros s s' Hc I pid a q vd Hq Hvd.
    destruct Hc; simpl in Hq; eauto.
    + destruct (string_dec (Proposal.id p) pid) as [<-|Hne].
      * rewrite JMapFacts.get_set_same in Hq. injection Hq as <-.
        rewrite H2 in Hvd. discriminate.
      * rewrite JMapFacts.get_set_other in Hq by assumption. eauto.
    + destruct (string_dec proposalId pid) as [<-|Hne].
      * rewrite JMapFacts.get_update_same, H in Hq. injection Hq as <-.
        rewrite (@validateVote_ignores_state p (Proposal.set_status st p))
          by reflexivity.
        eapply I; eauto.
      * rewrite JMapFacts.get_update_other in Hq by assumption. eauto.
    + destruct (string_dec proposalId pid) as [<-|Hne].
      * rewrite JMapFacts.get_update_same, H0 in Hq. injection Hq as <-.
        rewrite (@validateVote_ignores_state p
                   (Proposal.votes_set agentId vd0 p)) by reflexivity.
        simpl in Hvd.
        destruct (string_dec agentId a) as [<-|Hna].
        -- rewrite JMapFacts.get_set_same in Hvd. now injection Hvd as <-.
        -- rewrite JMapFacts.get_set_other in Hvd by assumption.
           eapply I; eauto.
      * rewrite JMapFacts.get_update_other in Hq by assumption. eauto.
    + destruct (string_dec proposalId pid) as [<-|Hne].
      * rewrite JMapFacts.get_update_same, H in Hq. injection Hq as <-.
        rewrite (@validateVote_ignores_state p
                   (Proposal.comments_push c p)) by reflexivity.
        eapply I; eauto.
      * rewrite JMapFacts.get_update_other in Hq by assumption. eauto.
Qed.

(** Every vote a proposal holds has passed the validator of that proposal:
    in every reachable world, each recorded vote is valid for the type and
    the options of the proposal it is recorded on. *)
Theorem recorded_votes_valid
    (Number_toString : Q -> string) (w : World)
    (proposalId agentId : string) (p : Proposal.t) (vd : VoteData.t) :
  reachable Number_toString w ->
  JMap.get proposalId (System.proposals (system w)) = Some p ->
  JMap.get agentId (Proposal.votes p) = Some vd ->
  validateVote p (VoteData.vote vd) = Valid.
Proof. apply votes_valid_invariant. Qed.

Lemma reachable_readme_world : reachable print_integer readme_world.
Proof.
  apply (@reachable_after print_integer readme_calls
           (new_world (fun _ => 1000%Z)));
    [apply reachable_new | vm_compute; reflexivity].
Qed.

Lemma recorded_votes_valid_witness :
  exists p vd,
    JMap.get "prop_1" (System.proposals (system readme_world)) = Some p /\
    JMap.get "beta" (Proposal.votes p) = Some vd /\
    validateVote p (VoteData.vote vd) = Valid.
Proof.
  destruct (JMap.get "prop_1" (System.proposals (system readme_world)))
    as [p|] eqn:Ep; [|vm_compute in Ep; discriminate].
  destruct (JMap.get "beta" (Proposal.votes p)) as [vd|] eqn:Evd.
  - exists p, vd. split; [reflexivity|]. split; [exact Evd|].
    exact (@recorded_votes_valid print_integer readme_world
             "prop_1" "beta" p vd reachable_readme_world Ep Evd).
  - vm_compute in Ep. injection Ep as <-. vm_compute in Evd. discriminate.
Defined.

Lemma credit_loop_all (P : string -> Agent.t -> Prop) (p : Proposal.t)
    (l : list (string * VoteData.t)) (agents : JMap.t Agent.t) :
  (forall k v a, P k a -> P k (credit p v a)) ->
  (forall k a, JMap.get k agents = Some a -> P k a) ->
  forall k a,
    JMap.get k
      (fold_left
         (fun agents (entry : string * VoteData.t) =>
            JMap.update (fst entry) (credit p (VoteData.vote (snd entry)))
              agents)
         l agents) = Some a ->
    P k a.
Proof.
  intros Hcredit. revert agents.
  induction l as [|e l IH]; intros agents Hall; simpl; [exact Hall|].
  apply IH. intros k a Hget.
  destruct (string_dec (fst e) k) as [<-|Hne].
  - rewrite JMapFacts.get_update_same in Hget.
    destruct (JMap.get (fst e) agents) as [a0|] eqn:E; [|discriminate].
    simpl in Hget. injection Hget as <-. apply Hcredit. eauto.
  - rewrite JMapFacts.get_update_other in Hget by assumption. eauto.
Qed.

Lemma profiles_invariant
    (Number_toString : Q -> string) (w : World) (agentId : string)
    (agent : Agent.t) :
  reachable Number_toString w ->
  JMap.get agentId (System.agents (system w)) = Some agent ->
  Agent.id agent = agentId /\
  Agent.reputation agent = 100%Z /\
  (Agent.agreedDecisions agent + Agent.disagreedDecisions agent
     <= Agent.participatedDecisions agent)%nat.
Proof.
  intros Hr. revert agentId agent.
  apply (@reachable_invariant Number_toString
           (fun s =>
              forall agentId agent,
                JMap.get agentId (System.agents s) = Some agent ->
                Agent.id agent = agentId /\
                Agent.reputation agent = 100%Z /\
                (Agent.agreedDecisions agent + Agent.disagreedDecisions agent
                   <= Agent.participatedDecisions agent)%nat));
    [| |exact Hr].
  - intros config k a H. discriminate H.
  - intros s s' Hc I k a Ha.
    destruct Hc; simpl in Ha; eauto.
    + destruct (string_dec agentId k) as [<-|Hne].
      * rewrite JMapFacts.get_set_same in Ha. injection Ha as <-.
        repeat split; auto. lia.
      * rewrite JMapFacts.get_set_other in Ha by assumption. eauto.
    + revert k a Ha.
      apply (@credit_loop_all
               (fun k a =>
                  Agent.id a = k /\
                  Agent.reputation a = 100%Z /\
                  (Agent.agreedDecisions a + Agent.disagreedDecisions a
                     <= Agent.participatedDecisions a)%nat)
               p (Proposal.votes p) (System.agents s)); [|exact I].
      intros k v a (H1 & H2 & H3). unfold credit.
      destruct ((Proposal.type p =? "yesno") || (Proposal.type p =? "single"));
        [destruct (says_yes v)|]; simpl; repeat split; auto; lia.
Qed.

(** The profile of every agent stays sound: in every reachable world an
    agent is stored under its own id, its reputation is the baseline 100,
    and its agreements and disagreements together never exceed its
    participations. *)
Theorem agent_profiles_sound
    (Number_toString : Q -> string) (w : World) (agentId : string)
    (agent : Agent.t) :
  reachable Number_toString w ->
  JMap.get agentId (System.agents (system w)) = Some agent ->
  Agent.id agent = agentId /\
  Agent.reputation agent = 100%Z /\
  (Agent.agreedDecisions agent + Agent.disagreedDecisions agent
     <= Agent.participatedDecisions agent)%nat.
Proof. apply profiles_invariant. Qed.

Lemma agent_profiles_sound_witness :
  exists agent,
    JMap.get "beta" (System.agents (system readme_world)) = Some agent /\
    Agent.reputation agent = 100%Z.
Proof.
  destruct (JMap.get "beta" (System.agents (system readme_world)))
    as [agent|] eqn:E; [|vm_compute in E; discriminate].
  exists agent. split; [reflexivity|].
  apply (@agent_profiles_sound print_integer readme_world "beta" agent
           reachable_readme_world E).
Defined.

(** ** The two tallies of a [yesno] proposal *)

Lemma In_get (V : Type) (k : string) (v : V) (m : JMap.t V) :
  NoDup (JMap.keys m) -> In (k, v) m -> JMap.get k m = Some v.
Proof.
  induction m as [|[k' v'] m IH]; simpl; [tauto|].
  intros Hnd [H|H].
  - injection H as -> ->. now rewrite String.eqb_refl.
  - inversion Hnd as [|x l Hnotin Hnd']. subst.
    destruct (String.eqb k' k) eqn:E; [|auto].
    apply String.eqb_eq in E. subst k'. exfalso. apply Hnotin.
    apply (in_map fst) in H. exact H.
Qed.

Lemma filter_none (A : Type) (f : A -> bool) (l : list A) :
  (forall x, In x l -> f x = false) -> filter f l = [].
Proof.
  induction l as [|x l IH]; simpl; auto.
  intros H. rewrite (H x) by auto. apply IH. auto.
Qed.

Lemma valid_yesno_buckets (Number_toString : Q -> string) (p : Proposal.t)
    (v : jsval) :
  Proposal.type p = "yesno" ->
  validateVote p v = Valid ->
  (bucket_of "yesno" v = Some Yes
   /\ filed_under Number_toString "yesno" v = Some "yes")
  \/ (bucket_of "yesno" v = Some No
      /\ filed_under Number_toString "yesno" v = Some "no").
Proof.
  intros Ht. unfold validateVote. rewrite Ht. simpl.
  unfold bucket_of, filed_under. simpl.
  destruct v as [| |[|]|n|s|l]; simpl; try discriminate; auto.
  destruct (s =? "yes"); simpl; auto.
  destruct (s =? "no"); simpl; auto. discriminate.
Qed.

(** On a [yesno] proposal of a reachable world the two tallies agree:
    nobody abstains, the yes and no counts of [checkConsensus] add up to
    the number of votes, and [countVotes] reports the same yes and no
    counts and no abstention, although the two loops test the votes
    differently. *)
Theorem yesno_tallies_agree
    (Number_toString : Q -> string) (w : World) (proposalId : string)
    (p : Proposal.t) :
  reachable Number_toString w ->
  JMap.get proposalId (System.proposals (system w)) = Some p ->
  Proposal.type p = "yesno" ->
  let s := status_object (system w) p in
  let counts := Results.counts (countVotes Number_toString (system w) p) in
  Tallied.abstainVotes s = 0%nat /\
  (Tallied.yesVotes s + Tallied.noVotes s)%nat = JMap.size (Proposal.votes p) /\
  JMap.get "yes" counts = Some (Counted (Tallied.yesVotes s)) /\
  JMap.get "no" counts = Some (Counted (Tallied.noVotes s)) /\
  JMap.get "abstain" counts = Some (Counted 0%nat).
Proof.
  intros Hr Hget Ht s counts.
  assert (Hvalid : forall e, In e (Proposal.votes p) ->
                     validateVote p (VoteData.vote (snd e)) = Valid).
  { intros [a vd] Hin. simpl.
    apply (@votes_valid_invariant Number_toString w proposalId a p vd Hr Hget).
    apply In_get; auto.
    apply reachable_ok in Hr as [_ Hp]. now apply Hp in Hget as [Hnd _]. }
  assert (Hb : forall e, In e (Proposal.votes p) ->
     (bucket_of "yesno" (VoteData.vote (snd e)) = Some Yes
      /\ filed_under Number_toString "yesno" (VoteData.vote (snd e))
         = Some "yes")
     \/ (bucket_of "yesno" (VoteData.vote (snd e)) = Some No
         /\ filed_under Number_toString "yesno" (VoteData.vote (snd e))
            = Some "no")).
  { intros e He. apply (valid_yesno_buckets Number_toString p); auto. }
  assert (Hyes : voters_under Number_toString "yesno" "yes" (Proposal.votes p)
                 = voters_in "yesno" Yes (Proposal.votes p)).
  { unfold voters_under, voters_in. f_equal. apply filter_ext_in.
    intros e He. destruct (Hb e He) as [[-> ->]|[-> ->]]; reflexivity. }
  assert (Hno : voters_under Number_toString "yesno" "no" (Proposal.votes p)
                = voters_in "yesno" No (Proposal.votes p)).
  { unfold voters_under, voters_in. f_equal. apply filter_ext_in.
    intros e He. destruct (Hb e He) as [[-> ->]|[-> ->]]; reflexivity. }
  assert (Hab : voters_under Number_toString "yesno" "abstain"
                  (Proposal.votes p) = []).
  { unfold voters_under. rewrite filter_none; auto.
    intros e He. destruct (Hb e He) as [[_ ->]|[_ ->]]; reflexivity. }
  assert (Hab' : voters_in "yesno" Abstain (Proposal.votes p) = []).
  { unfold voters_in. rewrite filter_none; auto.
    intros e He. destruct (Hb e He) as [[-> _]|[-> _]]; reflexivity. }
  destruct (tally_counts (system w) p (Proposal.votes p) Acc.zero)
    as (H1 & H2 & H3).
  rewrite Ht in H1, H2, H3. simpl in H1, H2, H3.
  pose proof (voters_in_partition "yesno" (Proposal.votes p)) as Hpart.
  simpl in Hpart. rewrite Hab' in Hpart. simpl in Hpart.
  assert (Hreport : forall k,
            In k ["yes"; "no"; "abstain"] ->
            JMap.get k counts
            = Some (Counted
                      (List.length
                         (voters_under Number_toString "yesno" k
                            (Proposal.votes p))))).
  { intros k Hk. subst counts.
    rewrite countVotes_counts
      by (destruct Hk as [<-|[<-|[<-|[]]]]; reflexivity).
    rewrite Ht.
    destruct (voters_under Number_toString "yesno" k (Proposal.votes p));
      [|reflexivity].
    now apply init_counts_yesno. }
  subst s. unfold status_object. simpl.
  rewrite H1, H2, H3, Hab'.
  split; [reflexivity|]. split; [unfold JMap.size; lia|].
  rewrite !Hreport by (simpl; auto). rewrite Hyes, Hno, Hab.
  repeat split.
Qed.

Lemma reachable_accept_world : reachable print_integer accept_world.
Proof.
  apply (@reachable_after print_integer accept_calls (new_world late_clock));
    [apply reachable_new | vm_compute; reflexivity].
Qed.

Lemma yesno_tallies_agree_witness :
  exists p,
    JMap.get "prop_1" (System.proposals (system accept_world)) = Some p /\
    JMap.get "yes"
      (Results.counts (countVotes print_integer (system accept_world) p))
    = Some (Counted
              (Tallied.yesVotes (status_object (system accept_world) p))).
Proof.
  destruct (JMap.get "prop_1" (System.proposals (system accept_world)))
    as [p|] eqn:Ep; [|vm_compute in Ep; discriminate].
  exists p. split; [reflexivity|].
  refine (proj1 (proj2 (proj2
    (@yesno_tallies_agree print_integer accept_world "prop_1" p
       reachable_accept_world Ep _)))).
  vm_compute in Ep. injection Ep as <-. reflexivity.
Defined.

(** ** The constructor *)

(** A new system has no agents, proposals, decisions or history and
    starts both counters at 1.  Each number of its configuration is the
    one given, unless that is missing or counts as false: a missing or
    zero [minAgents] becomes 2, a missing or zero [voteDeadline] becomes
    300000, and a missing [consensusThreshold], or one that is [0], [-0]
    or NaN, becomes 0.6. *)
Theorem constructor_defaults (config : Config.arg) :
  let this := constructor config in
  let c := System.config this in
  System.agents this = JMap.empty /\
  System.proposals this = JMap.empty /\
  System.decisions this = JMap.empty /\
  System.consensusHistory this = [] /\
  System.proposalIdCounter this = 1%nat /\
  System.decisionIdCounter this = 1%nat /\
  (forall n, Config.arg_minAgents config = Some n -> n <> 0%Z ->
             Config.minAgents c = n) /\
  (forall n, Config.arg_voteDeadline config = Some n -> n <> 0%Z ->
             Config.voteDeadline c = n) /\
  (forall x, Config.arg_consensusThreshold config = Some x ->
             Num.falsy x = false ->
             Config.consensusThreshold c = x) /\
  (Config.arg_minAgents config = None \/
   Config.arg_minAgents config = Some 0%Z ->
   Config.minAgents c = 2%Z) /\
  (Config.arg_voteDeadline config = None \/
   Config.arg_voteDeadline config = Some 0%Z ->
   Config.voteDeadline c = 300000%Z) /\
  (Config.arg_consensusThreshold config = None \/
   Config.arg_consensusThreshold config = Some (S754_zero false) \/
   Config.arg_consensusThreshold config = Some (S754_zero true) \/
   Config.arg_consensusThreshold config = Some S754_nan ->
   Config.consensusThreshold c = Num.decimal 6 1) /\
  Num.decimal 6 1 = S754_finite false 5404319552844595 (-53) /\
  Config.minAgents c <> 0%Z /\
  Config.voteDeadline c <> 0%Z /\
  Num.falsy (Config.consensusThreshold c) = false.
Proof.
  intros this c. subst this c. unfold constructor. simpl.
  unfold optZ_or, optnum_or, num_or.
  repeat split.
  - intros n -> Hn. apply Z.eqb_neq in Hn. now rewrite Hn.
  - intros n -> Hn. apply Z.eqb_neq in Hn. now rewrite Hn.
  - intros x -> Hx. now rewrite Hx.
  - intros [->| ->]; reflexivity.
  - intros [->| ->]; reflexivity.
  - intros [->|[->|[->| ->]]]; reflexivity.
  - destruct (Config.arg_minAgents config) as [n|]; [|discriminate].
    destruct (n =? 0)%Z eqn:E; [discriminate|]. now apply Z.eqb_neq.
  - destruct (Config.arg_voteDeadline config) as [n|]; [|discriminate].
    destruct (n =? 0)%Z eqn:E; [discriminate|]. now apply Z.eqb_neq.
  - destruct (Config.arg_consensusThreshold config) as [x|]; [|reflexivity].
    destruct (Num.falsy x) eqn:E; [reflexivity | exact E].
Qed.

(** ** Reports *)

(** [getDecisionHistory] returns the decisions newest first.  With a
    positive limit it returns the newest [limit] of them (all, when there
    are fewer; 10 by default); with limit 0 it returns the whole history,
    since [slice(-0)] starts at the beginning; with a negative limit it
    leaves out the oldest [-limit] decisions.  The summary shows the
    newest three. *)
Theorem getDecisionHistory_slices (this : System.t) (limit : option Z) :
  let history := System.consensusHistory this in
  let n := param limit 10%Z in
  ((0 < n)%Z ->
   getDecisionHistory this limit = firstn (Z.to_nat n) (rev history)) /\
  (n = 0%Z -> getDecisionHistory this limit = rev history) /\
  ((n < 0)%Z ->
   getDecisionHistory this limit
   = rev (skipn (Z.to_nat (- n)) history)) /\
  (List.length (getDecisionHistory this limit) <= List.length history)%nat /\
  Summary.recentDecisions (getSummary this) = firstn 3 (rev history).
Proof.
  intros history n.
  assert (Hsum : Summary.recentDecisions (getSummary this)
                 = firstn 3 (rev history)).
  { unfold getSummary, getDecisionHistory, slice_from, param.
    cbn [Summary.recentDecisions]. fold history.
    rewrite firstn_rev. f_equal. f_equal.
    destruct (- (3) <? 0)%Z eqn:E; [lia | discriminate E]. }
  unfold getDecisionHistory, slice_from.
  fold history. fold n.
  split; [|split; [|split; [|split; [|exact Hsum]]]].
  - intros Hn. rewrite firstn_rev.
    assert (E : (- n <? 0)%Z = true) by (apply Z.ltb_lt; lia).
    rewrite E. f_equal. f_equal. lia.
  - intros Hn. rewrite Hn. simpl. rewrite Z.min_l by lia. reflexivity.
  - intros Hn.
    assert (E : (- n <? 0)%Z = false) by (apply Z.ltb_ge; lia).
    rewrite E.
    destruct (Z_le_gt_dec (- n) (Z.of_nat (List.length history))) as [H|H].
    + now rewrite Z.min_l.
    + rewrite Z.min_r by lia. rewrite Nat2Z.id.
      rewrite skipn_all. rewrite skipn_all2; [reflexivity|lia].
  - rewrite length_rev, length_skipn. lia.
Qed.

Lemma listProposals_loop_spec (this : System.t) (status : option string)
    (entries : list (string * Proposal.t)) (proposals : list Formatted.t) :
  let shown := filter (status_matches status) (map snd entries) in
  listProposals_loop this status entries proposals
  = if forallb printable shown
    then Normal (proposals ++ map (formatted this) shown)%list
    else Throw RangeError.
Proof.
  revert proposals.
  induction entries as [|[id p] entries IH]; intros proposals; simpl.
  - now rewrite app_nil_r.
  - destruct (status_matches status p); simpl; [|apply IH].
    rewrite formatProposal_printable.
    destruct (printable p); simpl; [|reflexivity].
    rewrite IH. simpl.
    destruct (forallb printable _); [|reflexivity].
    now rewrite <- app_assoc.
Qed.

Lemma listProposals_spec (this : System.t) (status : option string) :
  listProposals this status
  = if forallb printable (matching this status)
    then Normal (map (formatted this) (matching this status))
    else Throw RangeError.
Proof. unfold listProposals. now rewrite listProposals_loop_spec. Qed.

Lemma matching_status (this : System.t) (st : Status) :
  List.length (matching this (Some (Status_text st))) = count_status this st /\
  forall p, In p (matching this (Some (Status_text st))) ->
            Proposal.status p = st.
Proof.
  unfold matching.
  assert (E : forall p,
            status_matches (Some (Status_text st)) p
            = Status_eqb (Proposal.status p) st).
  { intros p. unfold status_matches.
    destruct st, (Proposal.status p); reflexivity. }
  rewrite (filter_ext _ _ E). split; [reflexivity|].
  intros p Hp. apply filter_In in Hp as [_ Hp].
  destruct (Proposal.status p), st; try discriminate; reflexivity.
Qed.

(** [listProposals] without a status, or with the empty string, shows
    every stored proposal; with a status it shows exactly the proposals of
    that status, as many as there are; with any other string it shows
    nothing.  It returns the formatted copies of the proposals it shows,
    in the order they were stored, when the dates of all of them print;
    when one of them has a date out of the range of [Date], it throws a
    [RangeError]. *)
Theorem listProposals_filters (this : System.t) :
  (forall status,
     listProposals this status
     = if forallb printable (matching this status)
       then Normal (map (formatted this) (matching this status))
       else Throw RangeError) /\
  (forall status, status = None \/ status = Some "" ->
     matching this status = JMap.values (System.proposals this)) /\
  (forall st,
     List.length (matching this (Some (Status_text st)))
       = count_status this st /\
     forall p, In p (matching this (Some (Status_text st))) ->
               Proposal.status p = st) /\
  (forall s, s <> "" -> (forall st, Status_text st <> s) ->
     listProposals this (Some s) = Normal []).
Proof.
  split; [|split; [|split]].
  - apply listProposals_spec.
  - unfold matching. intros status [->| ->]; simpl.
    + induction (JMap.values (System.proposals this)); simpl; congruence.
    + induction (JMap.values (System.proposals this)); simpl; congruence.
  - apply matching_status.
  - intros s Hs Hno. rewrite listProposals_spec. unfold matching.
    rewrite filter_none; [reflexivity|].
    intros p _. unfold status_matches.
    apply String.eqb_neq in Hs. rewrite Hs. simpl.
    apply String.eqb_neq. apply Hno.
Qed.

Lemma count_status_partition (l : list Proposal.t) :
  List.length l
  = (List.length (filter (fun p => Status_eqb (Proposal.status p) accepted) l)
     + List.length (filter (fun p => Status_eqb (Proposal.status p) rejected) l)
     + List.length (filter (fun p => Status_eqb (Proposal.status p) voting) l)
     + List.length (filter (fun p => Status_eqb (Proposal.status p) expired) l))%nat.
Proof.
  induction l as [|p l IH]; simpl; auto.
  destruct (Proposal.status p); simpl; lia.
Qed.

(** In the statistics the accepted, rejected and voting proposals do not
    add up to the total while a proposal is [expired]: the total is these
    three counts plus the number of expired proposals, which no count
    shows.  The acceptance rate lies between 0 and 100. *)
Theorem getConsensusStats_partition (this : System.t) :
  let stats := getConsensusStats this in
  Stats.totalProposals stats
    = (Stats.accepted stats + Stats.rejected stats + Stats.voting stats
       + count_status this expired)%nat /\
  Stats.totalAgents stats = JMap.size (System.agents this) /\
  Stats.totalDecisions stats = JMap.size (System.decisions this) /\
  0 <= Stats.acceptanceRate stats <= 100.
Proof.
  intros stats. subst stats. unfold getConsensusStats. simpl.
  assert (Hp : JMap.size (System.proposals this)
               = (count_status this accepted + count_status this rejected
                  + count_status this voting + count_status this expired)%nat).
  { unfold count_status, JMap.size, JMap.values.
    rewrite <- count_status_partition. now rewrite length_map. }
  split; [exact Hp|]. split; [reflexivity|]. split; [reflexivity|].
  destruct (0 <? JMap.size (System.proposals this))%nat eqn:E.
  - apply Nat.ltb_lt in E.
    destruct (@ratio_bounds (count_status this accepted)
                (JMap.size (System.proposals this))) as [H0 H1];
      [lia | exact E |].
    split.
    + apply Qmult_le_0_compat; [exact H0 | discriminate].
    + setoid_replace 100 with (1 * 100) at 2 by ring.
      apply Qmult_le_compat_r; [exact H1 | discriminate].
  - split; discriminate.
Qed.

(** ** The leaderboard *)

Section SortFacts.
Variable A : Type.
Variable compare : A -> A -> Q.

Lemma sort_insert_perm (x : A) (l : list A) :
  Permutation (sort_insert compare x l) (x :: l).
Proof.
  induction l as [|y l IH]; simpl; auto.
  destruct (Qltb 0 (compare x y)); auto.
  rewrite IH. apply perm_swap.
Qed.

Lemma Array_sort_perm (l : list A) : Permutation (Array_sort compare l) l.
Proof.
  unfold Array_sort. induction l as [|x l IH]; simpl; auto.
  rewrite sort_insert_perm. now constructor.
Qed.

(** When no element has to go after another, the stable sort moves
    nothing. *)
Lemma Array_sort_ties (l : list A) :
  (forall a b, In a l -> In b l -> Qltb 0 (compare a b) = false) ->
  Array_sort compare l = l.
Proof.
  unfold Array_sort. induction l as [|x l IH]; intros H; simpl; auto.
  rewrite IH by (intros a b Ha Hb; apply H; simpl; auto).
  destruct l as [|y l]; simpl; auto.
  rewrite H by (simpl; auto). reflexivity.
Qed.

Variable key : A -> Q.
Hypothesis compare_key :
  forall a b, Qltb 0 (compare a b) = true <-> key a < key b.

Lemma sort_insert_sorted (x : A) (l : list A) :
  Sorted (fun a b => key b <= key a) l ->
  Sorted (fun a b => key b <= key a) (sort_insert compare x l).
Proof.
  induction l as [|y l IH]; intros Hs; simpl.
  - repeat constructor.
  - inversion Hs as [|y' l' Hs' Hhd]. subst.
    destruct (Qltb 0 (compare x y)) eqn:E.
    + apply compare_key in E. constructor; [now apply IH|].
      destruct l as [|z l]; simpl.
      * constructor. now apply Qlt_le_weak.
      * inversion Hhd. subst.
        destruct (Qltb 0 (compare x z)); constructor; auto.
        now apply Qlt_le_weak.
    + constructor; [exact Hs|]. constructor.
      apply Qnot_lt_le. intros Hlt. apply compare_key in Hlt. congruence.
Qed.

Lemma Array_sort_sorted (l : list A) :
  Sorted (fun a b => key b <= key a) (Array_sort compare l).
Proof.
  unfold Array_sort. induction l as [|x l IH]; simpl.
  - constructor.
  - now apply sort_insert_sorted.
Qed.

End SortFacts.

Lemma Qltb_inject_Z (z : Z) : Qltb 0 (inject_Z z) = true <-> (0 < z)%Z.
Proof.
  unfold Qltb. rewrite negb_true_iff. split.
  - intros H. apply Z.nle_gt. intros Hle.
    assert (Hq : inject_Z z <= 0)
      by (change 0 with (inject_Z 0); now rewrite <- Zle_Qle).
    apply Qle_bool_iff in Hq. congruence.
  - intros H. destruct (Qle_bool (inject_Z z) 0) eqn:E; auto.
    apply Qle_bool_iff in E. change 0 with (inject_Z 0) in E.
    rewrite <- Zle_Qle in E. lia.
Qed.


Lemma rank_from_agents (index : nat) (l : list Agent.t) :
  map Ranked.agent (rank_from index l) = l.
Proof. revert index. induction l; intros; simpl; congruence. Qed.



Lemma In_values_get (V : Type) (v : V) (m : JMap.t V) :
  NoDup (JMap.keys m) -> In v (JMap.values m) ->
  exists k, JMap.get k m = Some v.
Proof.
  intros Hnd Hin. unfold JMap.values in Hin.
  apply in_map_iff in Hin as ([k v'] & Hv & Hin). simpl in Hv. subst v'.
  exists k. now apply In_get.
Qed.

Lemma rank_from_In (index : nat) (l : list Agent.t) (entry : Ranked.t) :
  In entry (rank_from index l) ->
  In (Ranked.agent entry) l /\
  Ranked.agreementRate entry
  = (if (0 <? Agent.participatedDecisions (Ranked.agent entry))%nat
     then Some (inject_Z (Z.of_nat (Agent.agreedDecisions (Ranked.agent entry)))
                / inject_Z (Z.of_nat
                     (Agent.participatedDecisions (Ranked.agent entry)))
                * 100)
     else None).
Proof.
  revert index. induction l as [|a l IH]; intros index; simpl; [tauto|].
  intros [<-|H]; simpl; auto.
  apply IH in H as [H1 H2]. auto.
Qed.

(** In every reachable world the default leaderboard is the registry in
    the order of registration, because every reputation is the same and
    the sort is stable; and whatever the sort key, an agreement rate shown
    on the board lies between 0 and 100. *)
Theorem leaderboard_of_reachable_world
    (Number_toString : Q -> string) (w : World) :
  reachable Number_toString w ->
  map Ranked.agent (getLeaderboard (system w) None)
    = JMap.values (System.agents (system w)) /\
  (forall sortBy entry rate,
     In entry (getLeaderboard (system w) sortBy) ->
     Ranked.agreementRate entry = Some rate ->
     0 <= rate <= 100).
Proof.
  intros Hr.
  assert (Hnd : NoDup (JMap.keys (System.agents (system w))))
    by (apply reachable_ok in Hr as [H _]; exact H).
  assert (Hinv : forall a, In a (JMap.values (System.agents (system w))) ->
                   Agent.reputation a = 100%Z /\
                   (Agent.agreedDecisions a + Agent.disagreedDecisions a
                      <= Agent.participatedDecisions a)%nat).
  { intros a Ha. apply In_values_get in Ha as [k Hk]; [|exact Hnd].
    apply (@profiles_invariant Number_toString w k a Hr) in Hk.
    tauto. }
  split.
  - unfold getLeaderboard. simpl. rewrite rank_from_agents.
    apply Array_sort_ties. intros a b Ha Hb.
    apply Hinv in Ha as [-> _]. apply Hinv in Hb as [-> _]. reflexivity.
  - intros sortBy entry rate Hin Hrate.
    unfold getLeaderboard in Hin. apply rank_from_In in Hin as [Ha Hrate'].
    assert (Hv : In (Ranked.agent entry) (JMap.values (System.agents (system w)))).
    { destruct (leaderboard_compare (param sortBy "reputation")); auto.
      eapply Permutation_in; [apply Array_sort_perm | exact Ha]. }
    apply Hinv in Hv as [_ Hle].
    rewrite Hrate in Hrate'.
    destruct (0 <? Agent.participatedDecisions (Ranked.agent entry))%nat eqn:E;
      [|discriminate].
    injection Hrate' as ->. apply Nat.ltb_lt in E.
    destruct (@ratio_bounds (Agent.agreedDecisions (Ranked.agent entry))
                (Agent.participatedDecisions (Ranked.agent entry)))
      as [H0 H1]; [lia | exact E |].
    split.
    + apply Qmult_le_0_compat; [exact H0 | discriminate].
    + setoid_replace 100 with (1 * 100) at 2 by ring.
      apply Qmult_le_compat_r; [exact H1 | discriminate].
Qed.

Lemma leaderboard_of_reachable_world_witness :
  map Ranked.agent (getLeaderboard (system readme_world) None)
    = JMap.values (System.agents (system readme_world)).
Proof.
  exact (proj1 (@leaderboard_of_reachable_world print_integer readme_world
                  reachable_readme_world)).
Defined.

(** ** The advisory layer *)

Lemma Sorted_weaken (A : Type) (R R' : A -> A -> Prop) (l : list A) :
  (forall a b, R a b -> R' a b) -> Sorted R l -> Sorted R' l.
Proof.
  intros HR Hs. induction Hs as [|a l Hs IH Hhd]; constructor; auto.
  destruct Hhd; constructor; auto.
Qed.

Lemma sorted_head_least (l : list Formatted.t) (first : Formatted.t) :
  Sorted (fun a b => (Formatted.deadline a <= Formatted.deadline b)%Z) l ->
  hd_error l = Some first ->
  forall g, In g l -> (Formatted.deadline first <= Formatted.deadline g)%Z.
Proof.
  intros Hs Hhd. apply Sorted_StronglySorted in Hs;
    [|intros a b c; apply Z.le_trans].
  destruct l as [|x l]; [discriminate|]. injection Hhd as ->.
  inversion Hs as [|y l' _ Hall]. subst.
  intros g [<-|Hg]; [apply Z.le_refl|].
  rewrite Forall_forall in Hall. auto.
Qed.

(** When the dates of every [voting] proposal print, the proposal
    suggestion says to create a proposal exactly when no stored proposal
    is [voting]; otherwise it lists the voting proposals, each once, in
    ascending order of deadline, counts them, and names as urgent a voting
    proposal whose deadline no other voting proposal precedes; and
    [getNextAction] then finds a proposal to vote on, so it returns in
    either case.  When a voting proposal has a date out of the range of
    [Date], both methods throw the [RangeError] of [listProposals]. *)
Theorem getProposalSuggestion_urgent (this : System.t) :
  if forallb printable (matching this (Some "voting")) then
    (getProposalSuggestion this = Normal SuggestCreate
     <-> count_status this voting = 0%nat) /\
    (forall count proposals urgent,
       getProposalSuggestion this
         = Normal (SuggestVote count proposals urgent) ->
       count = count_status this voting /\
       Permutation proposals
         (map (formatted this) (matching this (Some "voting"))) /\
       Sorted (fun a b => (Formatted.deadline a <= Formatted.deadline b)%Z)
              proposals /\
       exists first,
         urgent = Some first /\
         In first proposals /\
         Formatted.status first = voting /\
         (forall g, In g proposals ->
                    (Formatted.deadline first <= Formatted.deadline g)%Z) /\
         getNextAction this
         = Normal (ActionVote (Formatted.id first) (Formatted.title first)
                     (Formatted.description first)
                     (Formatted.deadline first))) /\
    (getProposalSuggestion this = Normal SuggestCreate ->
     getNextAction this = Normal ActionCreate) /\
    (exists s, getProposalSuggestion this = Normal s) /\
    (exists a, getNextAction this = Normal a)
  else
    getProposalSuggestion this = Throw RangeError /\
    getNextAction this = Throw RangeError.
Proof.
  destruct (matching_status this voting) as [Hlen Hall].
  simpl in Hlen, Hall.
  unfold getNextAction, getProposalSuggestion.
  rewrite listProposals_spec.
  destruct (forallb printable (matching this (Some "voting")));
    [|split; reflexivity].
  set (l := map (formatted this) (matching this (Some "voting"))) in *.
  assert (Hlen' : List.length l = count_status this voting)
    by (unfold l; now rewrite length_map).
  assert (Hall' : forall f, In f l -> Formatted.status f = voting).
  { intros f Hf. apply in_map_iff in Hf as (p & <- & Hp). simpl. auto. }
  set (cmp := fun a b : Formatted.t =>
                inject_Z (Formatted.deadline a - Formatted.deadline b)).
  assert (Hperm : Permutation (Array_sort cmp l) l) by apply Array_sort_perm.
  assert (Hsorted : Sorted (fun a b => (Formatted.deadline a
                                        <= Formatted.deadline b)%Z)
                           (Array_sort cmp l)).
  { assert (Hs : Sorted (fun a b =>
                           inject_Z (- Formatted.deadline b)
                           <= inject_Z (- Formatted.deadline a))
                        (Array_sort cmp l)).
    { apply Array_sort_sorted. intros a b. unfold cmp.
      rewrite Qltb_inject_Z. rewrite <- Zlt_Qlt. lia. }
    revert Hs. apply Sorted_weaken. intros a b Hb.
    rewrite <- Zle_Qle in Hb. lia. }
  destruct (List.length l =? 0)%nat eqn:E.
  - apply Nat.eqb_eq in E. split; [|split; [|split; [|split]]].
    + split; [intros _; lia | reflexivity].
    + intros count proposals urgent H. discriminate H.
    + reflexivity.
    + eauto.
    + eauto.
  - apply Nat.eqb_neq in E.
    destruct (Array_sort cmp l) as [|first rest] eqn:Es.
    { apply Permutation_length in Hperm. simpl in Hperm. lia. }
    split; [|split; [|split; [|split]]].
    + split; [discriminate | intros H; lia].
    + intros count proposals urgent H. injection H as <- <- <-.
      split; [exact Hlen'|]. split; [exact Hperm|]. split; [exact Hsorted|].
      exists first. simpl. split; [reflexivity|].
      split; [auto|]. split.
      { apply Hall'. eapply Permutation_in; [exact Hperm | simpl; auto]. }
      split; [|reflexivity].
      apply (sorted_head_least Hsorted). reflexivity.
    + intros H. discriminate H.
    + eauto.
    + simpl. eauto.
Qed.


(** Asking for a vote suggestion on a missing proposal is refused and
    changes nothing.  On a proposal with fewer votes than [minAgents]
    nothing changes either, and the advice is to keep campaigning with NaN
    for the number of votes still needed, as the evaluator counted no
    votes. *)
Theorem getVoteSuggestion_edges
    (Number_toString : Q -> string) (w : World) (proposalId : string) :
  match JMap.get proposalId (System.proposals (system w)) with
  | None =>
      getVoteSuggestion Number_toString proposalId w
        = Some (SuggestionError ProposalNotFound, w)
  | Some p =>
      (Z.of_nat (JMap.size (Proposal.votes p))
         < Config.minAgents (System.config (system w)))%Z ->
      getVoteSuggestion Number_toString proposalId w
        = Some (Pending (Proposal.title p) (NotReached InsufficientVotes)
                  S754_nan "继续争取", w)
  end.
Proof.
  destruct (JMap.get proposalId (System.proposals (system w))) as [p|] eqn:E.
  - intros Hlt. unfold getVoteSuggestion. unfold bind at 1.
    unfold this_ at 1. rewrite E. unfold bind.
    now rewrite (checkConsensus_insufficient Number_toString _ _ E Hlt).
  - unfold getVoteSuggestion. unfold bind at 1. unfold this_ at 1.
    now rewrite E.
Qed.

(** ** One decision per proposal through votes *)

Section DecidedOnce.
Variable Number_toString : Q -> string.
Hypothesis print_nat_injective :
  forall m n, print_nat Number_toString m = print_nat Number_toString n ->
              m = n.

Lemma decisions_about_app (proposalId : string) (h : list Decision.t)
    (d : Decision.t) :
  decisions_about proposalId (h ++ [d])
  = (decisions_about proposalId h
     + if (Decision.proposalId d =? proposalId)%string then 1 else 0)%nat.
Proof.
  unfold decisions_about. rewrite filter_app, length_app. simpl.
  destruct (Decision.proposalId d =? proposalId); reflexivity.
Qed.

Lemma once_same (s s' : System.t) :
  System.proposals s' = System.proposals s ->
  System.consensusHistory s' = System.consensusHistory s ->
  System.proposalIdCounter s' = System.proposalIdCounter s ->
  decided_once Number_toString s -> decided_once Number_toString s'.
Proof. unfold decided_once. now intros -> -> ->. Qed.

Lemma once_update (s s' : System.t) (ref : string)
    (f : Proposal.t -> Proposal.t) :
  (forall p, Proposal.id (f p) = Proposal.id p) ->
  (forall p, JMap.get ref (System.proposals s) = Some p ->
             decided (Proposal.status (f p)) = decided (Proposal.status p)) ->
  System.proposals s' = JMap.update ref f (System.proposals s) ->
  System.consensusHistory s' = System.consensusHistory s ->
  System.proposalIdCounter s' = System.proposalIdCounter s ->
  decided_once Number_toString s -> decided_once Number_toString s'.
Proof.
  intros Hid Hst Hp Hh Hc (Ha & Hb & Hd).
  unfold decided_once. rewrite Hp, Hh, Hc. split; [|split].
  - intros pid p Hget.
    destruct (string_dec ref pid) as [<-|Hne].
    + rewrite JMapFacts.get_update_same in Hget.
      destruct (JMap.get ref (System.proposals s)) as [p0|] eqn:E;
        [|discriminate].
      simpl in Hget. injection Hget as <-. rewrite Hid. now apply Ha.
    + rewrite JMapFacts.get_update_other in Hget by assumption. now apply Ha.
  - intros d Hin. rewrite has_update. now apply Hb.
  - intros pid p Hget.
    destruct (string_dec ref pid) as [<-|Hne].
    + rewrite JMapFacts.get_update_same in Hget.
      destruct (JMap.get ref (System.proposals s)) as [p0|] eqn:E;
        [|discriminate].
      simpl in Hget. injection Hget as <-. rewrite (Hst p0 eq_refl).
      now apply Hd.
    + rewrite JMapFacts.get_update_other in Hget by assumption. now apply Hd.
Qed.

Lemma once_created (s s' : System.t) (p : Proposal.t) :
  Proposal.id p
    = "prop_" ++ print_nat Number_toString (System.proposalIdCounter s) ->
  Proposal.status p = voting ->
  System.proposals s' = JMap.set (Proposal.id p) p (System.proposals s) ->
  System.consensusHistory s' = System.consensusHistory s ->
  System.proposalIdCounter s' = S (System.proposalIdCounter s) ->
  decided_once Number_toString s -> decided_once Number_toString s'.
Proof.
  intros Hid Hst Hp Hh Hc (Ha & Hb & Hd).
  assert (Hfresh : JMap.has (Proposal.id p) (System.proposals s) = false).
  { unfold JMap.has.
    destruct (JMap.get (Proposal.id p) (System.proposals s)) as [q|] eqn:E;
      [|reflexivity].
    apply Ha in E as (_ & k & Hk & E). rewrite Hid in E.
    simpl in E. injection E as E. apply print_nat_injective in E. lia. }
  unfold decided_once. rewrite Hp, Hh, Hc. split; [|split].
  - intros pid q Hget.
    destruct (string_dec (Proposal.id p) pid) as [<-|Hne].
    + rewrite JMapFacts.get_set_same in Hget. injection Hget as <-.
      split; [reflexivity|]. exists (System.proposalIdCounter s).
      split; [lia | exact Hid].
    + rewrite JMapFacts.get_set_other in Hget by assumption.
      apply Ha in Hget as (H1 & k & Hk & H2). split; [exact H1|].
      exists k. split; [lia | exact H2].
  - intros d Hin. apply has_set. now apply Hb.
  - intros pid q Hget.
    destruct (string_dec (Proposal.id p) pid) as [<-|Hne].
    + rewrite JMapFacts.get_set_same in Hget. injection Hget as <-.
      rewrite Hst. simpl. unfold decisions_about.
      rewrite filter_none; [reflexivity|].
      intros d Hin. apply String.eqb_neq. intros E.
      apply Hb in Hin. rewrite E in Hin. congruence.
    + rewrite JMapFacts.get_set_other in Hget by assumption. now apply Hd.
Qed.

Lemma once_decided (s : System.t) (proposalId : string) (p : Proposal.t)
    (st : Status) (decidedAt : Z) :
  JMap.get proposalId (System.proposals s) = Some p ->
  decided (Proposal.status p) = false ->
  decided st = true ->
  decided_once Number_toString s ->
  decided_once Number_toString
    (finalized Number_toString
       (System.set_proposals
          (JMap.update proposalId (Proposal.set_status st)
             (System.proposals s)) s)
       (Proposal.set_status st p) decidedAt).
Proof.
  intros Hget Hund Hst (Ha & Hb & Hd).
  assert (Hid : Proposal.id p = proposalId) by (now apply Ha in Hget).
  unfold decided_once. simpl. split; [|split].
  - intros pid q Hq.
    destruct (string_dec proposalId pid) as [<-|Hne].
    + rewrite JMapFacts.get_update_same, Hget in Hq. injection Hq as <-.
      simpl. now apply Ha.
    + rewrite JMapFacts.get_update_other in Hq by assumption. now apply Ha.
  - intros d Hin. rewrite has_update.
    apply in_app_iff in Hin as [Hin|[<-|[]]]; [now apply Hb|].
    simpl. rewrite Hid. now apply has_get with (v := p).
  - intros pid q Hq.
    rewrite decisions_about_app. simpl. rewrite Hid.
    destruct (string_dec proposalId pid) as [<-|Hne].
    + rewrite JMapFacts.get_update_same, Hget in Hq. injection Hq as <-.
      simpl. rewrite Hst, String.eqb_refl.
      rewrite (Hd _ _ Hget), Hund. reflexivity.
    + rewrite JMapFacts.get_update_other in Hq by assumption.
      apply String.eqb_neq in Hne. rewrite Hne.
      rewrite (Hd _ _ Hq). lia.
Qed.

Lemma checkConsensus_once (proposalId : string) (w w' : World)
    (p : Proposal.t) (r : ConsensusStatus) :
  JMap.get proposalId (System.proposals (system w)) = Some p ->
  decided (Proposal.status p) = false ->
  checkConsensus Number_toString proposalId w = Some (r, w') ->
  decided_once Number_toString (system w) ->
  decided_once Number_toString (system w').
Proof.
  intros Hget Hund H Hinv. unfold checkConsensus in H.
  apply bind_Some in H as (p0 & w0 & H0 & H).
  unfold deref in H0. rewrite Hget in H0. injection H0 as <- <-.
  apply bind_Some in H as (this & w0 & H0 & H).
  unfold this_ in H0. injection H0 as <- <-.
  destruct (Z.of_nat (JMap.size (Proposal.votes p))
            <? Config.minAgents (System.config (system w)))%Z.
  { unfold ret in H. now injection H as _ <-. }
  apply bind_Some in H as ([] & w1 & H & Hret).
  unfold ret in Hret. injection Hret as _ <-.
  assert (Hdecide : forall st wa,
            decided st = true ->
            system wa = system w ->
            (_ <- mutate proposalId (Proposal.set_status st);;
             _ <- finalizeDecision Number_toString proposalId;; ret tt) wa
              = Some (tt, w1) ->
            decided_once Number_toString (system w1)).
  { intros st wa Hst Hwa Hrun.
    apply bind_Some in Hrun as ([] & wb & Hm & Hrun).
    unfold mutate, modify in Hm. injection Hm as <-.
    apply bind_Some in Hrun as (d & wc & Hf & Hret).
    unfold ret in Hret. injection Hret as <-.
    apply finalizeDecision_system in Hf as (p' & Hp' & _ & Hs).
    simpl in Hp', Hs. rewrite Hwa in *.
    rewrite JMapFacts.get_update_same, Hget in Hp'. injection Hp' as <-.
    rewrite Hs. now apply once_decided. }
  destruct (Tallied.reached (status_object (system w) p)).
  - now apply (Hdecide accepted w).
  - apply bind_Some in H as (now & wa & Hn & H).
    unfold Date_now in Hn. injection Hn as <- <-.
    destruct (Proposal.deadline p <? clock w (reads w))%Z.
    + now apply (Hdecide rejected
                   (mkWorld (system w) (clock w) (S (reads w)))).
    + unfold ret in H. now injection H as <-.
Qed.

Lemma core_call_once (c : Call) (w w' : World) :
  core_call c = true ->
  perform Number_toString c w = Some (tt, w') ->
  decided_once Number_toString (system w) ->
  decided_once Number_toString (system w').
Proof.
  intros Hcore H Hinv. destruct c; try discriminate Hcore; simpl in H;
    apply bind_Some in H as (r & w1 & H & Hret);
    unfold ret in Hret; injection Hret as <-.
  - unfold registerAgent in H. unfold_m. simpl in H.
    injection H as _ <-. now apply (once_same (s := system w)).
  - unfold createProposal in H. unfold_m. simpl in H.
    destruct (JMap.has agentId (System.agents (system w))); simpl in H;
      [|injection H as _ <-; exact Hinv].
    by_format H; injection H as _ <-;
      match goal with
      | |- decided_once _ (system (mkWorld
             (System.set_proposals (JMap.set _ ?p _) _) _ _)) =>
          apply (@once_created (system w) _ p); auto
      end.
  - unfold vote in H.
    apply bind_Some in H as (this & w0 & H0 & H).
    unfold this_ in H0. injection H0 as <- <-.
    destruct (JMap.has agentId (System.agents (system w)));
      simpl in H; [|now injection H as _ <-].
    destruct (JMap.has proposalId (System.proposals (system w)));
      simpl in H; [|now injection H as _ <-].
    apply bind_Some in H as (p & w0 & H0 & H).
    unfold deref in H0.
    destruct (JMap.get proposalId (System.proposals (system w))) as [p0|] eqn:E;
      [|discriminate].
    injection H0 as <- <-.
    destruct (Status_eqb (Proposal.status p0) voting) eqn:Ev; simpl in H;
      [|now injection H as _ <-].
    assert (Hst : Proposal.status p0 = voting)
      by (destruct (Proposal.status p0); try discriminate; reflexivity).
    apply bind_Some in H as (now & w0 & H0 & H).
    unfold Date_now in H0. injection H0 as <- <-.
    destruct (Proposal.deadline p0 <? clock w (reads w))%Z.
    { unfold_m. simpl in H. injection H as _ <-.
      eapply once_update with (s := system w) (ref := proposalId)
                              (f := Proposal.set_status expired);
        try reflexivity; [|exact Hinv].
      intros q Hq. rewrite E in Hq. injection Hq as <-. now rewrite Hst. }
    destruct (validateVote p0 vote0); [|now injection H as _ <-].
    unfold bind at 1 2 3 4 in H. unfold Date_now at 1 in H.
    unfold mutate at 1, modify at 1 in H. unfold Date_now at 1 in H.
    unfold modify at 1 in H. simpl in H.
    apply bind_Some in H as (res & w2 & Hc & H).
    unfold bind, this_, deref, ret in H.
    destruct (JMap.get proposalId (System.proposals (system w2)));
      [|discriminate].
    assert (Hw1 : w1 = w2) by (by_format H; now injection H as _ <-).
    subst w1. clear H.
    set (vd := VoteData.mk vote0 (param comment "") (clock w (S (reads w))))
      in *.
    apply (@checkConsensus_once proposalId _ w2
             (Proposal.votes_set agentId vd p0) res) in Hc; auto.
    + simpl. now rewrite JMapFacts.get_update_same, E.
    + simpl. now rewrite Hst.
    + eapply once_update with (s := system w) (ref := proposalId)
                              (f := Proposal.votes_set agentId vd);
        try reflexivity. exact Hinv.
  - unfold addComment in H. unfold_m. simpl in H.
    destruct (JMap.has agentId (System.agents (system w))); simpl in H;
      [|now injection H as _ <-].
    destruct (JMap.has proposalId (System.proposals (system w))); simpl in H;
      [|now injection H as _ <-].
    injection H as _ <-.
    match goal with
    | |- decided_once _ (system (mkWorld
           (System.set_proposals (JMap.update _ ?g _) _) _ _)) =>
        eapply once_update with (s := system w) (ref := proposalId) (f := g)
    end; try reflexivity. exact Hinv.
Qed.

Lemma by_votes_once (w : World) :
  reachable_by_votes Number_toString w ->
  decided_once Number_toString (system w).
Proof.
  induction 1 as [config clock|w w' c _ IH Hcore Hstep].
  - unfold decided_once. simpl. repeat split; try discriminate.
    intros d [].
  - now apply (core_call_once c w).
Qed.

End DecidedOnce.

(** Through registrations, new proposals, votes and comments a proposal is
    decided at most once: in every world these calls lead to, a proposal
    that is [accepted] or [rejected] has exactly one decision in the
    history, and a proposal that is [voting] or [expired] has none.  (The
    printing of counters is taken to be injective, as it is in
    JavaScript.) *)
Theorem one_decision_per_proposal
    (Number_toString : Q -> string) (w : World) (proposalId : string)
    (p : Proposal.t) :
  (forall m n, print_nat Number_toString m = print_nat Number_toString n ->
               m = n) ->
  reachable_by_votes Number_toString w ->
  JMap.get proposalId (System.proposals (system w)) = Some p ->
  Proposal.id p = proposalId /\
  decisions_about proposalId (System.consensusHistory (system w))
  = if decided (Proposal.status p) then 1%nat else 0%nat.
Proof.
  intros Hinj Hr Hget.
  destruct (by_votes_once Hinj Hr) as (Ha & _ & Hd).
  split; [now apply Ha in Hget | now apply Hd].
Qed.

Lemma to_int_not_nil (z : Z) :
  Z.to_int z <> Decimal.Pos Decimal.Nil /\
  Z.to_int z <> Decimal.Neg Decimal.Nil.
Proof.
  split; intros E; pose proof (DecimalZ.of_to z) as H; rewrite E in H;
    simpl in H; subst z; discriminate E.
Qed.

Lemma print_integer_injective (m n : nat) :
  print_nat print_integer m = print_nat print_integer n -> m = n.
Proof.
  unfold print_nat, print_integer. rewrite !Qfloor_Z. intros H.
  apply (f_equal NilZero.int_of_string) in H.
  destruct (to_int_not_nil (Z.of_nat m)) as [Hm1 Hm2].
  destruct (to_int_not_nil (Z.of_nat n)) as [Hn1 Hn2].
  rewrite !NilZero.isi in H by assumption.
  injection H as H. apply DecimalZ.to_int_inj in H. lia.
Qed.

Lemma one_decision_per_proposal_witness :
  exists p,
    JMap.get "prop_1" (System.proposals (system accept_world)) = Some p /\
    decisions_about "prop_1" (System.consensusHistory (system accept_world))
    = 1%nat.
Proof.
  destruct (JMap.get "prop_1" (System.proposals (system accept_world)))
    as [p|] eqn:Ep; [|vm_compute in Ep; discriminate].
  exists p. split; [reflexivity|].
  assert (Hr : reachable_by_votes print_integer accept_world).
  { assert (Hgen : forall calls w w',
               forallb core_call calls = true ->
               reachable_by_votes print_integer w ->
               after print_integer calls w = Some w' ->
               reachable_by_votes print_integer w').
    { unfold after. induction calls as [|c calls IH]; intros w w' Hc Hr H;
        simpl in H.
      - now injection H as <-.
      - simpl in Hc. apply andb_true_iff in Hc as [Hc1 Hc2].
        unfold run at 2 in H.
        destruct (perform print_integer c w) as [[[] w1]|] eqn:E.
        + apply (IH w1 w' Hc2); [|exact H].
          eapply by_votes_call; eauto.
        + rewrite after_None in H. discriminate. }
    apply (Hgen accept_calls (new_world late_clock));
      [reflexivity | apply by_votes_new | vm_compute; reflexivity]. }
  destruct (@one_decision_per_proposal print_integer accept_world "prop_1" p
              print_integer_injective Hr Ep) as [_ H].
  rewrite H. vm_compute in Ep. injection Ep as <-. reflexivity.
Defined.

Lemma decided_status_kept_witness :
  exists w' p',
    perform print_integer (Call_vote "a" "prop_1" (JStr "no") None)
      accept_world = Some (tt, w') /\
    JMap.get "prop_1" (System.proposals (system w')) = Some p' /\
    Proposal.status p' = accepted.
Proof.
  destruct (perform print_integer (Call_vote "a" "prop_1" (JStr "no") None)
              accept_world) as [[[] w']|] eqn:E;
    [|vm_compute in E; discriminate].
  destruct (JMap.get "prop_1" (System.proposals (system accept_world)))
    as [p|] eqn:Ep; [|vm_compute in Ep; discriminate].
  assert (Hst : Proposal.status p = accepted)
    by (vm_compute in Ep; injection Ep as <-; reflexivity).
  destruct (@decided_status_kept print_integer
              (Call_vote "a" "prop_1" (JStr "no") None)
              accept_world w' "prop_1" p eq_refl E Ep) as (p' & H1 & H2).
  - rewrite Hst. discriminate.
  - exists w', p'. split; [reflexivity|]. split; [exact H1|]. congruence.
Defined.

(** ** The breakdown under the keys of its own *)

(** In a system of positive weights, what [countVotes] reports under a
    key that plain objects do not inherit is right: the count is the
    number of the voters whose vote the loop files under the key (for an
    array vote, the key of its first element), the weighted sum is the sum
    of their weights, added up in voting order with a voter absent from
    the registry counting 1, and every key a vote is filed under is
    reported. *)
Theorem countVotes_sums
    (Number_toString : Q -> string) (this : System.t) (p : Proposal.t)
    (k : string) :
  positive_weights this ->
  inherited k = false ->
  let results := countVotes Number_toString this p in
  let voters :=
    voters_under Number_toString (Proposal.type p) k (Proposal.votes p) in
  (forall c, JMap.get k (Results.weightedCounts results) = Some c ->
     c = Counted (weight_sum this voters)) /\
  (forall c, JMap.get k (Results.counts results) = Some c ->
     c = Counted (List.length voters)) /\
  (voters <> [] ->
   JMap.get k (Results.weightedCounts results)
     = Some (Counted (weight_sum this voters)) /\
   JMap.get k (Results.counts results)
     = Some (Counted (List.length voters))).
Proof.
  intros Hpos Hk results voters.
  pose proof (@countVotes_weights Number_toString this p k Hpos Hk) as Hw.
  pose proof (@countVotes_counts Number_toString this p k Hk) as Hc.
  simpl in Hw, Hc. fold results voters in Hw, Hc.
  split; [|split].
  - intros c H. rewrite Hw in H.
    destruct voters; [|congruence].
    now apply init_counts_zero in H.
  - intros c H. rewrite Hc in H.
    destruct voters; [|congruence].
    now apply init_counts_zero in H.
  - intros Hv. rewrite Hw, Hc. destruct voters; [contradiction|]. auto.
Qed.

Lemma countVotes_sums_witness :
  JMap.get "0"
    (Results.weightedCounts
       (countVotes print_integer (system (world_abc single_three_votes))
          single_three_votes))
  = Some (Counted
            (weight_sum (system (world_abc single_three_votes)) ["a"; "c"])) /\
  JMap.get "0"
    (Results.counts
       (countVotes print_integer (system (world_abc single_three_votes))
          single_three_votes))
  = Some (Counted 2%nat).
Proof.
  apply (@countVotes_sums print_integer
           (system (world_abc single_three_votes)) single_three_votes "0"
           (positive_weights_abc _) eq_refl).
  vm_compute. discriminate.
Defined.
